(** * dwd-hf-exporter: the per-file pipeline and the day-range controller

    A shallow embedding of [src/dwd_hf_exporter/main.py] and
    [src/dwd_hf_exporter/converter.py].

    The Python code talks to four outside services (the Hugging Face
    catalog and transfer API, S3, the local file system and the
    xarray/zipfile stack).  They are modelled by an environment [env]
    that says which outside call fails with which exception and what the
    catalog holds, and by a [world] that carries the local files, the
    bucket contents, the log of outside calls and the printed lines.
    Python functions become computations in a state-and-exception monad
    [M]; [try]/[except] clauses catch exactly the exception classes the
    source names. *)

From Stdlib Require Import ZArith QArith Lia Bool Sorted.
From Stdlib Require Import Strings.String Strings.Ascii DecimalString.
From Stdlib Require DecimalN DecimalPos.
From stdpp Require Import gmap strings list fin_maps.

Local Open Scope Z_scope.

(** ** Strings: the [str] methods the source uses *)

Module Str.

(** The line feed of ["\n"] inside an f-string. *)
Definition nl : string := String (ascii_of_nat 10) EmptyString.

(** [s.startswith(p)]. *)
Definition startswith (s p : string) : bool := String.prefix p s.

(** [s.endswith(suf)]: [suf] is [s] or a suffix of its tail. *)
Fixpoint endswith (s suf : string) : bool :=
  String.eqb s suf ||
  match s with
  | EmptyString => false
  | String _ s' => endswith s' suf
  end.

(** [s.replace(old, new)] for a non-empty [old]: the occurrences of [old]
    are found left to right and do not overlap.  [skip] counts the
    characters of an occurrence that was just replaced and are still to
    be dropped. *)
Fixpoint replace_from (skip : nat) (old new s : string) : string :=
  match s with
  | EmptyString => EmptyString
  | String c s' =>
      match skip with
      | S k => replace_from k old new s'
      | O =>
          if String.prefix old s
          then new +:+ replace_from (String.length old - 1) old new s'
          else String c (replace_from 0 old new s')
      end
  end.

Definition replace (old new s : string) : string := replace_from 0 old new s.

(** [s.find(sub)]: index of the first occurrence, [None] for Python's -1. *)
Fixpoint find (sub s : string) : option nat :=
  if String.prefix sub s then Some 0%nat
  else match s with
       | EmptyString => None
       | String _ s' => S <$> find sub s'
       end.

(** [s.split("/")]: never empty, the pieces hold no slash. *)
Fixpoint split_slash (s : string) : list string :=
  match s with
  | EmptyString => [EmptyString]
  | String c s' =>
      if Ascii.eqb c "/"%char then EmptyString :: split_slash s'
      else match split_slash s' with
           | [] => [String c EmptyString]
           | h :: t => String c h :: t
           end
  end.

(** ["/".join(parts)]. *)
Fixpoint join_slash (parts : list string) : string :=
  match parts with
  | [] => EmptyString
  | [p] => p
  | p :: ps => p +:+ "/" +:+ join_slash ps
  end.

(** [str(n)] and [f"{n}"] for an integer that is not negative. *)
Definition of_int (n : Z) : string :=
  NilZero.string_of_uint (N.to_uint (Z.to_N n)).

(** Left padding with zeros up to [width], as [f"{n:02d}"] does. *)
Definition zfill (width : nat) (s : string) : string :=
  String.concat EmptyString (repeat "0" (width - String.length s)) +:+ s.

Definition fmt_02d (n : Z) : string := zfill 2 (of_int n).
Definition fmt_04d (n : Z) : string := zfill 4 (of_int n).

End Str.

(** ** Paths: [os.path] on strings, [pathlib.Path] on parsed paths *)

Module OsPath.

(** [os.path.basename(p)]: what follows the last slash. *)
Definition basename (p : string) : string :=
  List.last (Str.split_slash p) EmptyString.

(** [os.path.join(a, b)]. *)
Definition join (a b : string) : string :=
  if Str.startswith b "/" then b
  else if String.eqb a EmptyString || Str.endswith a "/" then a +:+ b
  else a +:+ "/" +:+ b.

End OsPath.

(** A parsed POSIX path: whether it is anchored at the root, and its
    components, with empty components and ["."] dropped.  Two spellings of
    one file ([./data/x] and [data/x]) parse to the same value, so the file
    system below is keyed by parsed paths. *)
Abbreviation path := (bool * list string)%type.

Module Pathlib.

Definition proper_part (c : string) : bool :=
  negb (String.eqb c EmptyString) && negb (String.eqb c ".").

(** [Path(s)]. *)
Definition Path (s : string) : path :=
  (Str.startswith s "/", List.filter proper_part (Str.split_slash s)).

(** [p.name]. *)
Definition name (p : path) : string := List.last p.2 EmptyString.

(** [p.parent]. *)
Definition parent (p : path) : path := (p.1, List.removelast p.2).

(** [p / s]. *)
Definition joinpath (p : path) (s : string) : path :=
  if Str.startswith s "/" then Path s else (p.1, p.2 ++ (Path s).2).

(** [str(p)]. *)
Definition to_str (p : path) : string :=
  match p with
  | (false, []) => "."
  | (false, ps) => Str.join_slash ps
  | (true, ps) => "/" +:+ Str.join_slash ps
  end.

End Pathlib.

(** ** Calendar days: the part of [datetime] the controller uses *)

Record date := mkDate { year : Z; month : Z; day : Z }.

Module Date.

Definition is_leap (y : Z) : bool :=
  ((y mod 4 =? 0) && negb (y mod 100 =? 0)) || (y mod 400 =? 0).

Definition days_in_month (y m : Z) : Z :=
  if m =? 2 then (if is_leap y then 29 else 28)
  else if (m =? 4) || (m =? 6) || (m =? 9) || (m =? 11) then 30
  else 31.

(** What a [datetime] object guarantees of its fields. *)
Definition valid (d : date) : Prop :=
  1 <= year d <= 9999 /\ 1 <= month d <= 12 /\
  1 <= day d <= days_in_month (year d) (month d).

Definition validb (d : date) : bool :=
  (1 <=? year d) && (year d <=? 9999) && (1 <=? month d) && (month d <=? 12) &&
  (1 <=? day d) && (day d <=? days_in_month (year d) (month d)).

(** [datetime.max] as a day. *)
Definition max : date := mkDate 9999 12 31.

(** [a <= b] and [a < b] on [datetime]. *)
Definition leb (a b : date) : bool :=
  (year a <? year b) ||
  ((year a =? year b) &&
   ((month a <? month b) || ((month a =? month b) && (day a <=? day b)))).

Definition ltb (a b : date) : bool :=
  (year a <? year b) ||
  ((year a =? year b) &&
   ((month a <? month b) || ((month a =? month b) && (day a <? day b)))).

(** [d + timedelta(days=1)]; [None] is Python's [OverflowError] past
    9999-12-31. *)
Definition next_day (d : date) : option date :=
  if day d <? days_in_month (year d) (month d)
  then Some (mkDate (year d) (month d) (day d + 1))
  else if month d <? 12 then Some (mkDate (year d) (month d + 1) 1)
  else if year d <? 9999 then Some (mkDate (year d + 1) 1 1)
  else None.

(** [str(d.date())]: ISO format. *)
Definition isoformat (d : date) : string :=
  Str.fmt_04d (year d) +:+ "-" +:+ Str.fmt_02d (month d) +:+ "-" +:+ Str.fmt_02d (day d).

(** A bound on the number of days from one date to another: it grows by
    at least one with every [next_day]. *)
Definition rank (d : date) : Z := 372 * year d + 31 * month d + day d.

End Date.

(** ** Exceptions

    The classes the source distinguishes: [except ClientError],
    [except OSError] and [except Exception] each catch their own class and
    its subclasses.  [KeyboardInterrupt] stands for the [BaseException]s
    that [except Exception] lets through. *)

Inductive exn :=
| ClientError (code : string)        (* botocore: an error response of the service *)
| EndpointConnectionError            (* botocore: a BotoCoreError, not a ClientError *)
| HfHubHTTPError (msg : string)      (* huggingface_hub *)
| OSError (msg : string)             (* includes FileNotFoundError, PermissionError *)
| BadZipFile
| ValueError (msg : string)
| IndexError
| KeyError (msg : string)
| OverflowError
| KeyboardInterrupt.

Definition is_ClientError (e : exn) : bool :=
  match e with ClientError _ => true | _ => false end.

Definition is_OSError (e : exn) : bool :=
  match e with OSError _ => true | _ => false end.

Definition is_Exception (e : exn) : bool :=
  match e with KeyboardInterrupt => false | _ => true end.

(** [str(e)], as the f-strings of the log lines render it. *)
Definition str_exn (e : exn) : string :=
  match e with
  | ClientError code => "An error occurred (" +:+ code +:+ ")"
  | EndpointConnectionError => "Could not connect to the endpoint URL"
  | HfHubHTTPError msg => msg
  | OSError msg => msg
  | BadZipFile => "File is not a zip file"
  | ValueError msg => msg
  | IndexError => "index 0 is out of bounds for axis 0 with size 0"
  | KeyError msg => msg
  | OverflowError => "date value out of range"
  | KeyboardInterrupt => EmptyString
  end.

(** ** Data sets and files *)

(** The coordinates of a data set.  Coordinates and bounds are exact
    rationals: the comparisons of the source are modelled without
    rounding. *)
Record dataset := mkDataset { latitude : list Q; longitude : list Q }.

Inductive content :=
| ZarrZip (ds : dataset)     (* a zipped zarr store *)
| NetCDF (ds : dataset)      (* what [to_netcdf] writes *)
| Raw (bytes : string).      (* anything else *)

(** ** The outside world *)

(** Every call that leaves the program. The calls made inside
    [converter.extract] carry the file they work for.  A listing is two
    events: the call of [list_repo_tree], which hands back a generator,
    and the reading of that generator, which is when the Hub is asked. *)
Inductive call :=
| NewHfApi
| GetS3Client
| ListRepoTree (repo_id path_in_repo : string)
| ReadRepoTree (repo_id path_in_repo : string)
| MakeDirs (dir : string)
| HeadObject (bucket key : string)
| HfHubDownload (repo_id filename local_dir : string) (force_download : bool)
| OpenWrite (file : string)
| Sleep (seconds : Z)
| MkDtemp (filepath : string)
| Unzip (filepath : string)
| OpenZarr (filepath : string)
| Load (filepath : string)
| ToNetcdf (output_path : string)
| Rmtree (filepath : string)
| UploadFile (local_path bucket key : string)
| Remove (file : string).

(** What the program cannot control: which outside call fails, with which
    exception, and what the remote repository holds. *)
Record env := mkEnv {
  fault : call -> option exn;
  repo_tree : string -> string -> list string;   (* repo, folder: the paths of its entries *)
  repo_file : string -> string -> content        (* repo, path: the file *)
}.

(** What [list_repo_tree] returns: a generator that has not run yet, and
    remembers what it was asked for. *)
Record tree_generator := mkTreeGenerator {
  tree_repo_id : string;
  tree_path_in_repo : string
}.

Record world := mkWorld {
  fs : gmap (bool * list string) content;        (* local files *)
  s3 : gmap (string * string) content;           (* (bucket, key) to object *)
  calls : list call;                             (* outside calls so far, oldest first *)
  out : list string                              (* what [print] wrote, one entry per call *)
}.

(** ** The monad: state, exceptions, and a loop that may run out of fuel *)

Inductive res (A : Type) :=
| Ret (a : A)
| Raise (e : exn)
| OutOfFuel.
Arguments Ret {A} a.
Arguments Raise {A} e.
Arguments OutOfFuel {A}.

Definition M (A : Type) : Type := world -> res A * world.

Definition ret {A} (a : A) : M A := fun w => (Ret a, w).

Definition bind {A B} (m : M A) (k : A -> M B) : M B :=
  fun w =>
    match m w with
    | (Ret a, w') => k a w'
    | (Raise e, w') => (Raise e, w')
    | (OutOfFuel, w') => (OutOfFuel, w')
    end.

Definition raise {A} (e : exn) : M A := fun w => (Raise e, w).

Declare Scope py_scope.
Delimit Scope py_scope with py.
Notation "x <- m ;; k" := (bind m (fun x => k))
  (at level 100, m at next level, right associativity) : py_scope.
Notation "m ;; k" := (bind m (fun _ => k))
  (at level 100, right associativity) : py_scope.
Local Open Scope py_scope.

(** [try: m  except <class>: h]. *)
Definition try_except {A} (m : M A) (catches : exn -> bool) (h : exn -> M A) : M A :=
  fun w =>
    match m w with
    | (Raise e, w') => if catches e then h e w' else (Raise e, w')
    | r => r
    end.

(** [try: m  finally: fin]. *)
Definition try_finally {A} (m : M A) (fin : M unit) : M A :=
  fun w =>
    match m w with
    | (r, w') =>
        match fin w' with
        | (Ret _, w'') => (r, w'')
        | (Raise e, w'') => (Raise e, w'')
        | (OutOfFuel, w'') => (OutOfFuel, w'')
        end
    end.

(** A [try] block around a statement whose [except Exception] branch ends
    the iteration: the caller gets the exception or the value. *)
Definition attempt {A} (m : M A) : M (exn + A) :=
  try_except (a <- m ;; ret (inr a)) is_Exception (fun e => ret (inl e)).

Definition get_world : M world := fun w => (Ret w, w).

Definition print (line : string) : M unit :=
  fun w => (Ret tt, mkWorld (fs w) (s3 w) (calls w) (out w ++ [line])).

Definition write_file (p : path) (c : content) : M unit :=
  fun w => (Ret tt, mkWorld (<[p := c]> (fs w)) (s3 w) (calls w) (out w)).

Definition delete_file (p : path) : M unit :=
  fun w => (Ret tt, mkWorld (delete p (fs w)) (s3 w) (calls w) (out w)).

Definition put_object (bucket key : string) (c : content) : M unit :=
  fun w => (Ret tt, mkWorld (fs w) (<[(bucket, key) := c]> (s3 w)) (calls w) (out w)).

Section Program.

Variable E : env.

(** An outside call: logged, then it fails if the environment says so. *)
Definition outside (c : call) : M unit :=
  fun w =>
    let w' := mkWorld (fs w) (s3 w) (calls w ++ [c]) (out w) in
    match fault E c with
    | Some e => (Raise e, w')
    | None => (Ret tt, w')
    end.

(** *** Library calls *)

(** [s3.head_object(Bucket=, Key=)]: S3 answers a missing key with the
    error response 404. *)
Definition head_object (bucket key : string) : M unit :=
  outside (HeadObject bucket key) ;;
  w <- get_world ;;
  match s3 w !! (bucket, key) with
  | Some _ => ret tt
  | None => raise (ClientError "404")
  end.

(** [s3.upload_file(local_path, bucket, key)]. *)
Definition upload_file (local_path bucket key : string) : M unit :=
  outside (UploadFile local_path bucket key) ;;
  w <- get_world ;;
  match fs w !! Pathlib.Path local_path with
  | Some c => put_object bucket key c
  | None => raise (OSError "No such file or directory")
  end.

(** [api.list_repo_tree(repo_id=, repo_type="dataset", path_in_repo=)] is
    a generator function: the call checks what it is given and hands back
    a generator.  The Hub is not asked yet, so a folder that is missing or
    a Hub that cannot be reached does not make this call fail. *)
Definition list_repo_tree (repo_id path_in_repo : string) : M tree_generator :=
  outside (ListRepoTree repo_id path_in_repo) ;;
  ret (mkTreeGenerator repo_id path_in_repo).

(** [[node.path for node in tree]]: the generator is read to its end.
    The requests to the Hub are made now, and an error response (a
    missing folder is one) is raised here, out of the comprehension. *)
Definition node_paths (tree : tree_generator) : M (list string) :=
  outside (ReadRepoTree (tree_repo_id tree) (tree_path_in_repo tree)) ;;
  ret (repo_tree E (tree_repo_id tree) (tree_path_in_repo tree)).

(** [hf_hub_download(repo_id=, filename=, repo_type="dataset", local_dir=,
    force_download=)]: the file is placed under [local_dir] at its path
    in the repository, and that local path is returned. *)
Definition hf_hub_download (repo_id filename local_dir : string) (force_download : bool)
  : M string :=
  outside (HfHubDownload repo_id filename local_dir force_download) ;;
  let local := OsPath.join local_dir filename in
  write_file (Pathlib.Path local) (repo_file E repo_id filename) ;;
  ret local.

Definition os_makedirs (dir : string) : M unit := outside (MakeDirs dir).

(** [with open(p, "w") as f:] followed by a write of the empty string. *)
Definition open_write_empty (p : string) : M unit :=
  outside (OpenWrite p) ;;
  write_file (Pathlib.Path p) (Raw EmptyString).

Definition time_sleep (seconds : Z) : M unit := outside (Sleep seconds).

(** [os.remove(p)]. *)
Definition os_remove (p : string) : M unit :=
  outside (Remove p) ;;
  w <- get_world ;;
  match fs w !! Pathlib.Path p with
  | Some _ => delete_file (Pathlib.Path p)
  | None => raise (OSError "No such file or directory")
  end.

End Program.

(** ** Label slicing on a coordinate axis

    What [ds.sel(axis=slice(lo, hi))] selects, as pandas computes it for
    the index of the axis: positions [start, stop) found by binary search
    on a sorted index (in either direction), by exact lookup otherwise;
    the result is [axis[start:stop]]. *)

Module Index.

Definition Qltb (x y : Q) : bool := negb (Qle_bool y x).

Fixpoint is_monotonic_increasing (l : list Q) : bool :=
  match l with
  | x :: t => match t with
              | y :: _ => Qle_bool x y && is_monotonic_increasing t
              | [] => true
              end
  | [] => true
  end.

Fixpoint is_monotonic_decreasing (l : list Q) : bool :=
  match l with
  | x :: t => match t with
              | y :: _ => Qle_bool y x && is_monotonic_decreasing t
              | [] => true
              end
  | [] => true
  end.

(** How many leading entries satisfy [p]: on a sorted index and a
    threshold test, the insertion point of the threshold. *)
Fixpoint leading (p : Q -> bool) (l : list Q) : nat :=
  match l with
  | x :: t => if p x then S (leading p t) else O
  | [] => O
  end.

(** [l[start:stop]] for positions within the list. *)
Definition slice (l : list Q) (start stop : nat) : list Q :=
  firstn (stop - start) (skipn start l).

(** The positions of a label in an unsorted index: its first position
    and one past its last, when it occurs and its occurrences are
    adjacent. *)
Definition get_loc (label : Q) (l : list Q) : option (nat * nat) :=
  let first := leading (fun x => negb (Qeq_bool x label)) l in
  let n := length (List.filter (fun x => Qeq_bool x label) l) in
  if (n =? 0)%nat then None
  else if forallb (fun x => Qeq_bool x label) (slice l first (first + n))
       then Some (first, (first + n)%nat)
       else None.

Definition slice_locs (lo hi : Q) (l : list Q) : exn + (nat * nat) :=
  if is_monotonic_increasing l then
    inr (leading (fun x => Qltb x lo) l, leading (fun x => Qle_bool x hi) l)
  else if is_monotonic_decreasing l then
    inr (leading (fun x => Qltb lo x) l, leading (fun x => Qle_bool hi x) l)
  else
    match get_loc lo l, get_loc hi l with
    | Some (a, _), Some (_, b) => inr (a, b)
    | _, _ => inl (KeyError "cannot get slice bound")
    end.

Definition sel_slice (lo hi : Q) (l : list Q) : exn + list Q :=
  match slice_locs lo hi l with
  | inr (a, b) => inr (slice l a b)
  | inl e => inl e
  end.

End Index.

(** ** converter.py *)

Module converter.
Section Converter.

Variable E : env.

(* Bounding box for Trento region *)
Definition lat_min : Q := 457 # 10.
Definition lat_max : Q := 464 # 10.
Definition lon_min : Q := 105 # 10.
Definition lon_max : Q := 119 # 10.

(** [with zipfile.ZipFile(filepath, 'r') as zip_ref: zip_ref.extractall(temp_dir)]
    followed by [xr.open_zarr(zarr_dir, decode_timedelta=False)]. *)
Definition open_archive (filepath : string) : M dataset :=
  outside E (Unzip filepath) ;;
  w <- get_world ;;
  match fs w !! Pathlib.Path filepath with
  | None => raise (OSError "No such file or directory")
  | Some (ZarrZip ds) => outside E (OpenZarr filepath) ;; ret ds
  | Some _ => raise BadZipFile
  end.

(** The selection of lines 33-43: the orientation of the latitude axis
    is read off its first and last value. *)
Definition select_bbox (ds : dataset) : exn + dataset :=
  match latitude ds with
  | [] => inl IndexError
  | first :: _ =>
      let last := List.last (latitude ds) first in
      let lat_sel :=
        if Index.Qltb first last
        then Index.sel_slice lat_min lat_max (latitude ds)
        else Index.sel_slice lat_max lat_min (latitude ds) in
      match lat_sel with
      | inl e => inl e
      | inr lats =>
          match Index.sel_slice lon_min lon_max (longitude ds) with
          | inl e => inl e
          | inr lons => inr (mkDataset lats lons)
          end
      end
  end.

(** [input_path.parent / input_path.name.replace(".zarr.zip", ".nc")]. *)
Definition output_path (filepath : string) : path :=
  let input_path := Pathlib.Path filepath in
  Pathlib.joinpath (Pathlib.parent input_path)
    (Str.replace ".zarr.zip" ".nc" (Pathlib.name input_path)).

Definition extract (filepath : string) : M string :=
  (* [filename = Path(filepath).name[:-4]] is computed and never used. *)
  (* Unzip zarr archive to temp directory *)
  outside E (MkDtemp filepath) ;;
  try_finally
    (ds <- open_archive filepath ;;
     (* Handle latitude order (ascending or descending) *)
     match select_bbox ds with
     | inl e => raise e
     | inr ds_bbox =>
         (* Check if subset is empty *)
         if (length (latitude ds_bbox) =? 0)%nat || (length (longitude ds_bbox) =? 0)%nat
         then raise (ValueError ("Empty subset for " +:+ filepath))
         else
           (* Load into memory to avoid lazy writing issues *)
           outside E (Load filepath) ;;
           (* Build output path (same directory as input, .nc extension) *)
           let output := output_path filepath in
           (* Save as NetCDF *)
           outside E (ToNetcdf (Pathlib.to_str output)) ;;
           write_file output (NetCDF ds_bbox) ;;
           ret (Pathlib.to_str output)
     end)
    (* Cleanup temp directory: [shutil.rmtree(temp_dir, ignore_errors=True)] *)
    (fun w => (Ret tt, mkWorld (fs w) (s3 w) (calls w ++ [Rmtree filepath]) (out w))).

End Converter.
End converter.

(** ** main.py *)

Inductive status := OK | SKIPPED | FAILED_DOWNLOAD | FAILED_CONVERT | FAILED_UPLOAD.

Definition status_str (st : status) : string :=
  match st with
  | OK => "OK"
  | SKIPPED => "SKIPPED"
  | FAILED_DOWNLOAD => "FAILED-DOWNLOAD"
  | FAILED_CONVERT => "FAILED-CONVERT"
  | FAILED_UPLOAD => "FAILED-UPLOAD"
  end.

(** A line of the report: [f"<STATUS> {date.date()} {filename}"]. *)
Definition outcome_line (st : status) (d : date) (filename : string) : string :=
  status_str st +:+ " " +:+ Date.isoformat d +:+ " " +:+ filename.

Section Main.

Variable E : env.

Definition s3_key_exists (bucket key : string) : M bool :=
  try_except
    (head_object E bucket key ;; ret true)
    is_ClientError
    (fun _ => ret false).

Definition upload_to_s3 (local_path bucket key : string) : M unit :=
  upload_file E local_path bucket key.

(** [f"data/{yyyy}/{mm}/{dd}"]. *)
Definition folder_path (d : date) : string :=
  "data/" +:+ Str.of_int (year d) +:+ "/" +:+ Str.of_int (month d) +:+ "/" +:+ Str.of_int (day d).

(** The [try] block holds the call of [list_repo_tree] only; the list
    comprehension that reads the generator comes after it, outside every
    handler. *)
Definition list_hf_files_for_date (repo_id : string) (d : date) : M (list string) :=
  r <- try_except
         (tree <- list_repo_tree E repo_id (folder_path d) ;; ret (inr tree))
         is_Exception
         (fun e =>
            print (" ⚠️ Could not list HF directory " +:+ folder_path d +:+ ": " +:+ str_exn e) ;;
            ret (inl [])) ;;
  match r with
  | inl early => ret early
  | inr tree =>
      paths <- node_paths E tree ;;
      ret (List.filter (fun p => Str.endswith p ".zarr.zip") paths)
  end.

Section Day.

Variables (repo_id : string) (d : date) (local_root s3_bucket s3_prefix : string).
Variables (force dryrun : bool).

(** [f"{yyyy}/{mm}/{dd}"]. *)
Definition day_dir : string :=
  Str.of_int (year d) +:+ "/" +:+ Str.of_int (month d) +:+ "/" +:+ Str.of_int (day d).

Definition local_dir : string := OsPath.join local_root day_dir.

Definition local_original (filename : string) : string :=
  OsPath.join local_dir filename.

Definition converted_filename (filename : string) : string :=
  Str.replace ".zarr.zip" ".nc" filename.

(** [f"{s3_prefix}/{yyyy}/{mm:02d}/{dd:02d}/{converted_filename}"]. *)
Definition converted_s3_key (filename : string) : string :=
  s3_prefix +:+ "/" +:+ Str.of_int (year d) +:+ "/" +:+ Str.fmt_02d (month d) +:+ "/" +:+
  Str.fmt_02d (day d) +:+ "/" +:+ converted_filename filename.

(** 3. Download: the body of the first [try]. *)
Definition download (remote_path filename : string) : M string :=
  let temp_local_dir := "./" in
  if negb dryrun then
    hf_hub_download E repo_id remote_path temp_local_dir force
  else
    let downloaded_path := local_original filename in
    print ("*** dryrun: create local " +:+ downloaded_path) ;;
    open_write_empty E downloaded_path ;;
    time_sleep E 1 ;;
    ret downloaded_path.

(** 5. Upload: the body of the third [try]. *)
Definition upload (converted_path filename : string) : M unit :=
  if negb dryrun then
    upload_to_s3 converted_path s3_bucket (converted_s3_key filename)
  else
    print ("*** dryrun: skip upload " +:+ converted_path +:+ " -> " +:+ converted_s3_key filename).

(** 6. Cleanup. *)
Definition cleanup (filename : string) : M unit :=
  try_except
    (print "   Removing original..." ;;
     os_remove E (local_original filename))
    is_OSError
    (fun _ => ret tt).

(** The body of the [for] loop: the line it appends to [results]. *)
Definition process_file (remote_path : string) : M string :=
  let filename := OsPath.basename remote_path in
  os_makedirs E local_dir ;;
  print (Str.nl +:+ " → Processing file: " +:+ filename) ;;
  (* 2. Skip if this file is already converted and uploaded *)
  skip <- (if negb force then s3_key_exists s3_bucket (converted_s3_key filename)
           else ret false) ;;
  if skip : bool then
    print (" ✓ Already in S3, skipping → " +:+ converted_s3_key filename) ;;
    ret (outcome_line SKIPPED d filename)
  else
    (* 3. Download *)
    print ("   Downloading HF file: " +:+ remote_path) ;;
    dl <- attempt (download remote_path filename) ;;
    match dl with
    | inl e =>
        print ("    Download failed: " +:+ str_exn e) ;;
        ret (outcome_line FAILED_DOWNLOAD d filename)
    | inr downloaded_path =>
        (* 4. Convert *)
        print "   Converting..." ;;
        cv <- attempt (converter.extract E downloaded_path) ;;
        match cv with
        | inl e =>
            print ("    Conversion failed: " +:+ str_exn e) ;;
            ret (outcome_line FAILED_CONVERT d filename)
        | inr converted_path =>
            (* 5. Upload *)
            print ("   Uploading to S3 → " +:+ converted_s3_key filename) ;;
            up <- attempt (upload converted_path filename) ;;
            match up with
            | inl e =>
                print ("    Upload failed: " +:+ str_exn e) ;;
                ret (outcome_line FAILED_UPLOAD d filename)
            | inr _ =>
                (* 6. Cleanup *)
                cleanup filename ;;
                print (" ✓ Completed " +:+ filename) ;;
                ret (outcome_line OK d filename)
            end
        end
    end.

(** The [for] loop: [results] in listing order. *)
Fixpoint process_files (hf_files : list string) : M (list string) :=
  match hf_files with
  | [] => ret []
  | remote_path :: rest =>
      line <- process_file remote_path ;;
      results <- process_files rest ;;
      ret (line :: results)
  end.

Definition process_single_day : M (list string) :=
  (if dryrun then print "**** Running in dryrun mode ****" else ret tt) ;;
  print (Str.nl +:+ "=== " +:+ Date.isoformat d +:+ " ===") ;;
  (* 1. List files available for this date *)
  hf_files <- list_hf_files_for_date repo_id d ;;
  match hf_files with
  | [] => print " No files found for this date on HF" ;; ret []
  | _ => process_files hf_files
  end.

End Day.

(** The [while date <= end] loop, with the dates as [datetime.fromisoformat]
    parsed them from strings that name a calendar day ([YYYY-MM-DD]); a
    time of day in the string is not modelled.  [fuel] bounds the number
    of iterations. *)
Fixpoint pipeline_loop (fuel : nat) (repo_id : string) (d end_ : date)
    (local_root s3_bucket s3_prefix : string) (force dryrun : bool)
    (results : list string) : M (list string) :=
  match fuel with
  | O => fun w => (OutOfFuel, w)
  | S fuel' =>
      if Date.leb d end_ then
        print (Str.nl +:+ "Processing date: " +:+ Date.isoformat d) ;;
        day_results <- process_single_day repo_id d local_root s3_bucket s3_prefix force dryrun ;;
        let results := results ++ day_results in
        match Date.next_day d with
        | None => raise OverflowError
        | Some d' =>
            pipeline_loop fuel' repo_id d' end_ local_root s3_bucket s3_prefix force dryrun results
        end
      else ret results
  end.

Fixpoint print_all (lines : list string) : M unit :=
  match lines with
  | [] => ret tt
  | r :: rest => print r ;; print_all rest
  end.

(** [run_pipeline] has no [return] statement: its value is [None]. *)
Definition run_pipeline (fuel : nat) (repo_id : string) (start end_ : date)
    (local_root s3_bucket s3_prefix : string) (force dryrun : bool)
  : M (option (list string)) :=
  print "Starting DWD HF Exporter Pipeline" ;;
  outside E NewHfApi ;;
  outside E GetS3Client ;;
  print ("Dates: " +:+ Date.isoformat start +:+ " to " +:+ Date.isoformat end_) ;;
  results <- pipeline_loop fuel repo_id start end_ local_root s3_bucket s3_prefix force dryrun [] ;;
  print (Str.nl +:+ "=== SUMMARY ===") ;;
  print_all results ;;
  ret None.

End Main.

(** ** The S3 client factory

    [get_s3_client] reads five variables of the environment and hands
    them to [boto3.client]; [run_pipeline] above records the call as
    [GetS3Client], here are the arguments it is made with. *)

Module Os.

(** [os.getenv(key)] and [os.getenv(key, default)], on [os.environ] as a
    map from names to values. *)
Definition getenv (environ : gmap string string) (key : string) : option string :=
  environ !! key.

Definition getenv_default (environ : gmap string string) (key fallback : string) : string :=
  default fallback (environ !! key).

End Os.

(** The keyword arguments of [boto3.client]. *)
Record client_args := mkClientArgs {
  service_name : string;
  endpoint_url : option string;
  aws_access_key_id : option string;
  aws_secret_access_key : option string;
  aws_session_token : option string;
  region_name : string
}.

(** The truth value of an optional string: [None] and the empty string
    are false. *)
Definition truthy (s : option string) : bool :=
  match s with
  | Some (String _ _) => true
  | _ => false
  end.

(** [get_s3_client()], as the arguments it hands to [boto3.client]. *)
Definition get_s3_client (environ : gmap string string) : client_args :=
  let endpoint := Os.getenv environ "AWS_S3_ENDPOINT" in  (* optional for MinIO *)
  mkClientArgs
    "s3"
    (if truthy endpoint then endpoint else None)
    (Os.getenv environ "AWS_ACCESS_KEY_ID")
    (Os.getenv environ "AWS_SECRET_ACCESS_KEY")
    (Os.getenv environ "AWS_SESSION_TOKEN")
    (Os.getenv_default environ "AWS_DEFAULT_REGION" "eu-central-1").

(** The variables [get_s3_client] reads. *)
Definition client_variables : list string :=
  ["AWS_S3_ENDPOINT"; "AWS_ACCESS_KEY_ID"; "AWS_SECRET_ACCESS_KEY"; "AWS_SESSION_TOKEN";
   "AWS_DEFAULT_REGION"].

(** ** The entry point *)

(** The entry point, [if __name__ == "__main__":], with the two dates as
    [datetime.fromisoformat] reads them. *)
Definition main (E : env) (fuel : nat) : M (option (list string)) :=
  print "DWD HF Exporter main.py" ;;
  run_pipeline E fuel
    "openclimatefix/dwd-icon-eu"
    (mkDate 2025 7 1)
    (mkDate 2025 7 1)
    "./data"
    "celine-pipelines-dwd"
    "openclimatefix--dwd-icon-eu"
    false
    false.

(** * Specification vocabulary

    The predicates, specification functions and sample inputs in which
    the properties below are stated. *)

(** ** Worlds and answers *)

(** The world after one more outside call [c]. *)
Definition logged (c : call) (w : world) : world :=
  mkWorld (fs w) (s3 w) (calls w ++ [c]) (out w).

(** The world after one more printed line. *)
Definition printed (line : string) (w : world) : world :=
  mkWorld (fs w) (s3 w) (calls w) (out w ++ [line]).

(** What [s3_key_exists] answers, read off the environment and the bucket. *)
Definition exists_answer (E : env) (w : world) (bucket key : string) : res bool :=
  match fault E (HeadObject bucket key) with
  | Some e => if is_ClientError e then Ret false else Raise e
  | None => Ret (bool_decide (is_Some (s3 w !! (bucket, key))))
  end.

(** The files of a day as [list_hf_files_for_date] reports them when it
    returns: nothing when the call of [list_repo_tree] was refused, the
    archive entries of the folder otherwise. *)
Definition listed (E : env) (repo_id : string) (d : date) : list string :=
  match fault E (ListRepoTree repo_id (folder_path d)) with
  | Some _ => []
  | None => List.filter (fun p => Str.endswith p ".zarr.zip") (repo_tree E repo_id (folder_path d))
  end.

(** The warning printed when the call of [list_repo_tree] fails. *)
Definition listing_warning (d : date) (e : exn) : string :=
  " ⚠️ Could not list HF directory " +:+ folder_path d +:+ ": " +:+ str_exn e.

(** The line that announces a file. *)
Definition processing_line (remote_path : string) : string :=
  Str.nl +:+ " → Processing file: " +:+ OsPath.basename remote_path.

(** ** Judgements on computations *)

(** [emits P m]: whatever the world, running [m] only appends to the log
    of outside calls, and every call it appends satisfies [P]. *)
Definition emits {A} (P : call -> Prop) (m : M A) : Prop :=
  forall w, exists new, calls (m w).2 = calls w ++ new /\ Forall P new.

(** [returns R m]: whatever the world, a value [m] returns satisfies [R]. *)
Definition returns {A} (R : A -> Prop) (m : M A) : Prop :=
  forall w a, (m w).1 = Ret a -> R a.

(** [keeps q m]: every local file other than [q] that exists before [m]
    still exists after it (possibly rewritten). *)
Definition keeps {A} (q : path) (m : M A) : Prop :=
  forall w p, p <> q -> is_Some (fs w !! p) -> is_Some (fs (m w).2 !! p).

(** Two worlds that differ at most in what the bucket holds. *)
Definition same_but_s3 (w1 w2 : world) : Prop :=
  fs w1 = fs w2 /\ calls w1 = calls w2 /\ out w1 = out w2.

(** [s3_blind m]: [m] never reads the bucket.  From two worlds that differ
    only in the bucket it gives the same result, the same local files, the
    same outside calls and the same printed lines. *)
Definition s3_blind {A} (m : M A) : Prop :=
  forall w1 w2, same_but_s3 w1 w2 ->
    (m w1).1 = (m w2).1 /\ same_but_s3 (m w1).2 (m w2).2.

(** [safe m]: [m] returns, or raises an [Exception]. *)
Definition safe {A} (m : M A) : Prop :=
  forall w, match (m w).1 with
            | Ret _ => True
            | Raise e => is_Exception e = true
            | OutOfFuel => False
            end.

(** [total R m]: [m] always returns, and what it returns satisfies [R]. *)
Definition total {A} (R : A -> Prop) (m : M A) : Prop :=
  forall w, exists a, (m w).1 = Ret a /\ R a.

(** The exceptions that the handlers of the source do catch: none for the
    calls made outside every [try] block (the two constructors,
    [os.makedirs], and the reading of a listing), a [ClientError] for
    [head_object], an [OSError] for [os.remove], any [Exception]
    elsewhere. *)
Definition handled (c : call) (e : exn) : Prop :=
  match c with
  | MakeDirs _ | NewHfApi | GetS3Client | ReadRepoTree _ _ => False
  | HeadObject _ _ => is_ClientError e = true
  | Remove _ => is_OSError e = true
  | _ => is_Exception e = true
  end.

(** An environment in which no exception escapes a handler: in
    particular every folder that is listed can be read. *)
Definition well_behaved (E : env) : Prop :=
  forall c e, fault E c = Some e -> handled c e.

(** [raises Q m]: [m] returns, or raises an exception that satisfies
    [Q]. *)
Definition raises {A} (Q : exn -> Prop) (m : M A) : Prop :=
  forall w, match (m w).1 with
            | Ret _ => True
            | Raise e => Q e
            | OutOfFuel => False
            end.

(** A fault of the environment that the handler around its call does
    not catch. *)
Definition unhandled (E : env) (e : exn) : Prop :=
  exists c, fault E c = Some e /\ ~ handled c e.

(** An exception that an [except Exception] clause catches, or a fault
    of a call that sits inside such a clause. *)
Definition guarded (E : env) (e : exn) : Prop :=
  is_Exception e = true
  \/ exists c, fault E c = Some e
               /\ match c with
                  | MakeDirs _ | NewHfApi | GetS3Client | ReadRepoTree _ _
                  | HeadObject _ _ | Remove _ => False
                  | _ => True
                  end.

(** ** Relations between the world before and after a computation *)

(** [preserves R m]: whatever the world [w], running [m] leads to a
    world related to [w] by [R]. *)
Definition preserves {A} (R : relation world) (m : M A) : Prop :=
  forall w, R w (m w).2.

(** The bucket is as it was. *)
Definition bucket_same : relation world := fun w w' => s3 w' = s3 w.

(** The bucket has changed at most at keys in [K], and there it holds an
    object: nothing was deleted, nothing outside [K] was written. *)
Definition bucket_grows_within (K : string * string -> Prop) : relation world :=
  fun w w' => forall bk, s3 w' !! bk = s3 w !! bk \/ (K bk /\ is_Some (s3 w' !! bk)).

(** The keys of a run: in the bucket [s3_bucket], under [s3_prefix/]. *)
Definition run_keys (s3_bucket s3_prefix : string) (bk : string * string) : Prop :=
  bk.1 = s3_bucket /\ String.prefix (s3_prefix +:+ "/") bk.2 = true.

(** Nothing is lost: the bucket is as it was, every local file is still
    there, and [os.remove] was not called. *)
Definition harmless : relation world :=
  fun w w' =>
    s3 w' = s3 w
    /\ (forall p, is_Some (fs w !! p) -> is_Some (fs w' !! p))
    /\ exists new, calls w' = calls w ++ new
                   /\ Forall (fun c => match c with Remove _ => False | _ => True end) new.

(** ** Outside calls of the file loop *)

(** The calls [converter.extract] can make for a file. *)
Definition extract_calls (filepath : string) (c : call) : Prop :=
  match c with
  | MkDtemp p | Unzip p | OpenZarr p | Load p | Rmtree p => p = filepath
  | ToNetcdf p => p = Pathlib.to_str (converter.output_path filepath)
  | _ => False
  end.

(** The path [download] hands to the converter. *)
Definition downloaded_path (d : date) (local_root : string) (dryrun : bool)
    (remote_path : string) : string :=
  if dryrun then local_original d local_root (OsPath.basename remote_path)
  else OsPath.join "./" remote_path.

(** The calls one iteration of the file loop can make. *)
Definition file_calls (repo_id : string) (d : date) (local_root s3_bucket s3_prefix : string)
    (force dryrun : bool) (remote_path : string) (c : call) : Prop :=
  let filename := OsPath.basename remote_path in
  let fetched := downloaded_path d local_root dryrun remote_path in
  match c with
  | MakeDirs dir => dir = local_dir d local_root
  | HeadObject b k => force = false /\ b = s3_bucket /\ k = converted_s3_key d s3_prefix filename
  | HfHubDownload r f dir fd =>
      dryrun = false /\ r = repo_id /\ f = remote_path /\ dir = "./" /\ fd = force
  | OpenWrite p => dryrun = true /\ p = local_original d local_root filename
  | Sleep s => dryrun = true /\ s = 1
  | MkDtemp p | Unzip p | OpenZarr p | Load p | Rmtree p => p = fetched
  | ToNetcdf p => p = Pathlib.to_str (converter.output_path fetched)
  | UploadFile p b k =>
      dryrun = false /\ p = Pathlib.to_str (converter.output_path fetched)
      /\ b = s3_bucket /\ k = converted_s3_key d s3_prefix filename
  | Remove p => p = local_original d local_root filename
  | NewHfApi | GetS3Client | ListRepoTree _ _ | ReadRepoTree _ _ => False
  end.

(** Every call that names a bucket and a key names these. *)
Definition uses_key (s3_bucket key : string) (c : call) : Prop :=
  match c with
  | HeadObject b k | UploadFile _ b k => b = s3_bucket /\ k = key
  | _ => True
  end.

(** Any call but [head_object]. *)
Definition not_head_object (c : call) : Prop :=
  match c with HeadObject _ _ => False | _ => True end.

(** The calls the converter makes before it writes anything. *)
Definition before_write (c : call) : Prop :=
  match c with
  | MkDtemp _ | Unzip _ | OpenZarr _ | Rmtree _ => True
  | _ => False
  end.

(** Any call but an [os.remove] of another file than [target]. *)
Definition removes_only (target : string) (c : call) : Prop :=
  match c with Remove p => p = target | _ => True end.

(** The calls [converter.extract] makes inside its [try] block. *)
Definition conversion_step (c : call) : Prop :=
  match c with
  | Unzip _ | OpenZarr _ | Load _ | ToNetcdf _ => True
  | _ => False
  end.

(** The folders that were listed, in the order of the calls:
    (repository, folder) for every [list_repo_tree]. *)
Definition listed_folders (cs : list call) : list (string * string) :=
  omap (fun c => match c with ListRepoTree r p => Some (r, p) | _ => None end) cs.

(** Any call but [list_repo_tree]. *)
Definition not_listing (c : call) : Prop :=
  match c with ListRepoTree _ _ => False | _ => True end.

(** The calls a run may make, given its configuration: the catalog of
    [repo_id] only, the bucket [s3_bucket] under [s3_prefix/] only, no
    existence check under [force], no transfer in a dry run, and files
    created by [open] only in a dry run. *)
Definition run_calls (repo_id s3_bucket s3_prefix : string) (force dryrun : bool)
    (c : call) : Prop :=
  match c with
  | ListRepoTree r p | ReadRepoTree r p => r = repo_id /\ exists d, p = folder_path d
  | HeadObject b k => force = false /\ run_keys s3_bucket s3_prefix (b, k)
  | UploadFile _ b k => dryrun = false /\ run_keys s3_bucket s3_prefix (b, k)
  | HfHubDownload r _ dir fd => dryrun = false /\ r = repo_id /\ dir = "./" /\ fd = force
  | OpenWrite _ | Sleep _ => dryrun = true
  | _ => True
  end.

(** ** The stages of the file loop *)

(** What follows the idempotency gate: steps 3 to 6 of the loop body. *)
Definition run_stages (E : env) (repo_id : string) (d : date)
    (local_root s3_bucket s3_prefix : string) (force dryrun : bool)
    (remote_path : string) : M string :=
  let filename := OsPath.basename remote_path in
  (print ("   Downloading HF file: " +:+ remote_path) ;;
   dl <- attempt (download E repo_id d local_root force dryrun remote_path filename) ;;
   match dl with
   | inl e =>
       print ("    Download failed: " +:+ str_exn e) ;;
       ret (outcome_line FAILED_DOWNLOAD d filename)
   | inr downloaded_path =>
       print "   Converting..." ;;
       cv <- attempt (converter.extract E downloaded_path) ;;
       match cv with
       | inl e =>
           print ("    Conversion failed: " +:+ str_exn e) ;;
           ret (outcome_line FAILED_CONVERT d filename)
       | inr converted_path =>
           print ("   Uploading to S3 → " +:+ converted_s3_key d s3_prefix filename) ;;
           up <- attempt (upload E d s3_bucket s3_prefix dryrun converted_path filename) ;;
           match up with
           | inl e =>
               print ("    Upload failed: " +:+ str_exn e) ;;
               ret (outcome_line FAILED_UPLOAD d filename)
           | inr _ =>
               cleanup E d local_root filename ;;
               print (" ✓ Completed " +:+ filename) ;;
               ret (outcome_line OK d filename)
           end
       end
   end)%py.

(** Steps 5 and 6: what follows a successful conversion. *)
Definition finish_stages (E : env) (d : date) (local_root s3_bucket s3_prefix : string)
    (dryrun : bool) (filename converted_path : string) : M string :=
  (print ("   Uploading to S3 → " +:+ converted_s3_key d s3_prefix filename) ;;
   up <- attempt (upload E d s3_bucket s3_prefix dryrun converted_path filename) ;;
   match up with
   | inl e =>
       print ("    Upload failed: " +:+ str_exn e) ;;
       ret (outcome_line FAILED_UPLOAD d filename)
   | inr _ =>
       cleanup E d local_root filename ;;
       print (" ✓ Completed " +:+ filename) ;;
       ret (outcome_line OK d filename)
   end)%py.

(** The world in which the stages start: the directory made, the file
    announced, and without [force] the existence check logged. *)
Definition gate_world (d : date) (local_root s3_bucket s3_prefix : string) (force : bool)
    (remote_path : string) (w : world) : world :=
  let w1 := printed (processing_line remote_path) (logged (MakeDirs (local_dir d local_root)) w) in
  if force then w1
  else logged (HeadObject s3_bucket (converted_s3_key d s3_prefix (OsPath.basename remote_path))) w1.

(** The gate is open: [force], or the existence check answered [False]. *)
Definition gate_open (E : env) (d : date) (s3_bucket s3_prefix : string) (force : bool)
    (remote_path : string) (w : world) : Prop :=
  force = true \/
  exists_answer E w s3_bucket (converted_s3_key d s3_prefix (OsPath.basename remote_path))
  = Ret false.

(** ** Names and paths *)

(** The file name with its final [suf] removed, if it ends in [suf]. *)
Fixpoint strip_suffix (suf s : string) : option string :=
  if String.eqb s suf then Some EmptyString
  else match s with
       | EmptyString => None
       | String c s' => String c <$> strip_suffix suf s'
       end.

(** In the words of the specification: the file name with the archive
    suffix [.zarr.zip] replaced by the converted suffix [.nc]. *)
Definition spec_converted_name (filename : string) : string :=
  match strip_suffix ".zarr.zip" filename with
  | Some stem => stem +:+ ".nc"
  | None => filename
  end.

(** In the words of the specification:
    [<prefix>/<year>/<zero-padded-month>/<zero-padded-day>/<filename-with-converted-suffix>]. *)
Definition spec_destination_key (d : date) (s3_prefix filename : string) : string :=
  s3_prefix +:+ "/" +:+ Str.of_int (year d) +:+ "/" +:+ Str.fmt_02d (month d) +:+ "/" +:+
  Str.fmt_02d (day d) +:+ "/" +:+ spec_converted_name filename.

(** ["/" in s]. *)
Fixpoint has_slash (s : string) : bool :=
  match s with
  | EmptyString => false
  | String c s' => Ascii.eqb c "/"%char || has_slash s'
  end.

(** A component of a parsed path: no slash, not empty, not ["."]. *)
Definition good_part (c : string) : Prop :=
  has_slash c = false /\ Pathlib.proper_part c = true.

(** [c in s]. *)
Fixpoint has_char (c : ascii) (s : string) : bool :=
  match s with
  | EmptyString => false
  | String a s' => Ascii.eqb a c || has_char c s'
  end.

(** A decimal digit. *)
Definition is_digit (c : ascii) : bool := has_char c "0123456789".

(** The number that a string of decimal digits denotes, leading zeros
    allowed; [None] if it holds anything but digits. *)
Definition digits_value (s : string) : option Z :=
  (fun u => Z.of_N (N.of_uint u)) <$> NilEmpty.uint_of_string s.

(** ** Coordinate axes *)




(** A selection with zero extent in latitude or in longitude. *)
Definition empty_window (bbox : dataset) : Prop :=
  latitude bbox = [] \/ longitude bbox = [].

(** ** Reports and ranges *)

(** A report line about a file of a day, whatever its status. *)
Definition line_of_file (d : date) (remote_path line : string) : Prop :=
  exists st, line = outcome_line st d (OsPath.basename remote_path).

(** The days from [d] to [end_], at most [n] of them. *)
Fixpoint days_from (n : nat) (d end_ : date) : list date :=
  match n with
  | O => []
  | S n' =>
      if Date.leb d end_
      then d :: match Date.next_day d with
                | Some d' => days_from n' d' end_
                | None => []
                end
      else []
  end.

(** The days of the closed range from [start] to [end_], in calendar
    order. *)
Definition date_range (start end_ : date) : list date :=
  days_from (Z.to_nat (Date.rank end_ - Date.rank start + 1)) start end_.

(** [a < b] on days. *)
Definition date_lt (a b : date) : Prop := Date.ltb a b = true.

(** The files of a range, day after day and in listing order within a day. *)
Definition items (E : env) (repo_id : string) (days : list date) : list (date * string) :=
  flat_map (fun d => List.map (pair d) (listed E repo_id d)) days.

(** A report line about an item of the range. *)
Definition line_for (item : date * string) (line : string) : Prop :=
  line_of_file item.1 item.2 line.

(** ** Sample inputs *)

(** One day of a small repository, and the ways it can go wrong. *)
Module Sample.

Definition grid : dataset :=
  mkDataset [450 # 10; 455 # 10; 460 # 10; 465 # 10; 470 # 10]%Q [10 # 1; 11 # 1; 12 # 1]%Q.

Definition tree (repo_id folder : string) : list string :=
  if String.eqb folder "data/2025/7/1"
  then ["data/2025/7/1/a.zarr.zip"; "data/2025/7/1/README.md"]
  else [].

(** Nothing fails; one archive and one other entry on 2025-07-01. *)
Definition calm : env := mkEnv (fun _ => None) tree (fun _ _ => ZarrZip grid).

(** Every [head_object] is refused with the error response 403. *)
Definition access_denied : env :=
  mkEnv (fun c => match c with HeadObject _ _ => Some (ClientError "403") | _ => None end)
        tree (fun _ _ => ZarrZip grid).

(** No route to the S3 endpoint. *)
Definition unreachable : env :=
  mkEnv (fun c => match c with HeadObject _ _ => Some EndpointConnectionError | _ => None end)
        tree (fun _ _ => ZarrZip grid).

(** The call of [list_repo_tree] itself is refused. *)
Definition refused : env :=
  mkEnv (fun c => match c with ListRepoTree _ _ => Some (ValueError "Repo id must be in the form 'repo_name' or 'namespace/repo_name'") | _ => None end)
        tree (fun _ _ => ZarrZip grid).

Definition empty_world : world := mkWorld ∅ ∅ [] [].

Definition july1 : date := mkDate 2025 7 1.

End Sample.

(** Inputs at which the hypotheses of the theorems hold. *)
Module Witness.

(** An archive that lies entirely south of the window. *)
Definition far_south : dataset := mkDataset [10 # 1; 20 # 1]%Q [10 # 1; 11 # 1; 12 # 1]%Q.

Definition south_env : env := mkEnv (fun _ => None) Sample.tree (fun _ _ => ZarrZip far_south).

(** A bucket that already holds the converted file of the sample day. *)
Definition stored : world :=
  mkWorld ∅ (<[("bucket", "prefix/2025/07/01/a.nc") := Raw EmptyString]> ∅) [] [].

End Witness.

(** Repositories with more than one file, or more than one day. *)
Module Scenario.

Definition two_files (repo_id folder : string) : list string :=
  if String.eqb folder "data/2025/7/1"
  then ["data/2025/7/1/a.zarr.zip"; "data/2025/7/1/b.zarr.zip"]
  else [].

(** Two archives on 2025-07-01; the S3 endpoint cannot be reached. *)
Definition unreachable : env :=
  mkEnv (fun c => match c with HeadObject _ _ => Some EndpointConnectionError | _ => None end)
        two_files (fun _ _ => ZarrZip Sample.grid).

(** Two archives on 2025-07-01; the first cannot be downloaded. *)
Definition first_download_fails : env :=
  mkEnv (fun c => match c with
                  | HfHubDownload _ f _ _ =>
                      if String.eqb f "data/2025/7/1/a.zarr.zip"
                      then Some (HfHubHTTPError "502 Bad Gateway") else None
                  | _ => None
                  end)
        two_files (fun _ _ => ZarrZip Sample.grid).

Definition july2 : date := mkDate 2025 7 2.

Definition july3 : date := mkDate 2025 7 3.

Definition gap (repo_id folder : string) : list string :=
  if String.eqb folder "data/2025/7/1" then ["data/2025/7/1/a.zarr.zip"]
  else if String.eqb folder "data/2025/7/3" then ["data/2025/7/3/c.zarr.zip"]
  else [].

(** Archives on 2025-07-01 and 2025-07-03, and no folder for the day
    between: the Hub answers 404 when that folder is read. *)
Definition missing_day : env :=
  mkEnv (fun c => match c with
                  | ReadRepoTree _ p =>
                      if String.eqb p "data/2025/7/2"
                      then Some (HfHubHTTPError "404 Client Error") else None
                  | _ => None
                  end)
        gap (fun _ _ => ZarrZip Sample.grid).

End Scenario.

(** Archives that are already on disk, for the converter on its own. *)
Module Staged.

Definition on_disk (file : string) (ds : dataset) : world :=
  mkWorld (<[Pathlib.Path file := ZarrZip ds]> ∅) ∅ [] [].

(** One row of latitude, inside the box. *)
Definition one_row : dataset := mkDataset [460 # 10]%Q [10 # 1; 11 # 1; 12 # 1]%Q.

(** Longitudes from east to west. *)
Definition east_to_west : dataset :=
  mkDataset [450 # 10; 460 # 10; 470 # 10]%Q [12 # 1; 11 # 1; 10 # 1]%Q.

(** No latitude at all. *)
Definition no_rows : dataset := mkDataset [] [10 # 1; 11 # 1; 12 # 1]%Q.

(** A staging directory [/tmp/stage] that holds an empty file under the
    name of the archive of the sample day. *)
Definition left_over : world :=
  mkWorld (<[Pathlib.Path "/tmp/stage/2025/7/1/a.zarr.zip" := Raw EmptyString]> ∅) ∅ [] [].

End Staged.

(** * Verification *)

(** ** The string and path functions on examples *)

Example replace_ex : Str.replace ".zarr.zip" ".nc" "a.zarr.zip" = "a.nc".
Proof. reflexivity. Qed.
Example replace_ex2 : Str.replace ".zarr.zip" ".nc" "a.zarr.zip.zarr.zip" = "a.nc.nc".
Proof. reflexivity. Qed.
Example basename_ex : OsPath.basename "data/2025/7/1/a.zarr.zip" = "a.zarr.zip".
Proof. reflexivity. Qed.
Example join_ex : OsPath.join "./data" "2025/7/1" = "./data/2025/7/1".
Proof. reflexivity. Qed.
Example path_ex : Pathlib.Path "./data/2025/7/1/a.zarr.zip" = (false, ["data";"2025";"7";"1";"a.zarr.zip"]).
Proof. reflexivity. Qed.
Example iso_ex : Date.isoformat (mkDate 2025 7 1) = "2025-07-01".
Proof. reflexivity. Qed.
Example find_ex : Str.find ".zarr.zip" "a.zarr.zip" = Some 1%nat.
Proof. reflexivity. Qed.

(** ** The existence check *)

Lemma s3_key_exists_run (E : env) (bucket key : string) (w : world) :
  s3_key_exists E bucket key w =
  (exists_answer E w bucket key, logged (HeadObject bucket key) w).
Proof.
  unfold s3_key_exists, exists_answer, try_except, head_object, bind, outside,
    get_world, ret, raise, logged.
  destruct (fault E (HeadObject bucket key)) as [e|]; simpl.
  - destruct (is_ClientError e); reflexivity.
  - destruct (s3 w !! (bucket, key)) as [c|]; reflexivity.
Qed.

(** C1, as amended. [s3_key_exists] answers [True] when [head_object]
    succeeds, that is when the key is in the bucket; it answers [False]
    whenever [head_object] raises a [ClientError], whatever its error code
    (404 for a missing key, but also 403 or 500), and never raises then; an
    exception of any other class is passed on to the caller.  The only
    effect is the one [head_object] call. *)
Theorem s3_key_exists_spec (E : env) (bucket key : string) (w : world) :
  (s3_key_exists E bucket key w).1 =
    match fault E (HeadObject bucket key) with
    | Some (ClientError _) => Ret false
    | Some e => Raise e
    | None => Ret (bool_decide (is_Some (s3 w !! (bucket, key))))
    end
  /\ (s3_key_exists E bucket key w).2 = logged (HeadObject bucket key) w.
Proof.
  rewrite s3_key_exists_run; unfold exists_answer; simpl; split; [|reflexivity].
  destruct (fault E (HeadObject bucket key)) as [[]|]; reflexivity.
Qed.

(** C1, counterexample. With access denied (error response 403, which is
    not "not found") the check answers [False] instead of raising. *)
Lemma s3_key_exists_swallows_403 :
  (head_object Sample.access_denied "bucket" "k" Sample.empty_world).1 = Raise (ClientError "403")
  /\ (s3_key_exists Sample.access_denied "bucket" "k" Sample.empty_world).1 = Ret false.
Proof. split; reflexivity. Qed.

(** ** The catalog lister *)

Lemma list_hf_files_for_date_run (E : env) (repo_id : string) (d : date) (w : world) :
  list_hf_files_for_date E repo_id d w =
  match fault E (ListRepoTree repo_id (folder_path d)) with
  | Some e =>
      if is_Exception e
      then (Ret [], printed (listing_warning d e) (logged (ListRepoTree repo_id (folder_path d)) w))
      else (Raise e, logged (ListRepoTree repo_id (folder_path d)) w)
  | None =>
      match fault E (ReadRepoTree repo_id (folder_path d)) with
      | Some e =>
          (Raise e, logged (ReadRepoTree repo_id (folder_path d))
                      (logged (ListRepoTree repo_id (folder_path d)) w))
      | None =>
          (Ret (listed E repo_id d),
           logged (ReadRepoTree repo_id (folder_path d))
             (logged (ListRepoTree repo_id (folder_path d)) w))
      end
  end.
Proof.
  unfold list_hf_files_for_date, listed, try_except, list_repo_tree, node_paths, bind, outside,
    ret, print.
  destruct (fault E (ListRepoTree repo_id (folder_path d))) as [e|]; simpl.
  - destruct (is_Exception e); reflexivity.
  - destruct (fault E (ReadRepoTree repo_id (folder_path d))); reflexivity.
Qed.

(** A call of [list_repo_tree] that is refused is what the handler
    catches: a warning, and no file for the day. *)
Example refused_listing_is_caught :
  list_hf_files_for_date Sample.refused "repo" Sample.july1 Sample.empty_world =
  (Ret [],
   printed (listing_warning Sample.july1
              (ValueError "Repo id must be in the form 'repo_name' or 'namespace/repo_name'"))
     (logged (ListRepoTree "repo" "data/2025/7/1") Sample.empty_world)).
Proof. reflexivity. Qed.

(** A day for which nothing is listed gives no outcome, and is no error:
    files and bucket are as they were. *)
Lemma process_single_day_no_files (E : env) (repo_id : string) (d : date)
    (local_root s3_bucket s3_prefix : string) (force dryrun : bool) (w : world) :
  (forall e, fault E (ListRepoTree repo_id (folder_path d)) = Some e -> is_Exception e = true) ->
  fault E (ReadRepoTree repo_id (folder_path d)) = None ->
  listed E repo_id d = [] ->
  exists w',
    process_single_day E repo_id d local_root s3_bucket s3_prefix force dryrun w = (Ret [], w')
    /\ fs w' = fs w /\ s3 w' = s3 w.
Proof.
  intros Hexc Hread Hnone.
  unfold process_single_day, bind.
  destruct dryrun; simpl; rewrite list_hf_files_for_date_run, Hread;
    destruct (fault E (ListRepoTree repo_id (folder_path d))) as [e|] eqn:Hf;
    try (rewrite (Hexc e eq_refl)); try rewrite Hnone; simpl; eauto 10.
Qed.

(** ** A small program logic for the log of outside calls

    [emits P m]: whatever the world, running [m] only appends to the log,
    and every call it appends satisfies [P]. *)

Section Emits.

Context {A B : Type} (P : call -> Prop).

Lemma emits_ret (a : A) : emits P (ret a).
Proof. intros w; exists []; simpl; rewrite app_nil_r; auto. Qed.

Lemma emits_raise (e : exn) : emits P (@raise A e).
Proof. intros w; exists []; simpl; rewrite app_nil_r; auto. Qed.

Lemma emits_get_world : emits P get_world.
Proof. intros w; exists []; simpl; rewrite app_nil_r; auto. Qed.

Lemma emits_print (line : string) : emits P (print line).
Proof. intros w; exists []; simpl; rewrite app_nil_r; auto. Qed.

Lemma emits_write_file (p : path) (c : content) : emits P (write_file p c).
Proof. intros w; exists []; simpl; rewrite app_nil_r; auto. Qed.

Lemma emits_delete_file (p : path) : emits P (delete_file p).
Proof. intros w; exists []; simpl; rewrite app_nil_r; auto. Qed.

Lemma emits_put_object (bucket key : string) (c : content) :
  emits P (put_object bucket key c).
Proof. intros w; exists []; simpl; rewrite app_nil_r; auto. Qed.

Lemma emits_outside (E : env) (c : call) : P c -> emits P (outside E c).
Proof.
  intros Hc w; exists [c]; unfold outside.
  destruct (fault E c); simpl; auto.
Qed.

Lemma emits_rmtree (filepath : string) :
  P (Rmtree filepath) ->
  emits P (fun w => (Ret tt, mkWorld (fs w) (s3 w) (calls w ++ [Rmtree filepath]) (out w))).
Proof. intros Hc w; exists [Rmtree filepath]; simpl; auto. Qed.

Lemma emits_bind (m : M A) (k : A -> M B) :
  emits P m -> (forall a, emits P (k a)) -> emits P (bind m k).
Proof.
  intros Hm Hk w. unfold bind.
  destruct (Hm w) as (n1 & E1 & F1).
  destruct (m w) as [[a|e|] w1]; simpl in *; eauto.
  destruct (Hk a w1) as (n2 & E2 & F2).
  exists (n1 ++ n2). rewrite E2, E1, app_assoc. split; [reflexivity|].
  apply Forall_app; auto.
Qed.

Lemma emits_try_except (m : M A) (catches : exn -> bool) (h : exn -> M A) :
  emits P m -> (forall e, emits P (h e)) -> emits P (try_except m catches h).
Proof.
  intros Hm Hh w. unfold try_except.
  destruct (Hm w) as (n1 & E1 & F1).
  destruct (m w) as [[a|e|] w1]; simpl in *; eauto.
  destruct (catches e); simpl; eauto.
  destruct (Hh e w1) as (n2 & E2 & F2).
  exists (n1 ++ n2). rewrite E2, E1, app_assoc. split; [reflexivity|].
  apply Forall_app; auto.
Qed.

Lemma emits_try_finally (m : M A) (fin : M unit) :
  emits P m -> emits P fin -> emits P (try_finally m fin).
Proof.
  intros Hm Hf w. unfold try_finally.
  destruct (Hm w) as (n1 & E1 & F1).
  destruct (m w) as [r w1]; simpl in *.
  destruct (Hf w1) as (n2 & E2 & F2).
  exists (n1 ++ n2).
  destruct (fin w1) as [[u|e|] w2]; simpl in *;
    (rewrite E2, E1, app_assoc; split; [reflexivity | apply Forall_app; auto]).
Qed.

End Emits.

Lemma emits_attempt {A} (P : call -> Prop) (m : M A) : emits P m -> emits P (attempt m).
Proof.
  intros Hm. unfold attempt. apply emits_try_except.
  - apply emits_bind; [exact Hm | intros a; apply emits_ret].
  - intros e; apply emits_ret.
Qed.

Lemma emits_weaken {A} (P Q : call -> Prop) (m : M A) :
  (forall c, P c -> Q c) -> emits P m -> emits Q m.
Proof.
  intros HPQ Hm w. destruct (Hm w) as (new & E1 & F1).
  exists new; split; [exact E1|]. eapply Forall_impl; eauto.
Qed.

(** Breaks a computation into its statements; what is left are the side
    conditions [P c] of its outside calls. *)
Ltac emits_step :=
  lazymatch goal with
  | |- emits _ (bind _ _) => apply emits_bind; [| intros ?]
  | |- emits _ (ret _) => apply emits_ret
  | |- emits _ (raise _) => apply emits_raise
  | |- emits _ get_world => apply emits_get_world
  | |- emits _ (print _) => apply emits_print
  | |- emits _ (write_file _ _) => apply emits_write_file
  | |- emits _ (delete_file _) => apply emits_delete_file
  | |- emits _ (put_object _ _ _) => apply emits_put_object
  | |- emits _ (outside _ _) => apply emits_outside
  | |- emits _ (try_except _ _ _) => apply emits_try_except; [| intros ?]
  | |- emits _ (try_finally _ _) => apply emits_try_finally; [| apply emits_rmtree]
  | |- emits _ (attempt _) => apply emits_attempt
  | |- emits _ (match ?x with _ => _ end) => destruct x
  | |- emits _ (let _ := _ in _) => cbv zeta
  end.

Ltac emits_auto := repeat emits_step.

(** [returns R m]: whatever the world, a value [m] returns satisfies [R]. *)

Section Returns.

Context {A B : Type}.

Lemma returns_ret (R : A -> Prop) (a : A) : R a -> returns R (ret a).
Proof. intros Ha w a' [= <-]; exact Ha. Qed.

Lemma returns_raise (R : A -> Prop) (e : exn) : returns R (raise e).
Proof. intros w a [=]. Qed.

Lemma returns_bind (R : B -> Prop) (m : M A) (k : A -> M B) :
  (forall a, returns R (k a)) -> returns R (bind m k).
Proof.
  intros Hk w b. unfold bind.
  destruct (m w) as [[a|e|] w1]; simpl; try discriminate. apply Hk.
Qed.

Lemma returns_try_except (R : A -> Prop) (m : M A) (catches : exn -> bool) (h : exn -> M A) :
  returns R m -> (forall e, returns R (h e)) -> returns R (try_except m catches h).
Proof.
  intros Hm Hh w a. unfold try_except. specialize (Hm w).
  destruct (m w) as [[a'|e|] w1]; simpl in *; try discriminate; auto.
  destruct (catches e); simpl; try discriminate. apply Hh.
Qed.

Lemma returns_try_finally (R : A -> Prop) (m : M A) (fin : M unit) :
  returns R m -> returns R (try_finally m fin).
Proof.
  intros Hm w a. unfold try_finally. specialize (Hm w).
  destruct (m w) as [r w1]; simpl in *.
  destruct (fin w1) as [[u|e|] w2]; simpl; try discriminate. auto.
Qed.

Lemma returns_attempt (R : A -> Prop) (m : M A) :
  returns R m ->
  returns (fun r => match r with inr a => R a | inl _ => True end) (attempt m).
Proof.
  intros Hm w r. unfold attempt, try_except, bind, ret. specialize (Hm w).
  destruct (m w) as [[a|e|] w1]; simpl in *.
  - intros [= <-]. auto.
  - destruct (is_Exception e); simpl; [intros [= <-]; exact I | discriminate].
  - discriminate.
Qed.

(** Sequencing, when what follows depends on the value. *)
Lemma emits_bind_val (P : call -> Prop) (R : A -> Prop) (m : M A) (k : A -> M B) :
  emits P m -> returns R m -> (forall a, R a -> emits P (k a)) -> emits P (bind m k).
Proof.
  intros Hm Hr Hk w. unfold bind.
  destruct (Hm w) as (n1 & E1 & F1). specialize (Hr w).
  destruct (m w) as [[a|e|] w1]; simpl in *; eauto.
  destruct (Hk a (Hr a eq_refl) w1) as (n2 & E2 & F2).
  exists (n1 ++ n2). rewrite E2, E1, app_assoc. split; [reflexivity|].
  apply Forall_app; auto.
Qed.

End Returns.

Lemma returns_bind_val {A B} (R1 : A -> Prop) (R : B -> Prop) (m : M A) (k : A -> M B) :
  returns R1 m -> (forall a, R1 a -> returns R (k a)) -> returns R (bind m k).
Proof.
  intros Hm Hk w b. unfold bind. specialize (Hm w).
  destruct (m w) as [[a|e|] w1]; simpl in *; try discriminate. apply Hk. auto.
Qed.

Lemma returns_weaken {A} (R1 R2 : A -> Prop) (m : M A) :
  (forall a, R1 a -> R2 a) -> returns R1 m -> returns R2 m.
Proof. intros H Hm w a Ha. apply H, (Hm w a Ha). Qed.

Ltac returns_step :=
  lazymatch goal with
  | |- returns _ (bind _ _) => apply returns_bind; intros ?
  | |- returns _ (ret _) => apply returns_ret
  | |- returns _ (raise _) => apply returns_raise
  | |- returns _ (try_except _ _ _) => apply returns_try_except; [| intros ?]
  | |- returns _ (try_finally _ _) => apply returns_try_finally
  | |- returns _ (match ?x with _ => _ end) => destruct x
  | |- returns _ (let _ := _ in _) => cbv zeta
  end.

(** *** What each function of the source sends outside, and returns *)

Lemma extract_returns (E : env) (filepath : string) :
  returns (fun p => p = Pathlib.to_str (converter.output_path filepath))
          (converter.extract E filepath).
Proof. unfold converter.extract. repeat returns_step. reflexivity. Qed.

Lemma extract_emits (E : env) (filepath : string) :
  emits (extract_calls filepath) (converter.extract E filepath).
Proof.
  unfold converter.extract, converter.open_archive. emits_auto; reflexivity.
Qed.

Section FileCalls.

Variables (E : env) (repo_id : string) (d : date).
Variables (local_root s3_bucket s3_prefix : string) (force dryrun : bool).
Variable remote_path : string.

Let P := file_calls repo_id d local_root s3_bucket s3_prefix force dryrun remote_path.
Let filename := OsPath.basename remote_path.

Lemma download_returns :
  returns (fun p => p = downloaded_path d local_root dryrun remote_path)
          (download E repo_id d local_root force dryrun remote_path filename).
Proof.
  unfold download, downloaded_path, hf_hub_download, open_write_empty, time_sleep.
  destruct dryrun; simpl; repeat returns_step; reflexivity.
Qed.

Lemma download_emits :
  emits P (download E repo_id d local_root force dryrun remote_path filename).
Proof.
  unfold download, hf_hub_download, open_write_empty, time_sleep.
  destruct dryrun eqn:Hd; simpl; emits_auto; subst P; unfold file_calls; rewrite ?Hd; auto.
Qed.

Lemma process_file_emits :
  emits P (process_file E repo_id d local_root s3_bucket s3_prefix force dryrun remote_path).
Proof.
  unfold process_file. fold filename.
  apply emits_bind; [apply emits_outside; reflexivity | intros _].
  apply emits_bind; [apply emits_print | intros _].
  apply emits_bind.
  { destruct force eqn:Hf; simpl; [apply emits_ret|].
    unfold s3_key_exists, head_object. emits_auto.
    subst P; unfold file_calls; rewrite ?Hf; auto. }
  intros [|]; [emits_auto|].
  apply emits_bind; [apply emits_print | intros _].
  eapply emits_bind_val;
    [apply emits_attempt, download_emits | apply returns_attempt, download_returns |].
  intros [e|fetched] Hfetched; [emits_auto|]. subst fetched.
  apply emits_bind; [apply emits_print | intros _].
  eapply emits_bind_val;
    [apply emits_attempt | apply returns_attempt, extract_returns |].
  { eapply emits_weaken; [|apply extract_emits].
    intros c Hc; subst P; unfold file_calls; destruct c; simpl in *; auto; contradiction. }
  intros [e|converted] Hconv; [emits_auto|]. subst converted.
  apply emits_bind; [apply emits_print | intros _].
  apply emits_bind.
  { apply emits_attempt. unfold upload, upload_to_s3, upload_file.
    destruct dryrun eqn:Hd; simpl; emits_auto.
    subst P; unfold file_calls, downloaded_path; rewrite ?Hd; auto. }
  intros [e|[]]; [emits_auto|].
  unfold cleanup, os_remove. emits_auto. reflexivity.
Qed.

End FileCalls.

(** ** Strings: facts about [replace], [find] and the formats *)

Lemma append_cons (c : ascii) (s t : string) : String c s +:+ t = String c (s +:+ t).
Proof. reflexivity. Qed.

Lemma append_nil_l (t : string) : EmptyString +:+ t = t.
Proof. reflexivity. Qed.

Lemma prefix_cons (a b : ascii) (s t : string) :
  String.prefix (String a s) (String b t) = if ascii_dec a b then String.prefix s t else false.
Proof. reflexivity. Qed.

Lemma prefix_append (s t : string) : String.prefix s (s +:+ t) = true.
Proof.
  induction s as [|c s IH]; [destruct t; reflexivity|].
  rewrite append_cons. simpl. destruct (ascii_dec c c); [exact IH | congruence].
Qed.

Lemma replace_from_short (old new s : string) (k : nat) :
  (String.length s <= k)%nat -> Str.replace_from k old new s = EmptyString.
Proof.
  revert k; induction s as [|c s IH]; intros k Hk; simpl in *; [reflexivity|].
  destruct k as [|k]; [lia|]. apply IH; lia.
Qed.

Lemma append_empty_r (s : string) : s +:+ EmptyString = s.
Proof. induction s as [|c s IH]; [reflexivity|]. rewrite append_cons, IH. reflexivity. Qed.

Lemma append_assoc (a b c : string) : (a +:+ b) +:+ c = a +:+ (b +:+ c).
Proof. induction a as [|x a IH]; [reflexivity|]. rewrite !append_cons, IH. reflexivity. Qed.

Lemma length_append (a b : string) :
  String.length (a +:+ b) = (String.length a + String.length b)%nat.
Proof. induction a as [|x a IH]; [reflexivity|]. rewrite append_cons. simpl. congruence. Qed.

(** When the first occurrence of [old] in [stem ++ old] is the final one,
    [replace] swaps that suffix and leaves [stem] alone. *)
Lemma replace_only_suffix (c : ascii) (old' new stem : string) :
  let old := String c old' in
  Str.find old (stem +:+ old) = Some (String.length stem) ->
  Str.replace old new (stem +:+ old) = stem +:+ new.
Proof.
  intros old. unfold Str.replace.
  induction stem as [|a stem IH]; intros Hfind.
  - change (EmptyString +:+ old) with (String c old'). cbn [Str.replace_from].
    fold old. rewrite <- (append_empty_r old) at 2. rewrite prefix_append.
    rewrite replace_from_short by (subst old; simpl; lia).
    simpl. apply append_empty_r.
  - change (String a stem +:+ old) with (String a (stem +:+ old)) in *.
    cbn [Str.replace_from Str.find] in *.
    destruct (String.prefix old (String a (stem +:+ old))); [discriminate|].
    rewrite append_cons. f_equal. apply IH.
    destruct (Str.find old (stem +:+ old)) as [n|]; simpl in *; congruence.
Qed.

Lemma fmt_02d_length (n : Z) : 0 <= n <= 99 -> String.length (Str.fmt_02d n) = 2%nat.
Proof.
  intros Hn. rewrite <- (Z2Nat.id n) by lia.
  assert (Hk : (Z.to_nat n < 100)%nat) by lia.
  revert Hk. generalize (Z.to_nat n). intros k Hk.
  do 100 (destruct k as [|k]; [reflexivity|]). lia.
Qed.

Lemma days_in_month_bound (y m : Z) : 28 <= Date.days_in_month y m <= 31.
Proof.
  unfold Date.days_in_month.
  destruct (m =? 2); [destruct (Date.is_leap y); lia|].
  destruct ((m =? 4) || (m =? 6) || (m =? 9) || (m =? 11)); lia.
Qed.

Lemma valid_of_validb (d : date) : Date.validb d = true -> Date.valid d.
Proof. unfold Date.validb, Date.valid. intros H. repeat (apply andb_prop in H as [H ?]). lia. Qed.

(** ** The destination key *)

Lemma strip_suffix_append (suf stem : string) :
  Str.find suf (stem +:+ suf) = Some (String.length stem) ->
  strip_suffix suf (stem +:+ suf) = Some stem.
Proof.
  induction stem as [|a stem IH]; intros Hfind.
  - simpl. destruct suf; simpl; [reflexivity|]. rewrite Ascii.eqb_refl, String.eqb_refl. reflexivity.
  - change (String a stem +:+ suf) with (String a (stem +:+ suf)) in *.
    cbn [strip_suffix Str.find] in *.
    destruct (String.eqb_spec (String a (stem +:+ suf)) suf) as [Heq|Hne].
    + exfalso. apply (f_equal String.length) in Heq.
      simpl in Heq. rewrite length_append in Heq. lia.
    + destruct (String.prefix suf (String a (stem +:+ suf))); [discriminate|].
      rewrite IH; [reflexivity|].
      destruct (Str.find suf (stem +:+ suf)) as [n|]; simpl in *; congruence.
Qed.

(** C5, as amended. The destination key is
    [<prefix>/<year>/<month, two digits>/<day, two digits>/<converted name>],
    where the converted name is the file name with EVERY occurrence of
    [.zarr.zip] replaced by [.nc]; when [.zarr.zip] occurs in the file name
    only as its suffix, this is the file name with that suffix swapped for
    [.nc], as the specification words it.  The key is a function of the
    date, the prefix and the file name alone: in every world and
    environment, each [head_object] and [upload_file] call of the file
    loop uses this key. *)
Theorem destination_key_spec (E : env) (repo_id : string) (d : date)
    (local_root s3_bucket s3_prefix : string) (force dryrun : bool) (remote_path : string)
    (Hvalid : Date.valid d) :
  let filename := OsPath.basename remote_path in
  let key := converted_s3_key d s3_prefix filename in
  key = s3_prefix +:+ "/" +:+ Str.of_int (year d) +:+ "/" +:+ Str.fmt_02d (month d) +:+ "/" +:+
        Str.fmt_02d (day d) +:+ "/" +:+ Str.replace ".zarr.zip" ".nc" filename
  /\ String.length (Str.fmt_02d (month d)) = 2%nat
  /\ String.length (Str.fmt_02d (day d)) = 2%nat
  /\ (forall stem, filename = stem +:+ ".zarr.zip" ->
        Str.find ".zarr.zip" filename = Some (String.length stem) ->
        Str.replace ".zarr.zip" ".nc" filename = stem +:+ ".nc"
        /\ key = spec_destination_key d s3_prefix filename)
  /\ emits (uses_key s3_bucket key)
       (process_file E repo_id d local_root s3_bucket s3_prefix force dryrun remote_path).
Proof.
  intros filename key. destruct Hvalid as (Hy & Hm & Hd).
  pose proof (days_in_month_bound (year d) (month d)) as Hb.
  split; [reflexivity|].
  split; [apply fmt_02d_length; lia|].
  split; [apply fmt_02d_length; lia|].
  split.
  - intros stem Hstem Hfind. rewrite Hstem in Hfind.
    assert (Hr : Str.replace ".zarr.zip" ".nc" filename = stem +:+ ".nc").
    { rewrite Hstem. apply (replace_only_suffix "."%char "zarr.zip" ".nc" stem Hfind). }
    split; [exact Hr|].
    subst key. unfold converted_s3_key, spec_destination_key, converted_filename, spec_converted_name.
    rewrite Hr, Hstem, (strip_suffix_append ".zarr.zip" stem Hfind). reflexivity.
  - eapply emits_weaken; [|apply process_file_emits].
    intros c Hc. destruct c; simpl in *; auto; tauto.
Qed.

Lemma destination_key_spec_witness :
  converted_s3_key Sample.july1 "prefix" "a.zarr.zip" = "prefix/2025/07/01/a.nc"
  /\ emits (uses_key "bucket" "prefix/2025/07/01/a.nc")
       (process_file Sample.calm "repo" Sample.july1 "./data" "bucket" "prefix" false false
          "data/2025/7/1/a.zarr.zip").
Proof.
  assert (Hv : Date.valid Sample.july1) by (apply valid_of_validb; reflexivity).
  pose proof (destination_key_spec Sample.calm "repo" Sample.july1 "./data" "bucket" "prefix"
                false false "data/2025/7/1/a.zarr.zip" Hv) as H.
  cbv zeta in H. destruct H as (_ & _ & _ & _ & H). split; [reflexivity | exact H].
Defined.

(** C5, counterexample. A file name that holds [.zarr.zip] twice: the code
    replaces both occurrences, the specification only the suffix. *)
Lemma destination_key_inner_occurrence :
  converted_s3_key Sample.july1 "prefix" "a.zarr.zip.zarr.zip" = "prefix/2025/07/01/a.nc.nc"
  /\ spec_destination_key Sample.july1 "prefix" "a.zarr.zip.zarr.zip"
     = "prefix/2025/07/01/a.zarr.zip.nc".
Proof. split; reflexivity. Qed.

(** ** Running the file loop by hand *)

Lemma process_file_unfold (E : env) (repo_id : string) (d : date)
    (local_root s3_bucket s3_prefix : string) (force dryrun : bool) (remote_path : string) :
  process_file E repo_id d local_root s3_bucket s3_prefix force dryrun remote_path =
  (let filename := OsPath.basename remote_path in
   os_makedirs E (local_dir d local_root) ;;
   print (Str.nl +:+ " → Processing file: " +:+ filename) ;;
   skip <- (if negb force then s3_key_exists E s3_bucket (converted_s3_key d s3_prefix filename)
            else ret false) ;;
   if skip : bool then
     print (" ✓ Already in S3, skipping → " +:+ converted_s3_key d s3_prefix filename) ;;
     ret (outcome_line SKIPPED d filename)
   else run_stages E repo_id d local_root s3_bucket s3_prefix force dryrun remote_path)%py.
Proof. reflexivity. Qed.

Lemma outside_ok (E : env) (c : call) (w : world) :
  fault E c = None -> outside E c w = (Ret tt, logged c w).
Proof. intros H. unfold outside. rewrite H. reflexivity. Qed.

(** Unfolds the monad, not the library calls and not the maps. *)
Ltac run :=
  repeat (progress unfold bind, ret, raise, try_except, try_finally, attempt, get_world, print,
            write_file, delete_file, put_object);
  cbn beta iota zeta delta [logged printed fs s3 calls out fst snd negb].

(** ** The idempotency gate *)

Lemma gate_closed (E : env) (repo_id : string) (d : date)
    (local_root s3_bucket s3_prefix : string) (dryrun : bool) (remote_path : string) (w : world) :
  let filename := OsPath.basename remote_path in
  let key := converted_s3_key d s3_prefix filename in
  fault E (MakeDirs (local_dir d local_root)) = None ->
  exists_answer E w s3_bucket key = Ret true ->
  process_file E repo_id d local_root s3_bucket s3_prefix false dryrun remote_path w =
  (Ret (outcome_line SKIPPED d filename),
   printed (" ✓ Already in S3, skipping → " +:+ key)
     (logged (HeadObject s3_bucket key)
        (printed (processing_line remote_path) (logged (MakeDirs (local_dir d local_root)) w)))).
Proof.
  intros filename key Hmk Hex.
  rewrite process_file_unfold. cbv zeta. unfold os_makedirs. fold filename. fold key.
  run. rewrite (outside_ok _ _ _ Hmk). run.
  rewrite s3_key_exists_run. unfold exists_answer in *. run. rewrite Hex.
  reflexivity.
Qed.

Section Blind.

Context {A B : Type}.

Lemma blind_ret (a : A) : s3_blind (ret a).
Proof. intros w1 w2 H; simpl; auto. Qed.

Lemma blind_raise (e : exn) : s3_blind (@raise A e).
Proof. intros w1 w2 H; simpl; auto. Qed.

Lemma blind_print (line : string) : s3_blind (print line).
Proof. intros w1 w2 (Hf & Hc & Ho); unfold same_but_s3; simpl; rewrite Ho; auto. Qed.

Lemma blind_write_file (p : path) (c : content) : s3_blind (write_file p c).
Proof. intros w1 w2 (Hf & Hc & Ho); unfold same_but_s3; simpl; rewrite Hf; auto. Qed.

Lemma blind_delete_file (p : path) : s3_blind (delete_file p).
Proof. intros w1 w2 (Hf & Hc & Ho); unfold same_but_s3; simpl; rewrite Hf; auto. Qed.

Lemma blind_put_object (bucket key : string) (c : content) : s3_blind (put_object bucket key c).
Proof. intros w1 w2 (Hf & Hc & Ho); unfold same_but_s3; simpl; auto. Qed.

Lemma blind_outside (E : env) (c : call) : s3_blind (outside E c).
Proof.
  intros w1 w2 (Hf & Hc & Ho); unfold same_but_s3, outside.
  destruct (fault E c); simpl; rewrite Hc; auto.
Qed.

Lemma blind_rmtree (filepath : string) :
  s3_blind (fun w => (Ret tt, mkWorld (fs w) (s3 w) (calls w ++ [Rmtree filepath]) (out w))).
Proof. intros w1 w2 (Hf & Hc & Ho); unfold same_but_s3; simpl; rewrite Hc; auto. Qed.

(** Reading a local file is not reading the bucket. *)
Lemma blind_read_file (p : path) (k : option content -> M A) :
  (forall o, s3_blind (k o)) -> s3_blind (bind get_world (fun w => k (fs w !! p))).
Proof.
  intros Hk w1 w2 H. unfold bind, get_world.
  destruct H as (Hf & Hc & Ho). rewrite Hf. apply Hk. split; auto.
Qed.

Lemma blind_bind (m : M A) (k : A -> M B) :
  s3_blind m -> (forall a, s3_blind (k a)) -> s3_blind (bind m k).
Proof.
  intros Hm Hk w1 w2 H. unfold bind.
  destruct (Hm w1 w2 H) as (Hr & Hs).
  destruct (m w1) as [r1 v1], (m w2) as [r2 v2]; simpl in *; subst r2.
  destruct r1 as [a|e|]; simpl; auto. apply Hk; exact Hs.
Qed.

Lemma blind_try_except (m : M A) (catches : exn -> bool) (h : exn -> M A) :
  s3_blind m -> (forall e, s3_blind (h e)) -> s3_blind (try_except m catches h).
Proof.
  intros Hm Hh w1 w2 H. unfold try_except.
  destruct (Hm w1 w2 H) as (Hr & Hs).
  destruct (m w1) as [r1 v1], (m w2) as [r2 v2]; simpl in *; subst r2.
  destruct r1 as [a|e|]; simpl; auto.
  destruct (catches e); simpl; auto. apply Hh; exact Hs.
Qed.

Lemma blind_try_finally (m : M A) (fin : M unit) :
  s3_blind m -> s3_blind fin -> s3_blind (try_finally m fin).
Proof.
  intros Hm Hf w1 w2 H. unfold try_finally.
  destruct (Hm w1 w2 H) as (Hr & Hs).
  destruct (m w1) as [r1 v1], (m w2) as [r2 v2]; simpl in *; subst r2.
  destruct (Hf v1 v2 Hs) as (Hr' & Hs').
  destruct (fin v1) as [q1 u1], (fin v2) as [q2 u2]; simpl in *; subst q2.
  destruct q1; simpl; auto.
Qed.

End Blind.

Lemma blind_attempt {A} (m : M A) : s3_blind m -> s3_blind (attempt m).
Proof.
  intros Hm. unfold attempt. apply blind_try_except.
  - apply blind_bind; [exact Hm | intros a; apply blind_ret].
  - intros e; apply blind_ret.
Qed.

Ltac blind_step :=
  lazymatch goal with
  | |- s3_blind (bind get_world (fun w => match fs w !! ?p with _ => _ end)) =>
      apply (blind_read_file p (fun o => match o with Some c => _ | None => _ end)); intros [?|]
  | |- s3_blind (bind _ _) => apply blind_bind; [| intros ?]
  | |- s3_blind (ret _) => apply blind_ret
  | |- s3_blind (raise _) => apply blind_raise
  | |- s3_blind (print _) => apply blind_print
  | |- s3_blind (write_file _ _) => apply blind_write_file
  | |- s3_blind (delete_file _) => apply blind_delete_file
  | |- s3_blind (put_object _ _ _) => apply blind_put_object
  | |- s3_blind (outside _ _) => apply blind_outside
  | |- s3_blind (try_except _ _ _) => apply blind_try_except; [| intros ?]
  | |- s3_blind (try_finally _ _) => apply blind_try_finally; [| apply blind_rmtree]
  | |- s3_blind (attempt _) => apply blind_attempt
  | |- s3_blind (match ?x with _ => _ end) => destruct x
  | |- s3_blind (let _ := _ in _) => cbv zeta
  end.

Lemma run_stages_blind (E : env) (repo_id : string) (d : date)
    (local_root s3_bucket s3_prefix : string) (force dryrun : bool) (remote_path : string) :
  s3_blind (run_stages E repo_id d local_root s3_bucket s3_prefix force dryrun remote_path).
Proof.
  unfold run_stages, download, upload, upload_to_s3, upload_file, cleanup, os_remove,
    hf_hub_download, open_write_empty, time_sleep, converter.extract, converter.open_archive.
  repeat blind_step.
Qed.

(** ** Paths: splitting at slashes *)

Lemma split_slash_nonempty (s : string) : Str.split_slash s <> [].
Proof.
  destruct s as [|c s]; simpl; [discriminate|].
  destruct (Ascii.eqb c "/"%char); [discriminate|].
  destruct (Str.split_slash s); discriminate.
Qed.

Lemma split_slash_free (s : string) : has_slash s = false -> Str.split_slash s = [s].
Proof.
  induction s as [|c s IH]; simpl; [reflexivity|].
  intros H. apply orb_false_elim in H as [Hc Hs]. rewrite Hc, (IH Hs). reflexivity.
Qed.

Lemma split_slash_parts (s : string) :
  Forall (fun p => has_slash p = false) (Str.split_slash s).
Proof.
  induction s as [|c s IH]; simpl; [repeat constructor|].
  destruct (Ascii.eqb c "/"%char) eqn:Hc; [constructor; auto|].
  destruct (Str.split_slash s) as [|h t]; [repeat constructor; simpl; rewrite Hc; reflexivity|].
  inversion IH; subst. constructor; [simpl; rewrite Hc; assumption | assumption].
Qed.

Lemma split_slash_append (a b : string) :
  Str.split_slash (a +:+ String "/"%char b) = Str.split_slash a ++ Str.split_slash b.
Proof.
  induction a as [|c a IH]; [reflexivity|].
  rewrite append_cons. simpl. destruct (Ascii.eqb c "/"%char); rewrite IH; [reflexivity|].
  pose proof (split_slash_nonempty a) as Hne.
  destruct (Str.split_slash a) as [|h t]; [congruence | reflexivity].
Qed.

Lemma has_slash_append (a b : string) :
  has_slash (a +:+ b) = has_slash a || has_slash b.
Proof.
  induction a as [|c a IH]; [reflexivity|].
  rewrite append_cons. simpl. rewrite IH, orb_assoc. reflexivity.
Qed.

(** A string has no slash, or it is [a/b] with [b] free of slashes. *)
Lemma slash_decomp (s : string) :
  has_slash s = false \/
  exists a b, s = a +:+ String "/"%char b /\ has_slash b = false.
Proof.
  induction s as [|c s IH]; [left; reflexivity|].
  destruct IH as [Hs | (a & b & -> & Hb)].
  - destruct (Ascii.eqb_spec c "/"%char) as [->|Hc].
    + right. exists EmptyString, s. split; [reflexivity | assumption].
    + left. simpl. rewrite Hs. apply Ascii.eqb_neq in Hc. rewrite Hc. reflexivity.
  - right. exists (String c a), b. split; [reflexivity | assumption].
Qed.

Lemma last_snoc {A} (l : list A) (x y : A) : List.last (l ++ [x]) y = x.
Proof. apply List.last_last. Qed.

Lemma basename_slash_free (s : string) : has_slash s = false -> OsPath.basename s = s.
Proof. intros H. unfold OsPath.basename. rewrite (split_slash_free s H). reflexivity. Qed.

Lemma basename_after_slash (a b : string) :
  has_slash b = false -> OsPath.basename (a +:+ String "/"%char b) = b.
Proof.
  intros H. unfold OsPath.basename.
  rewrite split_slash_append, (split_slash_free b H). apply last_snoc.
Qed.

Lemma basename_no_slash (s : string) : has_slash (OsPath.basename s) = false.
Proof.
  destruct (slash_decomp s) as [Hs | (a & b & -> & Hb)].
  - rewrite basename_slash_free; assumption.
  - rewrite basename_after_slash; assumption.
Qed.

(** *** [endswith] *)

Lemma endswith_nil (suf : string) :
  Str.endswith EmptyString suf = String.eqb EmptyString suf.
Proof. simpl. apply orb_false_r. Qed.

Lemma endswith_cons (c : ascii) (s suf : string) :
  Str.endswith (String c s) suf = String.eqb (String c s) suf || Str.endswith s suf.
Proof. reflexivity. Qed.

Lemma endswith_inv (s suf : string) :
  Str.endswith s suf = true -> exists pre, s = pre +:+ suf.
Proof.
  induction s as [|c s IH].
  - rewrite endswith_nil. intros H. apply String.eqb_eq in H as <-. exists EmptyString. reflexivity.
  - rewrite endswith_cons. intros H. apply orb_prop in H as [H|H].
    + apply String.eqb_eq in H as <-. exists EmptyString. reflexivity.
    + destruct (IH H) as [pre ->]. exists (String c pre). reflexivity.
Qed.

Lemma endswith_append (pre suf : string) : Str.endswith (pre +:+ suf) suf = true.
Proof.
  induction pre as [|c pre IH].
  - rewrite append_nil_l. destruct suf; [reflexivity|].
    rewrite endswith_cons, String.eqb_refl. reflexivity.
  - rewrite append_cons, endswith_cons, IH. apply orb_true_r.
Qed.

Lemma basename_endswith (s suf : string) :
  has_slash suf = false ->
  Str.endswith s suf = true -> Str.endswith (OsPath.basename s) suf = true.
Proof.
  intros Hsuf H. apply endswith_inv in H as [pre ->].
  destruct (slash_decomp pre) as [Hp | (a & b & -> & Hb)].
  - rewrite basename_slash_free; [apply endswith_append|].
    rewrite has_slash_append, Hp, Hsuf. reflexivity.
  - rewrite append_assoc, append_cons, basename_after_slash; [apply endswith_append|].
    rewrite has_slash_append, Hb, Hsuf. reflexivity.
Qed.

Lemma endswith_length (s suf : string) :
  Str.endswith s suf = true -> (String.length suf <= String.length s)%nat.
Proof.
  intros H. apply endswith_inv in H as [pre ->]. rewrite length_append. lia.
Qed.

Lemma prefix_length (a b : string) :
  String.prefix a b = true -> (String.length a <= String.length b)%nat.
Proof.
  revert a; induction b as [|c b IH]; intros [|x a]; simpl; try lia; try discriminate.
  destruct (ascii_dec x c); [|discriminate]. intros H. apply IH in H. lia.
Qed.

Lemma prefix_refl (s : string) : String.prefix s s = true.
Proof. rewrite <- (append_empty_r s) at 2. apply prefix_append. Qed.

Lemma endswith_find (s suf : string) :
  Str.endswith s suf = true -> exists n, Str.find suf s = Some n.
Proof.
  induction s as [|c s IH].
  - rewrite endswith_nil. intros H. apply String.eqb_eq in H as <-. exists O. reflexivity.
  - rewrite endswith_cons. intros H. cbn [Str.find].
    destruct (String.prefix suf (String c s)) eqn:Hp; [eauto|].
    apply orb_prop in H as [H|H].
    + apply String.eqb_eq in H. rewrite <- H, prefix_refl in Hp. discriminate.
    + destruct (IH H) as [n ->]. simpl. eauto.
Qed.

(** *** [replace] *)

Lemma replace_from_length (old new s : string) (k : nat) :
  (String.length new <= String.length old)%nat ->
  (String.length (Str.replace_from k old new s) + Nat.min k (String.length s)
   <= String.length s)%nat.
Proof.
  intros Hlen. revert k. induction s as [|c s IH]; intros k; [simpl; lia|].
  cbn [Str.replace_from]. destruct k as [|k].
  - destruct (String.prefix old (String c s)) eqn:Hp.
    + apply prefix_length in Hp. rewrite length_append.
      specialize (IH (String.length old - 1)%nat). simpl in *. lia.
    + specialize (IH O). simpl in *. lia.
  - specialize (IH k). simpl in *. lia.
Qed.

(** Replacing a longer [old] by a shorter [new] shortens a string that
    holds [old]. *)
Lemma replace_shrinks (old new s : string) (n : nat) :
  (String.length new < String.length old)%nat ->
  Str.find old s = Some n ->
  (String.length (Str.replace old new s) < String.length s)%nat.
Proof.
  intros Hlen. unfold Str.replace. revert n. induction s as [|c s IH]; intros n.
  - destruct old; simpl in *; [lia | discriminate].
  - cbn [Str.find Str.replace_from].
    destruct (String.prefix old (String c s)) eqn:Hp.
    + intros _. apply prefix_length in Hp. rewrite length_append.
      pose proof (replace_from_length old new s (String.length old - 1)) as H.
      simpl in *. lia.
    + destruct (Str.find old s) as [m|]; simpl; [|discriminate].
      intros _. specialize (IH m eq_refl). lia.
Qed.

Lemma replace_from_no_slash (old new s : string) (k : nat) :
  has_slash new = false -> has_slash s = false ->
  has_slash (Str.replace_from k old new s) = false.
Proof.
  intros Hnew. revert k. induction s as [|c s IH]; intros k Hs; [reflexivity|].
  simpl in Hs. apply orb_false_elim in Hs as [Hc Hs].
  cbn [Str.replace_from]. destruct k as [|k]; [|auto].
  destruct (String.prefix old (String c s)).
  - rewrite has_slash_append, Hnew, IH; auto.
  - simpl. rewrite Hc, IH; auto.
Qed.

Lemma append_eq_empty (a b : string) : a +:+ b = EmptyString -> a = EmptyString.
Proof. destruct a; [reflexivity | discriminate]. Qed.

Lemma replace_nonempty (old new s : string) :
  new <> EmptyString -> s <> EmptyString -> Str.replace old new s <> EmptyString.
Proof.
  intros Hnew Hs. destruct s as [|c s]; [congruence|].
  unfold Str.replace. cbn [Str.replace_from].
  destruct (String.prefix old (String c s)); [|discriminate].
  intros H. apply append_eq_empty in H. congruence.
Qed.

(** The converted name of an archive is a file name again, and another
    one. *)
Lemma converted_name_facts (filename : string) :
  has_slash filename = false ->
  Str.endswith filename ".zarr.zip" = true ->
  let x := Str.replace ".zarr.zip" ".nc" filename in
  has_slash x = false /\ Pathlib.proper_part x = true /\ x <> filename
  /\ Pathlib.proper_part filename = true.
Proof.
  intros Hs He x.
  pose proof (endswith_length _ _ He) as Hlen. simpl in Hlen.
  destruct (endswith_find _ _ He) as [n Hn].
  pose proof (replace_shrinks ".zarr.zip" ".nc" filename n ltac:(simpl; lia) Hn) as Hshort.
  assert (Hx0 : x <> EmptyString).
  { apply replace_nonempty; [discriminate|]. intros ->. simpl in Hlen. lia. }
  repeat split.
  - apply replace_from_no_slash; [reflexivity | assumption].
  - unfold Pathlib.proper_part.
    destruct (String.eqb_spec x EmptyString) as [|_]; [contradiction|].
    destruct (String.eqb_spec x ".") as [Hdot|_]; [|reflexivity].
    exfalso. subst x. unfold Str.replace in *.
    destruct filename as [|c s]; [simpl in Hlen; lia|].
    cbn [Str.replace_from] in Hdot.
    destruct (String.prefix ".zarr.zip" (String c s)); [discriminate|].
    injection Hdot as _ Hrest.
    destruct s as [|c' s]; [simpl in Hlen; lia|].
    revert Hrest. apply (replace_nonempty ".zarr.zip" ".nc"); discriminate.
  - intros Heq. fold x in Hshort. rewrite Heq in Hshort. lia.
  - unfold Pathlib.proper_part.
    destruct (String.eqb_spec filename EmptyString) as [->|_]; [simpl in Hlen; lia|].
    destruct (String.eqb_spec filename ".") as [->|_]; [simpl in Hlen; lia|].
    reflexivity.
Qed.

(** *** Parsed paths *)

Lemma filter_proper_good (l : list string) :
  Forall (fun p => has_slash p = false) l -> Forall good_part (List.filter Pathlib.proper_part l).
Proof.
  induction 1 as [|x l Hx Hl IH]; simpl; [constructor|].
  destruct (Pathlib.proper_part x) eqn:Hp; [constructor; [split|]; assumption | assumption].
Qed.

Lemma Path_parts_good (s : string) : Forall good_part (Pathlib.Path s).2.
Proof. apply filter_proper_good, split_slash_parts. Qed.

Lemma startswith_no_slash (s : string) : has_slash s = false -> Str.startswith s "/" = false.
Proof.
  destruct s as [|c s]; [reflexivity|]. cbn [has_slash]. intros H.
  apply orb_false_elim in H as [Hc _]. unfold Str.startswith. rewrite prefix_cons.
  destruct (ascii_dec "/"%char c) as [<-|]; [|reflexivity].
  rewrite Ascii.eqb_refl in Hc. discriminate.
Qed.

Lemma Path_single (x : string) : good_part x -> Pathlib.Path x = (false, [x]).
Proof.
  intros [Hs Hp]. unfold Pathlib.Path.
  rewrite (startswith_no_slash x Hs), (split_slash_free x Hs). simpl. rewrite Hp. reflexivity.
Qed.

Lemma Path_parts_after_slash (a b : string) :
  good_part b -> (Pathlib.Path (a +:+ String "/"%char b)).2 = (Pathlib.Path a).2 ++ [b].
Proof.
  intros [Hs Hp]. unfold Pathlib.Path. cbn [snd].
  rewrite split_slash_append, List.filter_app, (split_slash_free b Hs). simpl.
  rewrite Hp. reflexivity.
Qed.

(** The last component of [os.path.join(a, b)] is [b]. *)
Lemma name_join (a b : string) :
  good_part b -> Pathlib.name (Pathlib.Path (OsPath.join a b)) = b.
Proof.
  intros Hb. pose proof Hb as [Hs Hp]. unfold OsPath.join, Pathlib.name.
  rewrite (startswith_no_slash b Hs).
  destruct (String.eqb_spec a EmptyString) as [->|Hne]; cbn [orb].
  - rewrite append_nil_l, (Path_single b Hb). reflexivity.
  - destruct (Str.endswith a "/") eqn:He.
    + apply endswith_inv in He as [pre ->].
      rewrite append_assoc, append_cons, append_nil_l, Path_parts_after_slash by assumption.
      apply last_snoc.
    + change ("/" +:+ b) with (String "/"%char b).
      rewrite Path_parts_after_slash by assumption. apply last_snoc.
Qed.

(** [./x] and [x] are one path. *)
Lemma Path_dot_slash (s : string) : Pathlib.Path (OsPath.join "./" s) = Pathlib.Path s.
Proof.
  unfold OsPath.join. destruct (Str.startswith s "/") eqn:Hs; [reflexivity|].
  cbn [String.eqb orb]. replace (Str.endswith "./" "/") with true by reflexivity.
  unfold Pathlib.Path. f_equal. rewrite Hs. reflexivity.
Qed.

Lemma name_Path (s : string) :
  Pathlib.proper_part (OsPath.basename s) = true ->
  Pathlib.name (Pathlib.Path s) = OsPath.basename s.
Proof.
  intros Hp. unfold Pathlib.name.
  destruct (slash_decomp s) as [Hs | (a & b & -> & Hb)].
  - rewrite (basename_slash_free s Hs) in *. rewrite Path_single; [reflexivity | split; assumption].
  - rewrite (basename_after_slash a b Hb) in *.
    rewrite Path_parts_after_slash; [apply last_snoc | split; assumption].
Qed.

Lemma name_output_path (filepath : string) :
  good_part (Str.replace ".zarr.zip" ".nc" (Pathlib.name (Pathlib.Path filepath))) ->
  Pathlib.name (converter.output_path filepath)
  = Str.replace ".zarr.zip" ".nc" (Pathlib.name (Pathlib.Path filepath)).
Proof.
  intros Hg. unfold converter.output_path, Pathlib.joinpath.
  rewrite (startswith_no_slash _ (proj1 Hg)), (Path_single _ Hg).
  unfold Pathlib.name. cbn [snd]. apply last_snoc.
Qed.

Lemma join_slash_cons (p q : string) (r : list string) :
  Str.join_slash (p :: q :: r) = p +:+ String "/"%char (Str.join_slash (q :: r)).
Proof. reflexivity. Qed.

Lemma split_join (ps : list string) :
  Forall (fun p => has_slash p = false) ps -> ps <> [] ->
  Str.split_slash (Str.join_slash ps) = ps.
Proof.
  induction 1 as [|p ps Hp Hps IH]; intros Hne; [congruence|].
  destruct ps as [|q r]; [apply split_slash_free; assumption|].
  rewrite join_slash_cons, split_slash_append, (split_slash_free p Hp), IH by discriminate.
  reflexivity.
Qed.

Lemma filter_proper_all (ps : list string) :
  Forall good_part ps -> List.filter Pathlib.proper_part ps = ps.
Proof.
  induction 1 as [|p ps [_ Hp] _ IH]; simpl; [reflexivity|]. rewrite Hp, IH. reflexivity.
Qed.

Lemma startswith_good (p t : string) : good_part p -> Str.startswith (p +:+ t) "/" = false.
Proof.
  intros [Hs Hp]. destruct p as [|c p]; [discriminate|].
  cbn [has_slash] in Hs. apply orb_false_elim in Hs as [Hc _].
  rewrite append_cons. unfold Str.startswith. rewrite prefix_cons.
  destruct (ascii_dec "/"%char c) as [<-|]; [|reflexivity].
  rewrite Ascii.eqb_refl in Hc. discriminate.
Qed.

(** Printing a parsed path and parsing it again gives it back. *)
Lemma Path_to_str (p : path) : Forall good_part p.2 -> Pathlib.Path (Pathlib.to_str p) = p.
Proof.
  destruct p as [abs ps]. cbn [snd]. intros Hg.
  assert (Hfree : Forall (fun p => has_slash p = false) ps).
  { eapply Forall_impl; [exact Hg|]. intros x [Hx _]; exact Hx. }
  destruct ps as [|p ps].
  - destruct abs; reflexivity.
  - assert (Hsplit := split_join (p :: ps) Hfree ltac:(discriminate)).
    destruct abs; unfold Pathlib.to_str, Pathlib.Path.
    + change ("/" +:+ Str.join_slash (p :: ps)) with
        (EmptyString +:+ String "/"%char (Str.join_slash (p :: ps))).
      rewrite split_slash_append, Hsplit.
      change (Str.split_slash EmptyString ++ p :: ps) with (EmptyString :: p :: ps).
      change (List.filter Pathlib.proper_part (EmptyString :: p :: ps))
        with (List.filter Pathlib.proper_part (p :: ps)).
      rewrite (filter_proper_all _ Hg). f_equal.
      unfold Str.startswith. rewrite append_nil_l, prefix_cons.
      destruct (ascii_dec "/"%char "/"%char); [|congruence].
      destruct (Str.join_slash (p :: ps)); reflexivity.
    + rewrite Hsplit, (filter_proper_all _ Hg). f_equal.
      inversion Hg; subst. destruct ps as [|q r].
      * cbn [Str.join_slash]. rewrite <- (append_empty_r p). apply startswith_good; assumption.
      * rewrite join_slash_cons. apply startswith_good; assumption.
Qed.

Lemma output_path_good (filepath : string) :
  Forall good_part (converter.output_path filepath).2.
Proof.
  unfold converter.output_path, Pathlib.joinpath, Pathlib.parent.
  destruct (Str.startswith _ "/"); [apply Path_parts_good|]. cbn [snd].
  apply Forall_app; split; [|apply Path_parts_good].
  pose proof (Path_parts_good filepath) as H.
  destruct (Pathlib.Path filepath) as [abs ps]. cbn [snd] in *. clear -H.
  induction H as [|x l Hx Hl IH]; [constructor|].
  destruct l; [constructor|]. cbn [removelast]. constructor; assumption.
Qed.

Lemma Path_output_path (filepath : string) :
  Pathlib.Path (Pathlib.to_str (converter.output_path filepath)) = converter.output_path filepath.
Proof. apply Path_to_str, output_path_good. Qed.

(** *** The paths of one file of the loop *)

Section FilePaths.

Variables (d : date) (local_root : string) (dryrun : bool) (remote_path : string).
Hypothesis Harchive : Str.endswith remote_path ".zarr.zip" = true.

Let filename := OsPath.basename remote_path.
Let fetched := downloaded_path d local_root dryrun remote_path.

Lemma filename_facts :
  good_part filename
  /\ good_part (Str.replace ".zarr.zip" ".nc" filename)
  /\ Str.replace ".zarr.zip" ".nc" filename <> filename.
Proof.
  pose proof (basename_no_slash remote_path) as Hs.
  pose proof (basename_endswith remote_path ".zarr.zip" eq_refl Harchive) as He.
  destruct (converted_name_facts _ Hs He) as (H1 & H2 & H3 & H4).
  repeat split; assumption.
Qed.

Lemma fetched_name : Pathlib.name (Pathlib.Path fetched) = filename.
Proof.
  destruct filename_facts as (Hg & _ & _).
  subst fetched. unfold downloaded_path. destruct dryrun.
  - apply name_join; exact Hg.
  - rewrite Path_dot_slash. apply name_Path. exact (proj2 Hg).
Qed.

Lemma output_name :
  Pathlib.name (converter.output_path fetched) = Str.replace ".zarr.zip" ".nc" filename.
Proof.
  destruct filename_facts as (_ & Hg & _).
  rewrite name_output_path; rewrite fetched_name; [reflexivity | exact Hg].
Qed.

(** The converted file and the file that cleanup removes are two files. *)
Lemma output_is_not_original :
  converter.output_path fetched <> Pathlib.Path (local_original d local_root filename).
Proof.
  destruct filename_facts as (Hg & _ & Hne).
  intros Heq. apply (f_equal Pathlib.name) in Heq.
  rewrite output_name in Heq. unfold local_original in Heq.
  rewrite (name_join _ _ Hg) in Heq. contradiction.
Qed.

End FilePaths.

(** ** The stages from download to cleanup, when nothing fails *)

Section StagesOk.

Variables (E : env) (repo_id : string) (d : date).
Variables (local_root s3_bucket s3_prefix : string) (force : bool) (remote_path : string).
Variables (ds bbox : dataset).

Let filename := OsPath.basename remote_path.
Let fetched := OsPath.join "./" remote_path.
Let output := converter.output_path fetched.
Let key := converted_s3_key d s3_prefix filename.

Hypothesis Hcalm : forall c,
  file_calls repo_id d local_root s3_bucket s3_prefix force false remote_path c ->
  fault E c = None.
Hypothesis Hfile : repo_file E repo_id remote_path = ZarrZip ds.
Hypothesis Hsel : converter.select_bbox ds = inr bbox.
Hypothesis Hlat : latitude bbox <> [].
Hypothesis Hlon : longitude bbox <> [].

Lemma extract_ok (w : world) :
  fs w !! Pathlib.Path fetched = Some (ZarrZip ds) ->
  converter.extract E fetched w =
  (Ret (Pathlib.to_str output),
   mkWorld (<[output := NetCDF bbox]> (fs w)) (s3 w)
     (calls w ++ [MkDtemp fetched; Unzip fetched; OpenZarr fetched; Load fetched;
                  ToNetcdf (Pathlib.to_str output); Rmtree fetched])
     (out w)).
Proof.
  intros Hw. unfold converter.extract, converter.open_archive. run.
  rewrite (outside_ok E (MkDtemp fetched)) by (apply Hcalm; reflexivity). run.
  rewrite (outside_ok E (Unzip fetched)) by (apply Hcalm; reflexivity). run.
  rewrite Hw.
  rewrite (outside_ok E (OpenZarr fetched)) by (apply Hcalm; reflexivity). run.
  rewrite Hsel.
  destruct (latitude bbox) as [|la lats] eqn:Ela; [congruence|].
  destruct (longitude bbox) as [|lo lons] eqn:Elo; [congruence|].
  cbn [length Nat.eqb orb].
  rewrite (outside_ok E (Load fetched)) by (apply Hcalm; reflexivity). run.
  fold output.
  rewrite (outside_ok E (ToNetcdf (Pathlib.to_str output))) by (apply Hcalm; reflexivity). run.
  rewrite <- !app_assoc. reflexivity.
Qed.

Lemma run_stages_ok (w : world) :
  exists w',
    run_stages E repo_id d local_root s3_bucket s3_prefix force false remote_path w
      = (Ret (outcome_line OK d filename), w')
    /\ fs w' = delete (Pathlib.Path (local_original d local_root filename))
                 (<[output := NetCDF bbox]> (<[Pathlib.Path fetched := ZarrZip ds]> (fs w)))
    /\ s3 w' = <[(s3_bucket, key) := NetCDF bbox]> (s3 w)
    /\ calls w' = calls w ++
         [HfHubDownload repo_id remote_path "./" force;
          MkDtemp fetched; Unzip fetched; OpenZarr fetched; Load fetched;
          ToNetcdf (Pathlib.to_str output); Rmtree fetched;
          UploadFile (Pathlib.to_str output) s3_bucket key;
          Remove (local_original d local_root filename)].
Proof.
  unfold run_stages, download, hf_hub_download. fold filename. cbv zeta. run.
  rewrite (outside_ok E (HfHubDownload repo_id remote_path "./" force))
    by (apply Hcalm; simpl; auto).
  run. fold fetched. rewrite Hfile.
  rewrite extract_ok by (cbn [fs]; apply lookup_insert_eq). run. fold output.
  unfold upload, upload_to_s3, upload_file. run. fold key.
  rewrite (outside_ok E (UploadFile (Pathlib.to_str output) s3_bucket key))
    by (apply Hcalm; simpl; auto).
  run. unfold output at 1. rewrite Path_output_path. fold output. rewrite lookup_insert_eq.
  unfold cleanup, os_remove. run.
  rewrite (outside_ok E (Remove (local_original d local_root filename)))
    by (apply Hcalm; reflexivity).
  run.
  destruct (_ !! Pathlib.Path (local_original d local_root filename)) as [c|] eqn:Hlo; run.
  - eexists; split; [reflexivity|]. cbn [logged fs s3 calls]. rewrite <- !app_assoc. auto.
  - eexists; split; [reflexivity|]. cbn [logged fs s3 calls]. rewrite <- !app_assoc.
    rewrite (delete_id _ _ Hlo). auto.
Qed.

End StagesOk.

(** ** Report lines *)

Lemma outcome_line_inj (s1 s2 : status) (d1 d2 : date) (f1 f2 : string) :
  outcome_line s1 d1 f1 = outcome_line s2 d2 f2 -> s1 = s2.
Proof.
  unfold outcome_line.
  destruct s1, s2; intros H; try reflexivity; exfalso;
    cbv [status_str String.append] in H; discriminate H.
Qed.

Lemma run_stages_returns (E : env) (repo_id : string) (d : date)
    (local_root s3_bucket s3_prefix : string) (force dryrun : bool) (remote_path : string) :
  returns (fun line => exists st, st <> SKIPPED
                                  /\ line = outcome_line st d (OsPath.basename remote_path))
    (run_stages E repo_id d local_root s3_bucket s3_prefix force dryrun remote_path).
Proof.
  unfold run_stages. cbv zeta.
  repeat returns_step;
    eexists; (split; [|reflexivity]); discriminate.
Qed.

(** C2. The idempotency gate of the file loop.

    Without [force]: when the directory could be made and the existence
    check answers [True] for the destination key, the iteration appends
    [SKIPPED <date> <filename>] and has done nothing but [os.makedirs] and
    the one [head_object]: no download, no conversion, no upload, no local
    file and no object changed.

    With [force]: no [head_object] call is ever made and the outcome is
    never [SKIPPED]; the iteration is [os.makedirs] followed by the stages
    download, convert, upload, cleanup; what it returns, prints, calls and
    leaves on disk does not depend on what the bucket held; and when no
    call fails and the archive has a non-empty window it runs through all
    stages to [OK], storing the converted file at the key whatever was
    there before. *)
Theorem idempotency_gate (E : env) (repo_id : string) (d : date)
    (local_root s3_bucket s3_prefix : string) (dryrun : bool) (remote_path : string) (w : world) :
  let filename := OsPath.basename remote_path in
  let key := converted_s3_key d s3_prefix filename in
  let process := process_file E repo_id d local_root s3_bucket s3_prefix in
  (fault E (MakeDirs (local_dir d local_root)) = None ->
   exists_answer E w s3_bucket key = Ret true ->
   process false dryrun remote_path w =
     (Ret (outcome_line SKIPPED d filename),
      mkWorld (fs w) (s3 w)
        (calls w ++ [MakeDirs (local_dir d local_root); HeadObject s3_bucket key])
        (out w ++ [processing_line remote_path; " ✓ Already in S3, skipping → " +:+ key])))
  /\ emits not_head_object (process true dryrun remote_path)
  /\ returns (fun line => line <> outcome_line SKIPPED d filename) (process true dryrun remote_path)
  /\ process true dryrun remote_path =
       (os_makedirs E (local_dir d local_root) ;;
        print (processing_line remote_path) ;;
        run_stages E repo_id d local_root s3_bucket s3_prefix true dryrun remote_path)%py
  /\ s3_blind (process true dryrun remote_path)
  /\ (forall ds bbox,
        (forall c, fault E c = None) ->
        repo_file E repo_id remote_path = ZarrZip ds ->
        converter.select_bbox ds = inr bbox ->
        latitude bbox <> [] -> longitude bbox <> [] ->
        exists w',
          process true false remote_path w = (Ret (outcome_line OK d filename), w')
          /\ s3 w' = <[(s3_bucket, key) := NetCDF bbox]> (s3 w)
          /\ calls w' = calls w ++
               [MakeDirs (local_dir d local_root);
                HfHubDownload repo_id remote_path "./" true;
                MkDtemp (OsPath.join "./" remote_path);
                Unzip (OsPath.join "./" remote_path);
                OpenZarr (OsPath.join "./" remote_path);
                Load (OsPath.join "./" remote_path);
                ToNetcdf (Pathlib.to_str (converter.output_path (OsPath.join "./" remote_path)));
                Rmtree (OsPath.join "./" remote_path);
                UploadFile (Pathlib.to_str (converter.output_path (OsPath.join "./" remote_path)))
                  s3_bucket key;
                Remove (local_original d local_root filename)]).
Proof.
  intros filename key process. subst process.
  split; [|split; [|split; [|split; [|split]]]].
  - intros Hmk Hex.
    rewrite (gate_closed E repo_id d local_root s3_bucket s3_prefix dryrun remote_path w Hmk Hex).
    unfold printed, logged; cbn [fs s3 calls out]. rewrite <- !app_assoc. reflexivity.
  - eapply emits_weaken; [|apply process_file_emits].
    intros c Hc. destruct c; simpl in *; auto. destruct Hc as [Hc _]. discriminate.
  - rewrite process_file_unfold. cbv zeta. cbn [negb].
    apply returns_bind; intros _. apply returns_bind; intros _.
    apply (returns_bind_val (fun skip => skip = false)); [apply returns_ret; reflexivity|].
    intros skip ->. eapply returns_weaken; [|apply run_stages_returns].
    intros line (st & Hst & ->) Heq. apply outcome_line_inj in Heq. contradiction.
  - reflexivity.
  - rewrite process_file_unfold. cbv zeta. cbn [negb]. unfold os_makedirs.
    repeat blind_step. apply run_stages_blind.
  - intros ds bbox Hcalm Hfile Hsel Hlat Hlon.
    destruct (run_stages_ok E repo_id d local_root s3_bucket s3_prefix true remote_path ds bbox
                (fun c _ => Hcalm c) Hfile Hsel Hlat Hlon
                (printed (processing_line remote_path) (logged (MakeDirs (local_dir d local_root)) w)))
      as (w' & Hrun & Hfs & Hs3 & Hcalls).
    exists w'. rewrite process_file_unfold. cbv zeta. cbn [negb]. unfold os_makedirs. run.
    rewrite (outside_ok E _ _ (Hcalm _)). run.
    split; [exact Hrun|]. split; [exact Hs3|].
    rewrite Hcalls. cbn [printed logged calls]. rewrite <- app_assoc. reflexivity.
Qed.

Lemma idempotency_gate_witness :
  process_file Sample.calm "repo" Sample.july1 "./data" "bucket" "prefix" false false
    "data/2025/7/1/a.zarr.zip" Witness.stored
  = (Ret (outcome_line SKIPPED Sample.july1 (OsPath.basename "data/2025/7/1/a.zarr.zip")),
     mkWorld (fs Witness.stored) (s3 Witness.stored)
       (calls Witness.stored ++
          [MakeDirs (local_dir Sample.july1 "./data");
           HeadObject "bucket"
             (converted_s3_key Sample.july1 "prefix" (OsPath.basename "data/2025/7/1/a.zarr.zip"))])
       (out Witness.stored ++
          [processing_line "data/2025/7/1/a.zarr.zip";
           " ✓ Already in S3, skipping → " +:+
           converted_s3_key Sample.july1 "prefix" (OsPath.basename "data/2025/7/1/a.zarr.zip")])).
Proof.
  refine (proj1 (idempotency_gate Sample.calm "repo" Sample.july1 "./data" "bucket" "prefix"
                   false "data/2025/7/1/a.zarr.zip" Witness.stored) eq_refl _).
  vm_compute. reflexivity.
Defined.

(** ** Label slicing on sorted axes *)

Section Leading.

Variables p q : Q -> bool.




End Leading.

Lemma Qltb_lt (x y : Q) : Index.Qltb x y = true <-> (x < y)%Q.
Proof.
  unfold Index.Qltb. rewrite negb_true_iff, <- not_true_iff_false, Qle_bool_iff.
  split; [apply Qnot_le_lt | apply Qlt_not_le].
Qed.















(** ** The geographic selection *)

Lemma select_bbox_cons (first : Q) (rest lons : list Q) :
  converter.select_bbox (mkDataset (first :: rest) lons) =
  match
    (if Index.Qltb first (List.last (first :: rest) first)
     then Index.sel_slice converter.lat_min converter.lat_max (first :: rest)
     else Index.sel_slice converter.lat_max converter.lat_min (first :: rest))
  with
  | inl e => inl e
  | inr lats =>
      match Index.sel_slice converter.lon_min converter.lon_max lons with
      | inl e => inl e
      | inr lons' => inr (mkDataset lats lons')
      end
  end.
Proof. reflexivity. Qed.





(** ** An empty window *)

Lemma empty_window_check (bbox : dataset) :
  empty_window bbox ->
  (length (latitude bbox) =? 0)%nat || (length (longitude bbox) =? 0)%nat = true.
Proof. intros [H|H]; rewrite H; simpl; [reflexivity | apply orb_true_r]. Qed.

(** Whatever else fails, a converter that finds an empty window raises
    and leaves files, bucket and output untouched. *)
Lemma extract_empty_window (E : env) (filepath : string) (ds bbox : dataset) (w : world) :
  fs w !! Pathlib.Path filepath = Some (ZarrZip ds) ->
  converter.select_bbox ds = inr bbox ->
  empty_window bbox ->
  exists e new,
    converter.extract E filepath w =
      (Raise e, mkWorld (fs w) (s3 w) (calls w ++ new) (out w))
    /\ Forall before_write new
    /\ (e = ValueError ("Empty subset for " +:+ filepath)
        \/ exists c, extract_calls filepath c /\ fault E c = Some e)
    /\ ((forall c, extract_calls filepath c -> fault E c = None) ->
        e = ValueError ("Empty subset for " +:+ filepath)
        /\ new = [MkDtemp filepath; Unzip filepath; OpenZarr filepath; Rmtree filepath]).
Proof.
  intros Hfile Hsel Hempty. unfold converter.extract, converter.open_archive, outside. run.
  destruct (fault E (MkDtemp filepath)) as [e|] eqn:F1.
  { exists e, [MkDtemp filepath].
    split; [reflexivity|]. split; [repeat constructor|].
    split; [right; exists (MkDtemp filepath); split; [reflexivity | exact F1]|].
    intros H. rewrite H in F1 by reflexivity. discriminate F1. }
  run. destruct (fault E (Unzip filepath)) as [e|] eqn:F2.
  { exists e, [MkDtemp filepath; Unzip filepath; Rmtree filepath].
    run. rewrite <- !app_assoc.
    split; [reflexivity|]. split; [repeat constructor|].
    split; [right; exists (Unzip filepath); split; [reflexivity | exact F2]|].
    intros H. rewrite H in F2 by reflexivity. discriminate F2. }
  run. rewrite Hfile. destruct (fault E (OpenZarr filepath)) as [e|] eqn:F3.
  { exists e, [MkDtemp filepath; Unzip filepath; OpenZarr filepath; Rmtree filepath].
    run. rewrite <- !app_assoc.
    split; [reflexivity|]. split; [repeat constructor|].
    split; [right; exists (OpenZarr filepath); split; [reflexivity | exact F3]|].
    intros H. rewrite H in F3 by reflexivity. discriminate F3. }
  run. rewrite Hsel, (empty_window_check bbox Hempty). run.
  exists (ValueError ("Empty subset for " +:+ filepath)),
    [MkDtemp filepath; Unzip filepath; OpenZarr filepath; Rmtree filepath].
  rewrite <- !app_assoc.
  split; [reflexivity|]. split; [repeat constructor|].
  split; [left; reflexivity|]. intros _. split; reflexivity.
Qed.

Lemma gate_open_run (E : env) (repo_id : string) (d : date)
    (local_root s3_bucket s3_prefix : string) (force dryrun : bool) (remote_path : string)
    (w : world) :
  fault E (MakeDirs (local_dir d local_root)) = None ->
  gate_open E d s3_bucket s3_prefix force remote_path w ->
  process_file E repo_id d local_root s3_bucket s3_prefix force dryrun remote_path w =
  run_stages E repo_id d local_root s3_bucket s3_prefix force dryrun remote_path
    (gate_world d local_root s3_bucket s3_prefix force remote_path w).
Proof.
  intros Hmk Hgate. rewrite process_file_unfold. cbv zeta. unfold os_makedirs, gate_world. run.
  rewrite (outside_ok _ _ _ Hmk). run.
  destruct force.
  - run. reflexivity.
  - destruct Hgate as [Hf|Hex]; [discriminate|]. cbn [negb].
    rewrite s3_key_exists_run. unfold exists_answer in *. cbn [s3]. rewrite Hex.
    reflexivity.
Qed.

Lemma run_stages_empty_window (E : env) (repo_id : string) (d : date)
    (local_root s3_bucket s3_prefix : string) (force : bool) (remote_path : string)
    (ds bbox : dataset) (w : world) :
  let fetched := OsPath.join "./" remote_path in
  fault E (HfHubDownload repo_id remote_path "./" force) = None ->
  repo_file E repo_id remote_path = ZarrZip ds ->
  (forall c e, extract_calls fetched c -> fault E c = Some e -> is_Exception e = true) ->
  converter.select_bbox ds = inr bbox ->
  empty_window bbox ->
  exists new line,
    run_stages E repo_id d local_root s3_bucket s3_prefix force false remote_path w =
      (Ret (outcome_line FAILED_CONVERT d (OsPath.basename remote_path)),
       mkWorld (<[Pathlib.Path fetched := ZarrZip ds]> (fs w)) (s3 w)
         (calls w ++ HfHubDownload repo_id remote_path "./" force :: new)
         (out w ++ ["   Downloading HF file: " +:+ remote_path; "   Converting..."; line]))
    /\ Forall before_write new.
Proof.
  intros fetched Hdl Hfile Hexc Hsel Hempty.
  unfold run_stages, download, hf_hub_download. cbv zeta. run.
  rewrite (outside_ok _ _ _ Hdl). run. fold fetched. rewrite Hfile.
  match goal with |- context [converter.extract E fetched ?w1] =>
    destruct (extract_empty_window E fetched ds bbox w1) as (e & new & Hrun & Hnew & He & _);
      [cbn [fs]; apply lookup_insert_eq | exact Hsel | exact Hempty |]
  end.
  rewrite Hrun. run.
  assert (Hexn : is_Exception e = true).
  { destruct He as [->|(c & Hc & Hf)]; [reflexivity | eapply Hexc; eassumption]. }
  rewrite Hexn. run.
  exists new, ("    Conversion failed: " +:+ str_exn e).
  split; [|exact Hnew]. rewrite <- !app_assoc. reflexivity.
Qed.

(** C7. A downloaded archive whose selected window has no latitude or no
    longitude makes [converter.extract] raise before [to_netcdf]: it
    writes no file, and it raises [ValueError("Empty subset for ...")]
    when none of its own calls fails.  The file loop (not in dry-run, the
    gate being open and the download done) then appends
    [FAILED-CONVERT <date> <filename>]; the bucket is as it was, the only
    new local file is the download, and after the download only
    [mkdtemp], the unzip, [open_zarr] and [rmtree] were called: no
    [to_netcdf], no [upload_file]. *)
Theorem empty_window_fails (E : env) (repo_id : string) (d : date)
    (local_root s3_bucket s3_prefix : string) (force : bool) (remote_path : string)
    (ds bbox : dataset) (w : world)
    (Hmk : fault E (MakeDirs (local_dir d local_root)) = None)
    (Hgate : gate_open E d s3_bucket s3_prefix force remote_path w)
    (Hdl : fault E (HfHubDownload repo_id remote_path "./" force) = None)
    (Hfile : repo_file E repo_id remote_path = ZarrZip ds)
    (Hexc : forall c e, extract_calls (OsPath.join "./" remote_path) c ->
                        fault E c = Some e -> is_Exception e = true)
    (Hsel : converter.select_bbox ds = inr bbox)
    (Hempty : empty_window bbox) :
  let fetched := OsPath.join "./" remote_path in
  let filename := OsPath.basename remote_path in
  (forall w1, fs w1 !! Pathlib.Path fetched = Some (ZarrZip ds) ->
     exists e new,
       converter.extract E fetched w1 =
         (Raise e, mkWorld (fs w1) (s3 w1) (calls w1 ++ new) (out w1))
       /\ Forall before_write new
       /\ ((forall c, extract_calls fetched c -> fault E c = None) ->
           e = ValueError ("Empty subset for " +:+ fetched)))
  /\ exists w' new,
       process_file E repo_id d local_root s3_bucket s3_prefix force false remote_path w
         = (Ret (outcome_line FAILED_CONVERT d filename), w')
       /\ s3 w' = s3 w
       /\ fs w' = <[Pathlib.Path fetched := ZarrZip ds]> (fs w)
       /\ calls w' =
            calls (gate_world d local_root s3_bucket s3_prefix force remote_path w)
            ++ HfHubDownload repo_id remote_path "./" force :: new
       /\ Forall before_write new.
Proof.
  intros fetched filename. split.
  - intros w1 Hw1.
    destruct (extract_empty_window E fetched ds bbox w1 Hw1 Hsel Hempty)
      as (e & new & Hrun & Hnew & _ & Hval).
    exists e, new. split; [exact Hrun|]. split; [exact Hnew|].
    intros Hnf. apply (Hval Hnf).
  - rewrite (gate_open_run E repo_id d local_root s3_bucket s3_prefix force false remote_path w
               Hmk Hgate).
    destruct (run_stages_empty_window E repo_id d local_root s3_bucket s3_prefix force
                remote_path ds bbox
                (gate_world d local_root s3_bucket s3_prefix force remote_path w)
                Hdl Hfile Hexc Hsel Hempty) as (new & line & Hrun & Hnew).
    eexists; exists new. split; [exact Hrun|]. cbn [fs s3 calls].
    unfold gate_world. destruct force; cbn [fs s3 calls printed logged]; auto.
Qed.

Lemma empty_window_fails_witness :
  exists w' new,
    process_file Witness.south_env "repo" Sample.july1 "./data" "bucket" "prefix" false false
      "data/2025/7/1/a.zarr.zip" Sample.empty_world
      = (Ret (outcome_line FAILED_CONVERT Sample.july1 (OsPath.basename "data/2025/7/1/a.zarr.zip")), w')
    /\ s3 w' = s3 Sample.empty_world
    /\ fs w' = <[Pathlib.Path (OsPath.join "./" "data/2025/7/1/a.zarr.zip") := ZarrZip Witness.far_south]>
                 (fs Sample.empty_world)
    /\ calls w' =
         calls (gate_world Sample.july1 "./data" "bucket" "prefix" false
                  "data/2025/7/1/a.zarr.zip" Sample.empty_world)
         ++ HfHubDownload "repo" "data/2025/7/1/a.zarr.zip" "./" false :: new
    /\ Forall before_write new.
Proof.
  refine (proj2 (empty_window_fails Witness.south_env "repo" Sample.july1 "./data" "bucket"
                   "prefix" false "data/2025/7/1/a.zarr.zip" Witness.far_south
                   (mkDataset [] [11 # 1]%Q) Sample.empty_world
                   eq_refl _ eq_refl eq_refl _ eq_refl _)).
  - right. reflexivity.
  - intros c e _ H. discriminate H.
  - left. reflexivity.
Defined.

(** ** Reading a run backwards *)

Lemma bind_ret_inv {A B} (m : M A) (k : A -> M B) (w w' : world) (b : B) :
  bind m k w = (Ret b, w') -> exists a w1, m w = (Ret a, w1) /\ k a w1 = (Ret b, w').
Proof.
  unfold bind. destruct (m w) as [[a|e|] w1]; intros H; try discriminate H. eauto.
Qed.

Lemma attempt_inv {A} (m : M A) (w w1 : world) (r : exn + A) :
  attempt m w = (Ret r, w1) ->
  match r with
  | inr a => m w = (Ret a, w1)
  | inl e => m w = (Raise e, w1) /\ is_Exception e = true
  end.
Proof.
  unfold attempt, try_except, bind, ret.
  destruct (m w) as [[a|e|] w2]; simpl.
  - intros [= <- <-]. reflexivity.
  - destruct (is_Exception e) eqn:He; [|discriminate]. intros [= <- <-]. auto.
  - discriminate.
Qed.

(** What a successful conversion leaves behind. *)
Lemma extract_ret_inv (E : env) (filepath : string) (w w1 : world) (p : string) :
  converter.extract E filepath w = (Ret p, w1) ->
  exists bbox,
    p = Pathlib.to_str (converter.output_path filepath)
    /\ fs w1 = <[converter.output_path filepath := NetCDF bbox]> (fs w)
    /\ s3 w1 = s3 w.
Proof.
  unfold converter.extract, converter.open_archive, outside. run.
  destruct (fault E (MkDtemp filepath)); [discriminate|]. run.
  destruct (fault E (Unzip filepath)); [discriminate|]. run.
  destruct (fs w !! Pathlib.Path filepath) as [[ds| |]|]; try discriminate.
  destruct (fault E (OpenZarr filepath)); [discriminate|]. run.
  destruct (converter.select_bbox ds) as [e|bbox]; [discriminate|].
  destruct ((length (latitude bbox) =? 0)%nat || (length (longitude bbox) =? 0)%nat);
    [discriminate|].
  destruct (fault E (Load filepath)); [discriminate|]. run.
  destruct (fault E (ToNetcdf _)); [discriminate|]. run.
  intros [= <- <-]. exists bbox. auto.
Qed.

Lemma upload_keeps_files (E : env) (d : date) (s3_bucket s3_prefix : string) (dryrun : bool)
    (converted_path filename : string) (w : world) :
  fs (upload E d s3_bucket s3_prefix dryrun converted_path filename w).2 = fs w.
Proof.
  unfold upload, upload_to_s3, upload_file, outside. destruct dryrun; run; [reflexivity|].
  destruct (fault E _); run; [reflexivity|].
  destruct (fs w !! _); reflexivity.
Qed.

(** Cleanup touches one file, and lets only an [OSError] pass in silence. *)
Lemma cleanup_run (E : env) (d : date) (local_root filename : string) (w : world) :
  let target := local_original d local_root filename in
  let w1 := logged (Remove target) (printed "   Removing original..." w) in
  cleanup E d local_root filename w =
  match fault E (Remove target) with
  | Some e => if is_OSError e then (Ret tt, w1) else (Raise e, w1)
  | None =>
      (Ret tt, mkWorld (delete (Pathlib.Path target) (fs w)) (s3 w) (calls w1) (out w1))
  end.
Proof.
  intros target w1. unfold cleanup, os_remove, outside. fold target. run.
  destruct (fault E (Remove target)) as [e|]; run; [destruct (is_OSError e); reflexivity|].
  destruct (fs w !! Pathlib.Path target) eqn:Hlo; run; [reflexivity|].
  rewrite (delete_id _ _ Hlo). reflexivity.
Qed.

Lemma finish_keeps_files (E : env) (d : date) (local_root s3_bucket s3_prefix : string)
    (dryrun : bool) (filename converted_path : string) (w : world) (p : path) :
  p <> Pathlib.Path (local_original d local_root filename) ->
  fs (finish_stages E d local_root s3_bucket s3_prefix dryrun filename converted_path w).2 !! p
  = fs w !! p.
Proof.
  intros Hp. unfold finish_stages. run.
  match goal with |- context [upload E d s3_bucket s3_prefix dryrun converted_path filename ?w0] =>
    pose proof (upload_keeps_files E d s3_bucket s3_prefix dryrun converted_path filename w0) as Hup;
    destruct (upload E d s3_bucket s3_prefix dryrun converted_path filename w0) as [[u|e|] w1]
  end; cbn [fs snd] in Hup; run.
  - rewrite cleanup_run. cbv zeta.
    destruct (fault E _) as [e|]; [destruct (is_OSError e)|]; run; rewrite ?Hup; try reflexivity.
    apply lookup_delete_ne. congruence.
  - destruct (is_Exception e); run; rewrite Hup; reflexivity.
  - rewrite Hup. reflexivity.
Qed.

(** ** Which local files a computation may remove

    [keeps q m]: every local file other than [q] that exists before [m]
    still exists after it (possibly rewritten). *)

Section Keeps.

Context {A B : Type} (q : path).

Lemma keeps_ret (a : A) : keeps q (ret a).
Proof. intros w p _ Hp. exact Hp. Qed.

Lemma keeps_raise (e : exn) : keeps q (@raise A e).
Proof. intros w p _ Hp. exact Hp. Qed.

Lemma keeps_get_world : keeps q get_world.
Proof. intros w p _ Hp. exact Hp. Qed.

Lemma keeps_print (line : string) : keeps q (print line).
Proof. intros w p _ Hp. exact Hp. Qed.

Lemma keeps_put_object (bucket key : string) (c : content) : keeps q (put_object bucket key c).
Proof. intros w p _ Hp. exact Hp. Qed.

Lemma keeps_outside (E : env) (c : call) : keeps q (outside E c).
Proof. intros w p _ Hp. unfold outside. destruct (fault E c); exact Hp. Qed.

Lemma keeps_rmtree (filepath : string) :
  keeps q (fun w => (Ret tt, mkWorld (fs w) (s3 w) (calls w ++ [Rmtree filepath]) (out w))).
Proof. intros w p _ Hp. exact Hp. Qed.

Lemma keeps_write_file (p : path) (c : content) : keeps q (write_file p c).
Proof.
  intros w p' _ Hp. cbn [write_file snd fs].
  destruct (decide (p = p')) as [->|Hne];
    [rewrite lookup_insert_eq; eauto | rewrite lookup_insert_ne; assumption].
Qed.

Lemma keeps_delete_file : keeps q (delete_file q).
Proof.
  intros w p Hne Hp. cbn [delete_file snd fs]. rewrite lookup_delete_ne; [exact Hp | congruence].
Qed.

Lemma keeps_bind (m : M A) (k : A -> M B) :
  keeps q m -> (forall a, keeps q (k a)) -> keeps q (bind m k).
Proof.
  intros Hm Hk w p Hne Hp. unfold bind. specialize (Hm w p Hne Hp).
  destruct (m w) as [[a|e|] w1]; simpl in *; auto. apply Hk; assumption.
Qed.

Lemma keeps_try_except (m : M A) (catches : exn -> bool) (h : exn -> M A) :
  keeps q m -> (forall e, keeps q (h e)) -> keeps q (try_except m catches h).
Proof.
  intros Hm Hh w p Hne Hp. unfold try_except. specialize (Hm w p Hne Hp).
  destruct (m w) as [[a|e|] w1]; simpl in *; auto.
  destruct (catches e); simpl; auto. apply Hh; assumption.
Qed.

Lemma keeps_try_finally (m : M A) (fin : M unit) :
  keeps q m -> keeps q fin -> keeps q (try_finally m fin).
Proof.
  intros Hm Hf w p Hne Hp. unfold try_finally. specialize (Hm w p Hne Hp).
  destruct (m w) as [r w1]; simpl in *. specialize (Hf w1 p Hne Hm).
  destruct (fin w1) as [[u|e|] w2]; simpl in *; auto.
Qed.

End Keeps.

Lemma keeps_attempt {A} (q : path) (m : M A) : keeps q m -> keeps q (attempt m).
Proof.
  intros Hm. unfold attempt. apply keeps_try_except.
  - apply keeps_bind; [exact Hm | intros a; apply keeps_ret].
  - intros e; apply keeps_ret.
Qed.

Ltac keeps_step :=
  lazymatch goal with
  | |- keeps _ (bind _ _) => apply keeps_bind; [| intros ?]
  | |- keeps _ (ret _) => apply keeps_ret
  | |- keeps _ (raise _) => apply keeps_raise
  | |- keeps _ get_world => apply keeps_get_world
  | |- keeps _ (print _) => apply keeps_print
  | |- keeps _ (write_file _ _) => apply keeps_write_file
  | |- keeps _ (delete_file _) => apply keeps_delete_file
  | |- keeps _ (put_object _ _ _) => apply keeps_put_object
  | |- keeps _ (outside _ _) => apply keeps_outside
  | |- keeps _ (try_except _ _ _) => apply keeps_try_except; [| intros ?]
  | |- keeps _ (try_finally _ _) => apply keeps_try_finally; [| apply keeps_rmtree]
  | |- keeps _ (attempt _) => apply keeps_attempt
  | |- keeps _ (match ?x with _ => _ end) => destruct x
  | |- keeps _ (let _ := _ in _) => cbv zeta
  end.

Lemma process_file_keeps (E : env) (repo_id : string) (d : date)
    (local_root s3_bucket s3_prefix : string) (force dryrun : bool) (remote_path : string) :
  keeps (Pathlib.Path (local_original d local_root (OsPath.basename remote_path)))
    (process_file E repo_id d local_root s3_bucket s3_prefix force dryrun remote_path).
Proof.
  unfold process_file, s3_key_exists, head_object, download, hf_hub_download, open_write_empty,
    time_sleep, upload, upload_to_s3, upload_file, cleanup, os_remove, os_makedirs,
    converter.extract, converter.open_archive.
  repeat keeps_step.
Qed.

(** An [OK] or [FAILED-UPLOAD] line tells that the converted file is on
    disk. *)
Lemma run_stages_converted (E : env) (repo_id : string) (d : date)
    (local_root s3_bucket s3_prefix : string) (force dryrun : bool) (remote_path : string)
    (w w' : world) (line : string) :
  let filename := OsPath.basename remote_path in
  let fetched := downloaded_path d local_root dryrun remote_path in
  Str.endswith remote_path ".zarr.zip" = true ->
  run_stages E repo_id d local_root s3_bucket s3_prefix force dryrun remote_path w = (Ret line, w') ->
  line = outcome_line OK d filename \/ line = outcome_line FAILED_UPLOAD d filename ->
  exists bbox, fs w' !! converter.output_path fetched = Some (NetCDF bbox).
Proof.
  intros filename fetched Harch Hrun Hline.
  assert (Hst : forall st, line = outcome_line st d filename -> st = OK \/ st = FAILED_UPLOAD).
  { intros st ->. destruct Hline as [H|H]; apply outcome_line_inj in H; auto. }
  unfold run_stages in Hrun. cbv zeta in Hrun. fold filename in Hrun.
  apply bind_ret_inv in Hrun as (u & w1 & _ & Hrun).
  apply bind_ret_inv in Hrun as (dl & w2 & Hdl & Hrun).
  destruct dl as [e|p].
  { apply bind_ret_inv in Hrun as (? & ? & _ & [= Hl _]).
    destruct (Hst FAILED_DOWNLOAD (eq_sym Hl)); discriminate. }
  pose proof (returns_attempt _ _
                (download_returns E repo_id d local_root s3_bucket s3_prefix force dryrun remote_path)
                w1 (inr p)) as Hp.
  fold filename in Hp. rewrite Hdl in Hp. specialize (Hp eq_refl). cbv beta iota in Hp.
  subst p. fold fetched in Hrun.
  apply bind_ret_inv in Hrun as (u2 & w3 & _ & Hrun).
  apply bind_ret_inv in Hrun as (cv & w4 & Hcv & Hrun).
  destruct cv as [e|converted].
  { apply bind_ret_inv in Hrun as (? & ? & _ & [= Hl _]).
    destruct (Hst FAILED_CONVERT (eq_sym Hl)); discriminate. }
  apply attempt_inv in Hcv. apply extract_ret_inv in Hcv as (bbox & _ & Hfs & _).
  change (finish_stages E d local_root s3_bucket s3_prefix dryrun filename converted w4
          = (Ret line, w')) in Hrun.
  exists bbox.
  pose proof (finish_keeps_files E d local_root s3_bucket s3_prefix dryrun filename converted w4
                (converter.output_path fetched)
                (output_is_not_original d local_root dryrun remote_path Harch)) as Hk.
  rewrite Hrun in Hk. cbn [snd] in Hk. rewrite Hk, Hfs. apply lookup_insert_eq.
Qed.

Lemma process_file_converted (E : env) (repo_id : string) (d : date)
    (local_root s3_bucket s3_prefix : string) (force dryrun : bool) (remote_path : string)
    (w w' : world) (line : string) :
  let filename := OsPath.basename remote_path in
  let fetched := downloaded_path d local_root dryrun remote_path in
  Str.endswith remote_path ".zarr.zip" = true ->
  process_file E repo_id d local_root s3_bucket s3_prefix force dryrun remote_path w
    = (Ret line, w') ->
  line = outcome_line OK d filename \/ line = outcome_line FAILED_UPLOAD d filename ->
  exists bbox, fs w' !! converter.output_path fetched = Some (NetCDF bbox).
Proof.
  intros filename fetched Harch Hrun Hline.
  rewrite process_file_unfold in Hrun. cbv zeta in Hrun. fold filename in Hrun.
  apply bind_ret_inv in Hrun as (u & w1 & _ & Hrun).
  apply bind_ret_inv in Hrun as (u1 & w2 & _ & Hrun).
  apply bind_ret_inv in Hrun as (skip & w3 & _ & Hrun).
  destruct skip.
  - apply bind_ret_inv in Hrun as (? & ? & _ & [= Hl _]). subst line.
    destruct Hline as [H|H]; apply outcome_line_inj in H; discriminate.
  - eapply run_stages_converted; eassumption.
Qed.

(** X24. What cleanup removes.  In one iteration of the file loop the
    only file ever handed to [os.remove] is [local_original], the path
    under [local_root], and every other local file that existed before
    the iteration still exists after it.  Cleanup swallows an [OSError]
    of [os.remove] and nothing else: any other exception is raised to the
    caller.  An iteration that ends in [OK] or in [FAILED-UPLOAD] (for a
    file whose path ends in [.zarr.zip], as every listed file does)
    leaves the converted NetCDF file on disk, next to the file the
    converter was given. *)
Theorem cleanup_removes_only_original (E : env) (repo_id : string) (d : date)
    (local_root s3_bucket s3_prefix : string) (force dryrun : bool) (remote_path : string)
    (w : world) :
  let filename := OsPath.basename remote_path in
  let target := local_original d local_root filename in
  let fetched := downloaded_path d local_root dryrun remote_path in
  let process := process_file E repo_id d local_root s3_bucket s3_prefix force dryrun remote_path in
  emits (removes_only target) process
  /\ keeps (Pathlib.Path target) process
  /\ cleanup E d local_root filename w =
       (let w1 := logged (Remove target) (printed "   Removing original..." w) in
        match fault E (Remove target) with
        | Some e => if is_OSError e then (Ret tt, w1) else (Raise e, w1)
        | None =>
            (Ret tt, mkWorld (delete (Pathlib.Path target) (fs w)) (s3 w) (calls w1) (out w1))
        end)
  /\ (forall line w',
        Str.endswith remote_path ".zarr.zip" = true ->
        process w = (Ret line, w') ->
        line = outcome_line OK d filename \/ line = outcome_line FAILED_UPLOAD d filename ->
        exists bbox, fs w' !! converter.output_path fetched = Some (NetCDF bbox)).
Proof.
  intros filename target fetched process. subst process.
  split; [|split; [|split]].
  - eapply emits_weaken; [|apply process_file_emits].
    intros c Hc. destruct c; simpl in *; auto.
  - apply process_file_keeps.
  - apply cleanup_run.
  - intros line w' Harch Hrun Hline. eapply process_file_converted; eassumption.
Qed.

Lemma cleanup_removes_only_original_witness :
  exists bbox,
    fs (process_file Sample.calm "repo" Sample.july1 "./data" "bucket" "prefix" false false
          "data/2025/7/1/a.zarr.zip" Sample.empty_world).2
    !! converter.output_path
         (downloaded_path Sample.july1 "./data" false "data/2025/7/1/a.zarr.zip")
    = Some (NetCDF bbox).
Proof.
  refine (proj2 (proj2 (proj2
            (cleanup_removes_only_original Sample.calm "repo" Sample.july1 "./data" "bucket"
               "prefix" false false "data/2025/7/1/a.zarr.zip" Sample.empty_world)))
            (outcome_line OK Sample.july1 (OsPath.basename "data/2025/7/1/a.zarr.zip"))
            _ eq_refl _ (or_introl eq_refl)).
  vm_compute. reflexivity.
Defined.

(** ** Where the download lands *)

(** Outside dry-run the download is asked for under ["./"], at the path
    the file has in the repository: [local_root] plays no part. *)
Lemma download_ignores_local_root (E : env) (repo_id : string) (d : date)
    (local_root force_root : string) (force : bool) (remote_path filename : string) :
  download E repo_id d local_root force false remote_path filename
  = download E repo_id d force_root force false remote_path filename.
Proof. reflexivity. Qed.

(** C8, on the failing input [local_root = "/tmp/stage"]. The run ends
    in [OK], yet the staging directory [/tmp/stage/2025/7/1] holds
    neither the archive nor the converted file: both are under
    [./data/2025/7/1], where the archive also stays, because cleanup
    removes the path under [local_root]. *)
Theorem staging_outside_local_root :
  let run := process_file Sample.calm "repo" Sample.july1 "/tmp/stage" "bucket" "prefix"
               false false "data/2025/7/1/a.zarr.zip" Sample.empty_world in
  run.1 = Ret "OK 2025-07-01 a.zarr.zip"
  /\ local_original Sample.july1 "/tmp/stage" "a.zarr.zip" = "/tmp/stage/2025/7/1/a.zarr.zip"
  /\ fs run.2 !! Pathlib.Path "/tmp/stage/2025/7/1/a.zarr.zip" = None
  /\ fs run.2 !! Pathlib.Path "/tmp/stage/2025/7/1/a.nc" = None
  /\ fs run.2 !! Pathlib.Path "./data/2025/7/1/a.zarr.zip" = Some (ZarrZip Sample.grid)
  /\ fs run.2 !! Pathlib.Path "./data/2025/7/1/a.nc"
     = Some (NetCDF (mkDataset [460 # 10]%Q [11 # 1]%Q))
  /\ calls run.2 =
       [MakeDirs "/tmp/stage/2025/7/1";
        HeadObject "bucket" "prefix/2025/07/01/a.nc";
        HfHubDownload "repo" "data/2025/7/1/a.zarr.zip" "./" false;
        MkDtemp "./data/2025/7/1/a.zarr.zip"; Unzip "./data/2025/7/1/a.zarr.zip";
        OpenZarr "./data/2025/7/1/a.zarr.zip"; Load "./data/2025/7/1/a.zarr.zip";
        ToNetcdf "data/2025/7/1/a.nc"; Rmtree "./data/2025/7/1/a.zarr.zip";
        UploadFile "data/2025/7/1/a.nc" "bucket" "prefix/2025/07/01/a.nc";
        Remove "/tmp/stage/2025/7/1/a.zarr.zip"].
Proof. vm_compute. repeat split; reflexivity. Qed.

(** The file of [Staged.left_over] is what a dry run with the same
    [local_root] leaves behind. *)
Example dry_run_leaves_left_over :
  fs (process_file Sample.calm "repo" Sample.july1 "/tmp/stage" "bucket" "prefix"
        false true "data/2025/7/1/a.zarr.zip" Sample.empty_world).2
  = fs Staged.left_over.
Proof. vm_compute. reflexivity. Qed.

(** C10, on the failing input [local_root = "/tmp/stage"], with a file
    already at [/tmp/stage/2025/7/1/a.zarr.zip].  The iteration ends in
    [OK].  Its one [os.remove] is on the path under [local_root]: the file
    that was there is deleted, though the iteration did not fetch it; the
    archive that was fetched, [./data/2025/7/1/a.zarr.zip], stays on disk;
    and the converted file is next to it, not in the staging directory
    [/tmp/stage/2025/7/1]. *)
Theorem cleanup_misses_the_fetched_archive :
  let run := process_file Sample.calm "repo" Sample.july1 "/tmp/stage" "bucket" "prefix"
               false false "data/2025/7/1/a.zarr.zip" Staged.left_over in
  run.1 = Ret "OK 2025-07-01 a.zarr.zip"
  /\ fs Staged.left_over !! Pathlib.Path "/tmp/stage/2025/7/1/a.zarr.zip" = Some (Raw EmptyString)
  /\ fs run.2 !! Pathlib.Path "/tmp/stage/2025/7/1/a.zarr.zip" = None
  /\ fs run.2 !! Pathlib.Path "./data/2025/7/1/a.zarr.zip" = Some (ZarrZip Sample.grid)
  /\ fs run.2 !! Pathlib.Path "./data/2025/7/1/a.nc"
     = Some (NetCDF (mkDataset [460 # 10]%Q [11 # 1]%Q))
  /\ fs run.2 !! Pathlib.Path "/tmp/stage/2025/7/1/a.nc" = None
  /\ calls run.2 =
       [MakeDirs "/tmp/stage/2025/7/1";
        HeadObject "bucket" "prefix/2025/07/01/a.nc";
        HfHubDownload "repo" "data/2025/7/1/a.zarr.zip" "./" false;
        MkDtemp "./data/2025/7/1/a.zarr.zip"; Unzip "./data/2025/7/1/a.zarr.zip";
        OpenZarr "./data/2025/7/1/a.zarr.zip"; Load "./data/2025/7/1/a.zarr.zip";
        ToNetcdf "data/2025/7/1/a.nc"; Rmtree "./data/2025/7/1/a.zarr.zip";
        UploadFile "data/2025/7/1/a.nc" "bucket" "prefix/2025/07/01/a.nc";
        Remove "/tmp/stage/2025/7/1/a.zarr.zip"].
Proof. vm_compute. repeat split; reflexivity. Qed.

(** With the default [local_root = "./data"] and the repository layout
    [data/<y>/<m>/<d>/] the two places coincide, and cleanup removes the
    archive. *)
Example staging_default_root :
  let run := process_file Sample.calm "repo" Sample.july1 "./data" "bucket" "prefix"
               false false "data/2025/7/1/a.zarr.zip" Sample.empty_world in
  run.1 = Ret "OK 2025-07-01 a.zarr.zip"
  /\ fs run.2 !! Pathlib.Path "./data/2025/7/1/a.zarr.zip" = None
  /\ fs run.2 !! Pathlib.Path "./data/2025/7/1/a.nc"
     = Some (NetCDF (mkDataset [460 # 10]%Q [11 # 1]%Q)).
Proof. vm_compute. repeat split; reflexivity. Qed.

(** ** Runs in which no exception escapes a handler *)

Section Safe.

Context {A B : Type}.

Lemma safe_ret (a : A) : safe (ret a).
Proof. intros w. exact I. Qed.

Lemma safe_raise (e : exn) : is_Exception e = true -> safe (@raise A e).
Proof. intros H w. exact H. Qed.

Lemma safe_get_world : safe get_world.
Proof. intros w. exact I. Qed.

Lemma safe_print (line : string) : safe (print line).
Proof. intros w. exact I. Qed.

Lemma safe_write_file (p : path) (c : content) : safe (write_file p c).
Proof. intros w. exact I. Qed.

Lemma safe_delete_file (p : path) : safe (delete_file p).
Proof. intros w. exact I. Qed.

Lemma safe_put_object (bucket key : string) (c : content) : safe (put_object bucket key c).
Proof. intros w. exact I. Qed.

Lemma safe_outside (E : env) (c : call) :
  (forall e, fault E c = Some e -> is_Exception e = true) -> safe (outside E c).
Proof. intros H w. unfold outside. destruct (fault E c) as [e|]; simpl; auto. Qed.

Lemma safe_bind (m : M A) (k : A -> M B) :
  safe m -> (forall a, safe (k a)) -> safe (bind m k).
Proof.
  intros Hm Hk w. unfold bind. specialize (Hm w).
  destruct (m w) as [[a|e|] w1]; simpl in *; auto. apply Hk.
Qed.

Lemma safe_try_finally_rmtree (m : M A) (filepath : string) :
  safe m ->
  safe (try_finally m
          (fun w => (Ret tt, mkWorld (fs w) (s3 w) (calls w ++ [Rmtree filepath]) (out w)))).
Proof.
  intros Hm w. unfold try_finally. specialize (Hm w).
  destruct (m w) as [r w1]; simpl in *. exact Hm.
Qed.

Lemma total_ret (R : A -> Prop) (a : A) : R a -> total R (ret a).
Proof. intros H w. exists a. auto. Qed.

Lemma total_bind (R1 : A -> Prop) (R : B -> Prop) (m : M A) (k : A -> M B) :
  total R1 m -> (forall a, R1 a -> total R (k a)) -> total R (bind m k).
Proof.
  intros Hm Hk w. unfold bind. destruct (Hm w) as (a & Ha & HR).
  destruct (m w) as [r w1]; simpl in *; subst r. apply Hk, HR.
Qed.

Lemma total_attempt (m : M A) : safe m -> total (fun _ => True) (attempt m).
Proof.
  intros Hm w. unfold attempt, try_except, bind, ret. specialize (Hm w).
  destruct (m w) as [[a|e|] w1]; simpl in *; [eauto | rewrite Hm; simpl; eauto | contradiction].
Qed.

Lemma total_weaken (R1 R2 : A -> Prop) (m : M A) :
  (forall a, R1 a -> R2 a) -> total R1 m -> total R2 m.
Proof. intros H Hm w. destruct (Hm w) as (a & Ha & HR). eauto. Qed.

End Safe.

Lemma total_print (line : string) : total (fun _ => True) (print line).
Proof. intros w. exists tt. auto. Qed.

Lemma total_outside (E : env) (c : call) :
  fault E c = None -> total (fun _ => True) (outside E c).
Proof. intros H w. unfold outside. rewrite H. exists tt. auto. Qed.

Ltac safe_step :=
  lazymatch goal with
  | |- safe (bind _ _) => apply safe_bind; [| intros ?]
  | |- safe (ret _) => apply safe_ret
  | |- safe (raise _) => apply safe_raise
  | |- safe get_world => apply safe_get_world
  | |- safe (print _) => apply safe_print
  | |- safe (write_file _ _) => apply safe_write_file
  | |- safe (delete_file _) => apply safe_delete_file
  | |- safe (put_object _ _ _) => apply safe_put_object
  | |- safe (outside _ _) => apply safe_outside
  | |- safe (try_finally _ _) => apply safe_try_finally_rmtree
  | |- safe (match ?x with _ => _ end) => destruct x eqn:?
  | |- safe (let _ := _ in _) => cbv zeta
  end.

Section WellBehaved.

Variable E : env.
Hypothesis Hwb : well_behaved E.

Lemma sel_slice_exception (lo hi : Q) (l : list Q) (e : exn) :
  Index.sel_slice lo hi l = inl e -> is_Exception e = true.
Proof.
  unfold Index.sel_slice, Index.slice_locs.
  destruct (Index.is_monotonic_increasing l); [discriminate|].
  destruct (Index.is_monotonic_decreasing l); [discriminate|].
  destruct (Index.get_loc lo l) as [[a a']|];
    [destruct (Index.get_loc hi l) as [[b b']|]|]; try discriminate;
    intros [= <-]; reflexivity.
Qed.

Lemma select_bbox_exception (ds : dataset) (e : exn) :
  converter.select_bbox ds = inl e -> is_Exception e = true.
Proof.
  unfold converter.select_bbox.
  destruct (latitude ds) as [|first rest]; [intros [= <-]; reflexivity|].
  destruct (Index.Qltb first _).
  - destruct (Index.sel_slice converter.lat_min converter.lat_max _) as [e1|lats] eqn:H1.
    + intros [= <-]. eapply sel_slice_exception; eassumption.
    + destruct (Index.sel_slice converter.lon_min _ _) as [e2|lons] eqn:H2; [|discriminate].
      intros [= <-]. eapply sel_slice_exception; eassumption.
  - destruct (Index.sel_slice converter.lat_max converter.lat_min _) as [e1|lats] eqn:H1.
    + intros [= <-]. eapply sel_slice_exception; eassumption.
    + destruct (Index.sel_slice converter.lon_min _ _) as [e2|lons] eqn:H2; [|discriminate].
      intros [= <-]. eapply sel_slice_exception; eassumption.
Qed.

Lemma extract_safe (filepath : string) : safe (converter.extract E filepath).
Proof.
  unfold converter.extract, converter.open_archive.
  repeat safe_step;
    try (intros e He; exact (Hwb _ _ He)); try reflexivity.
  eapply select_bbox_exception; eassumption.
Qed.

Lemma download_safe (repo_id : string) (d : date) (local_root : string) (force dryrun : bool)
    (remote_path filename : string) :
  safe (download E repo_id d local_root force dryrun remote_path filename).
Proof.
  unfold download, hf_hub_download, open_write_empty, time_sleep.
  repeat safe_step; intros e He; exact (Hwb _ _ He).
Qed.

Lemma upload_safe (d : date) (s3_bucket s3_prefix : string) (dryrun : bool)
    (converted_path filename : string) :
  safe (upload E d s3_bucket s3_prefix dryrun converted_path filename).
Proof.
  unfold upload, upload_to_s3, upload_file.
  repeat safe_step; try (intros e He; exact (Hwb _ _ He)); reflexivity.
Qed.

Lemma cleanup_total (d : date) (local_root filename : string) :
  total (fun _ => True) (cleanup E d local_root filename).
Proof.
  intros w. rewrite cleanup_run. cbv zeta.
  destruct (fault E (Remove _)) as [e|] eqn:He; [|exists tt; auto].
  pose proof (Hwb _ _ He) as Hos. simpl in Hos. rewrite Hos. exists tt; auto.
Qed.

Lemma s3_key_exists_total (bucket key : string) :
  total (fun _ => True) (s3_key_exists E bucket key).
Proof.
  intros w. rewrite s3_key_exists_run. unfold exists_answer. cbn [fst].
  destruct (fault E (HeadObject bucket key)) as [e|] eqn:He; [|eauto].
  pose proof (Hwb _ _ He) as Hc. simpl in Hc. rewrite Hc. eauto.
Qed.

(** Every iteration of the file loop appends one line about its file. *)
Lemma process_file_total (repo_id : string) (d : date)
    (local_root s3_bucket s3_prefix : string) (force dryrun : bool) (remote_path : string) :
  total (fun line => exists st, line = outcome_line st d (OsPath.basename remote_path))
    (process_file E repo_id d local_root s3_bucket s3_prefix force dryrun remote_path).
Proof.
  unfold process_file. cbv zeta.
  eapply total_bind.
  { apply total_outside. destruct (fault E (MakeDirs _)) as [e|] eqn:He; [|reflexivity].
    destruct (Hwb _ _ He). }
  intros _ _. eapply total_bind; [apply total_print|]. intros _ _.
  eapply total_bind.
  { destruct (negb force); [apply s3_key_exists_total | apply total_ret; exact I]. }
  intros skip _. destruct skip.
  { eapply total_bind; [apply total_print|]. intros _ _. apply total_ret. eauto. }
  eapply total_bind; [apply total_print|]. intros _ _.
  eapply total_bind; [apply total_attempt, download_safe|]. intros [e|fetched] _.
  { eapply total_bind; [apply total_print|]. intros _ _. apply total_ret. eauto. }
  eapply total_bind; [apply total_print|]. intros _ _.
  eapply total_bind; [apply total_attempt, extract_safe|]. intros [e|converted] _.
  { eapply total_bind; [apply total_print|]. intros _ _. apply total_ret. eauto. }
  eapply total_bind; [apply total_print|]. intros _ _.
  eapply total_bind; [apply total_attempt, upload_safe|]. intros [e|u] _.
  { eapply total_bind; [apply total_print|]. intros _ _. apply total_ret. eauto. }
  eapply total_bind; [apply cleanup_total|]. intros _ _.
  eapply total_bind; [apply total_print|]. intros _ _. apply total_ret. eauto.
Qed.

Lemma process_files_total (repo_id : string) (d : date)
    (local_root s3_bucket s3_prefix : string) (force dryrun : bool) (hf_files : list string) :
  total (fun results => Forall2 (line_of_file d) hf_files results)
    (process_files E repo_id d local_root s3_bucket s3_prefix force dryrun hf_files).
Proof.
  induction hf_files as [|f rest IH]; cbn [process_files].
  - apply total_ret. constructor.
  - eapply total_bind; [apply process_file_total|]. intros line Hline.
    eapply total_bind; [exact IH|]. intros results Hres.
    apply total_ret. constructor; assumption.
Qed.

Lemma list_hf_files_total (repo_id : string) (d : date) :
  total (fun files => files = listed E repo_id d) (list_hf_files_for_date E repo_id d).
Proof.
  intros w. rewrite list_hf_files_for_date_run. unfold listed.
  destruct (fault E (ListRepoTree repo_id (folder_path d))) as [e|] eqn:He.
  - pose proof (Hwb _ _ He) as Hc. simpl in Hc. rewrite Hc. eauto.
  - destruct (fault E (ReadRepoTree repo_id (folder_path d))) as [e|] eqn:Hr; [|eauto].
    destruct (Hwb _ _ Hr).
Qed.

(** The day processor returns one line per listed file, in listing
    order. *)
Lemma process_single_day_total (repo_id : string) (d : date)
    (local_root s3_bucket s3_prefix : string) (force dryrun : bool) :
  total (fun results => Forall2 (line_of_file d) (listed E repo_id d) results)
    (process_single_day E repo_id d local_root s3_bucket s3_prefix force dryrun).
Proof.
  unfold process_single_day.
  eapply total_bind.
  { instantiate (1 := fun _ => True). destruct dryrun; [apply total_print | apply total_ret; exact I]. }
  intros _ _. eapply total_bind; [apply total_print|]. intros _ _.
  eapply total_bind; [apply list_hf_files_total|]. intros files ->.
  destruct (listed E repo_id d) as [|f rest] eqn:Hl.
  - eapply total_bind; [apply total_print|]. intros _ _. apply total_ret. constructor.
  - rewrite <- Hl. apply process_files_total.
Qed.

End WellBehaved.

(** ** Calendar facts *)

Lemma leb_spec (a b : date) :
  Date.leb a b = true <->
  year a < year b \/ (year a = year b /\ (month a < month b \/ (month a = month b /\ day a <= day b))).
Proof.
  unfold Date.leb.
  rewrite !orb_true_iff, !andb_true_iff, !orb_true_iff, !andb_true_iff.
  rewrite !Z.ltb_lt, !Z.eqb_eq, Z.leb_le. tauto.
Qed.

Lemma ltb_spec (a b : date) :
  Date.ltb a b = true <->
  year a < year b \/ (year a = year b /\ (month a < month b \/ (month a = month b /\ day a < day b))).
Proof.
  unfold Date.ltb.
  rewrite !orb_true_iff, !andb_true_iff, !orb_true_iff, !andb_true_iff.
  rewrite !Z.ltb_lt, !Z.eqb_eq. tauto.
Qed.

Lemma next_day_cases (d : date) :
  (day d < Date.days_in_month (year d) (month d)
   /\ Date.next_day d = Some (mkDate (year d) (month d) (day d + 1)))
  \/ (Date.days_in_month (year d) (month d) <= day d /\ month d < 12
      /\ Date.next_day d = Some (mkDate (year d) (month d + 1) 1))
  \/ (Date.days_in_month (year d) (month d) <= day d /\ 12 <= month d /\ year d < 9999
      /\ Date.next_day d = Some (mkDate (year d + 1) 1 1))
  \/ (Date.days_in_month (year d) (month d) <= day d /\ 12 <= month d /\ 9999 <= year d
      /\ Date.next_day d = None).
Proof.
  unfold Date.next_day.
  destruct (Z.ltb_spec (day d) (Date.days_in_month (year d) (month d))); [auto|].
  destruct (Z.ltb_spec (month d) 12); [auto|].
  destruct (Z.ltb_spec (year d) 9999); auto 10.
Qed.

Lemma next_day_valid (d d' : date) :
  Date.valid d -> Date.next_day d = Some d' -> Date.valid d'.
Proof.
  unfold Date.valid. intros (Hy & Hm & Hd) Hn.
  destruct (next_day_cases d) as [(H1 & E1)|[(H1 & H2 & E1)|[(H1 & H2 & H3 & E1)|(_ & _ & _ & E1)]]];
    rewrite E1 in Hn; try discriminate; injection Hn as <-; simpl.
  - lia.
  - pose proof (days_in_month_bound (year d) (month d + 1)). lia.
  - pose proof (days_in_month_bound (year d + 1) 1). lia.
Qed.

Lemma next_day_rank (d d' : date) :
  Date.valid d -> Date.next_day d = Some d' -> Date.rank d < Date.rank d'.
Proof.
  unfold Date.valid, Date.rank. intros (Hy & Hm & Hd) Hn.
  pose proof (days_in_month_bound (year d) (month d)).
  destruct (next_day_cases d) as [(H1 & E1)|[(H1 & H2 & E1)|[(H1 & H2 & H3 & E1)|(_ & _ & _ & E1)]]];
    rewrite E1 in Hn; try discriminate; injection Hn as <-; simpl; lia.
Qed.

Lemma next_day_ltb (d d' : date) :
  Date.valid d -> Date.next_day d = Some d' -> Date.ltb d d' = true.
Proof.
  unfold Date.valid. intros (Hy & Hm & Hd) Hn. apply ltb_spec.
  destruct (next_day_cases d) as [(H1 & E1)|[(H1 & H2 & E1)|[(H1 & H2 & H3 & E1)|(_ & _ & _ & E1)]]];
    rewrite E1 in Hn; try discriminate; injection Hn as <-; simpl; lia.
Qed.

(** No day lies between a day and the next. *)
Lemma next_day_least (d d' x : date) :
  Date.valid d -> Date.valid x -> Date.next_day d = Some d' ->
  Date.ltb d x = true -> Date.leb d' x = true.
Proof.
  unfold Date.valid. intros (Hy & Hm & Hd) (Hxy & Hxm & Hxd) Hn Hlt.
  apply ltb_spec in Hlt. apply leb_spec.
  destruct (next_day_cases d) as [(H1 & E1)|[(H1 & H2 & E1)|[(H1 & H2 & H3 & E1)|(_ & _ & _ & E1)]]];
    rewrite E1 in Hn; try discriminate; injection Hn as <-; simpl.
  - lia.
  - destruct Hlt as [?|(Ey & [?|(Em & ?)])]; try lia.
    rewrite <- Ey, <- Em in Hxd. lia.
  - destruct Hlt as [?|(Ey & [?|(Em & ?)])]; try lia.
    rewrite <- Ey, <- Em in Hxd. lia.
Qed.

Lemma leb_rank (a b : date) :
  Date.valid a -> Date.valid b -> Date.leb a b = true -> Date.rank a <= Date.rank b.
Proof.
  unfold Date.valid, Date.rank. intros (Hy & Hm & Hd) (Hy' & Hm' & Hd') H.
  apply leb_spec in H.
  pose proof (days_in_month_bound (year a) (month a)).
  pose proof (days_in_month_bound (year b) (month b)). lia.
Qed.

Lemma leb_ltb_or_eq (a b : date) :
  Date.leb a b = true -> Date.ltb a b = true \/ a = b.
Proof.
  rewrite leb_spec, ltb_spec. destruct a, b; simpl. intros H.
  destruct (Z.eq_dec day0 day1) as [->|]; [|left; lia].
  destruct H as [?|(-> & [?|(-> & _)])]; [left; lia | left; lia | right; reflexivity].
Qed.

Lemma ltb_leb (a b : date) : Date.ltb a b = true -> Date.leb a b = true.
Proof. rewrite leb_spec, ltb_spec. lia. Qed.

Lemma ltb_leb_trans (a b c : date) :
  Date.ltb a b = true -> Date.leb b c = true -> Date.ltb a c = true.
Proof. rewrite !ltb_spec, leb_spec. lia. Qed.

Lemma leb_refl (a : date) : Date.leb a a = true.
Proof. apply leb_spec. lia. Qed.

(** Only [datetime.max] has no next day. *)
Lemma next_day_none (d : date) : Date.valid d -> Date.next_day d = None -> d = Date.max.
Proof.
  unfold Date.valid. intros (Hy & Hm & Hd) Hn.
  destruct (next_day_cases d) as [(H1 & E1)|[(H1 & H2 & E1)|[(H1 & H2 & H3 & E1)|(H1 & H2 & H3 & _)]]];
    try (rewrite E1 in Hn; discriminate).
  assert (Ey : year d = 9999) by lia. assert (Em : month d = 12) by lia.
  rewrite Ey, Em in *. change (Date.days_in_month 9999 12) with 31 in *.
  destruct d; simpl in *. unfold Date.max. f_equal; lia.
Qed.

Lemma leb_max (d : date) : Date.valid d -> Date.leb Date.max d = true -> d = Date.max.
Proof.
  unfold Date.valid. intros (Hy & Hm & Hd) H. apply leb_spec in H. simpl in H.
  assert (Ey : year d = 9999) by lia. assert (Em : month d = 12) by lia.
  rewrite Ey, Em in *. change (Date.days_in_month 9999 12) with 31 in *.
  destruct d; simpl in *. unfold Date.max. f_equal; lia.
Qed.

(** ** The days of a range *)

Lemma days_from_enough (n : nat) (d end_ : date) :
  Date.valid d -> Date.valid end_ ->
  (Z.to_nat (Date.rank end_ - Date.rank d + 1) <= n)%nat ->
  days_from n d end_ = date_range d end_.
Proof.
  unfold date_range. revert d.
  induction n as [n IH] using lt_wf_ind. intros d Hd He Hn.
  destruct (Date.leb d end_) eqn:Hle.
  - pose proof (leb_rank d end_ Hd He Hle) as Hr.
    destruct n as [|n]; [lia|].
    destruct (Z.to_nat (Date.rank end_ - Date.rank d + 1)) as [|k] eqn:Hk; [lia|].
    cbn [days_from]. rewrite Hle. f_equal.
    destruct (Date.next_day d) as [d'|] eqn:Hnext; [|reflexivity].
    pose proof (next_day_rank d d' Hd Hnext) as Hlt.
    pose proof (next_day_valid d d' Hd Hnext) as Hd'.
    rewrite (IH n) by (auto; lia). rewrite (IH k) by (auto; lia). reflexivity.
  - destruct n as [|n]; cbn [days_from]; rewrite ?Hle;
      (destruct (Z.to_nat _) as [|k]; cbn [days_from]; rewrite ?Hle; reflexivity).
Qed.

Lemma date_range_unfold (d end_ : date) :
  Date.valid d -> Date.valid end_ ->
  date_range d end_ =
  if Date.leb d end_
  then d :: match Date.next_day d with
            | Some d' => date_range d' end_
            | None => []
            end
  else [].
Proof.
  intros Hd He.
  destruct (Date.leb d end_) eqn:Hle.
  - pose proof (leb_rank d end_ Hd He Hle) as Hr. unfold date_range at 1.
    destruct (Z.to_nat (Date.rank end_ - Date.rank d + 1)) as [|k] eqn:Hk; [lia|].
    cbn [days_from]. rewrite Hle. f_equal.
    destruct (Date.next_day d) as [d'|] eqn:Hnext; [|reflexivity].
    pose proof (next_day_rank d d' Hd Hnext) as Hlt.
    apply days_from_enough; [exact (next_day_valid d d' Hd Hnext) | assumption | lia].
  - unfold date_range. destruct (Z.to_nat _) as [|k]; cbn [days_from]; rewrite ?Hle; reflexivity.
Qed.

Lemma leb_trans (a b c : date) :
  Date.leb a b = true -> Date.leb b c = true -> Date.leb a c = true.
Proof. rewrite !leb_spec. lia. Qed.

(** Induction along the days of a range. *)
Lemma date_range_ind (end_ : date) (P : date -> list date -> Prop) :
  Date.valid end_ ->
  (forall d, Date.valid d -> Date.leb d end_ = false -> P d []) ->
  (forall d, Date.valid d -> Date.leb d end_ = true -> Date.next_day d = None -> P d [d]) ->
  (forall d d', Date.valid d -> Date.leb d end_ = true -> Date.next_day d = Some d' ->
                Date.valid d' -> P d' (date_range d' end_) -> P d (d :: date_range d' end_)) ->
  forall d, Date.valid d -> P d (date_range d end_).
Proof.
  intros He Hstop Hmax Hstep d.
  remember (Z.to_nat (Date.rank end_ - Date.rank d + 1)) as n eqn:Hn.
  revert d Hn. induction n as [n IH] using lt_wf_ind. intros d Hn Hd.
  rewrite (date_range_unfold d end_ Hd He).
  destruct (Date.leb d end_) eqn:Hle; [|apply Hstop; assumption].
  destruct (Date.next_day d) as [d'|] eqn:Hnext; [|apply Hmax; assumption].
  pose proof (next_day_rank d d' Hd Hnext) as Hlt.
  pose proof (next_day_valid d d' Hd Hnext) as Hd'.
  pose proof (leb_rank d end_ Hd He Hle) as Hr.
  apply Hstep; auto.
  apply (IH (Z.to_nat (Date.rank end_ - Date.rank d' + 1))); [lia | reflexivity | assumption].
Qed.

Lemma date_range_bounds (start end_ : date) :
  Date.valid start -> Date.valid end_ ->
  Forall (fun x => Date.valid x /\ Date.leb start x = true /\ Date.leb x end_ = true)
         (date_range start end_).
Proof.
  intros Hs He. revert start Hs.
  apply (date_range_ind end_
           (fun d l => Forall (fun x => Date.valid x /\ Date.leb d x = true /\ Date.leb x end_ = true) l));
    try assumption.
  - intros d Hd Hle. constructor.
  - intros d Hd Hle _. constructor; [|constructor].
    split; [assumption|]. split; [apply leb_refl | assumption].
  - intros d d' Hd Hle Hnext Hd' IH. constructor.
    { split; [assumption|]. split; [apply leb_refl | assumption]. }
    eapply Forall_impl; [exact IH|]. simpl. intros x (Hx & Hdx & Hxe).
    split; [assumption|]. split; [|assumption].
    apply ltb_leb. eapply ltb_leb_trans; [|exact Hdx].
    apply next_day_ltb; assumption.
Qed.

(** The days of a range come in strictly ascending order. *)
Lemma date_range_sorted (start end_ : date) :
  Date.valid start -> Date.valid end_ -> StronglySorted date_lt (date_range start end_).
Proof.
  intros Hs He. revert start Hs.
  apply (date_range_ind end_ (fun _ l => StronglySorted date_lt l)); try assumption.
  - intros; constructor.
  - intros; repeat constructor.
  - intros d d' Hd Hle Hnext Hd' IH. constructor; [exact IH|].
    pose proof (date_range_bounds d' end_ Hd' He) as Hb.
    eapply Forall_impl; [exact Hb|]. simpl. intros x (_ & Hdx & _).
    unfold date_lt. eapply ltb_leb_trans; [|exact Hdx]. apply next_day_ltb; assumption.
Qed.

(** They are exactly the days from [start] to [end_], both included. *)
Lemma date_range_spec (start end_ x : date) :
  Date.valid start -> Date.valid end_ ->
  In x (date_range start end_) <->
  Date.valid x /\ Date.leb start x = true /\ Date.leb x end_ = true.
Proof.
  intros Hs He. split.
  - intros Hin. pose proof (date_range_bounds start end_ Hs He) as Hb.
    rewrite List.Forall_forall in Hb. apply Hb, Hin.
  - intros (Hx & Hsx & Hxe). revert start Hs Hsx.
    apply (date_range_ind end_ (fun d l => Date.leb d x = true -> In x l)); try assumption.
    + intros d Hd Hle Hdx. rewrite (leb_trans d x end_ Hdx Hxe) in Hle. discriminate.
    + intros d Hd Hle Hnext Hdx. apply next_day_none in Hnext; [|assumption]. subst d.
      apply leb_max in Hdx; [|assumption]. left. auto.
    + intros d d' Hd Hle Hnext Hd' IH Hdx.
      destruct (leb_ltb_or_eq d x Hdx) as [Hlt | ->]; [|left; reflexivity].
      right. apply IH. exact (next_day_least d d' x Hd Hx Hnext Hlt).
Qed.

(** ** The range controller *)

Lemma print_all_run (lines : list string) (w : world) :
  print_all lines w = (Ret tt, mkWorld (fs w) (s3 w) (calls w) (out w ++ lines)).
Proof.
  revert w. induction lines as [|l lines IH]; intros w; cbn [print_all].
  - unfold ret. rewrite app_nil_r. destruct w; reflexivity.
  - unfold bind, print. rewrite IH. cbn [fs s3 calls out]. rewrite <- app_assoc. reflexivity.
Qed.

Section Range.

Variable E : env.
Hypothesis Hwb : well_behaved E.
Variables (repo_id local_root s3_bucket s3_prefix : string) (force dryrun : bool).
Variable end_ : date.
Hypothesis Hend : Date.valid end_.
Hypothesis Hnotmax : end_ <> Date.max.

Lemma pipeline_loop_total (fuel : nat) :
  forall (d : date) (acc : list string) (w : world),
    Date.valid d ->
    (Z.to_nat (Date.rank end_ - Date.rank d + 1) < fuel)%nat ->
    exists report w',
      pipeline_loop E fuel repo_id d end_ local_root s3_bucket s3_prefix force dryrun acc w
        = (Ret (acc ++ report), w')
      /\ Forall2 line_for (items E repo_id (date_range d end_)) report.
Proof.
  induction fuel as [|fuel IH]; intros d acc w Hd Hfuel; [lia|].
  cbn [pipeline_loop]. rewrite (date_range_unfold d end_ Hd Hend).
  destruct (Date.leb d end_) eqn:Hle.
  - unfold bind at 1. cbn [print].
    set (w0 := mkWorld _ _ _ _).
    destruct (process_single_day_total E Hwb repo_id d local_root s3_bucket s3_prefix force dryrun w0)
      as (day & Hday & Hlines).
    unfold bind at 1.
    destruct (process_single_day E repo_id d local_root s3_bucket s3_prefix force dryrun w0)
      as [r w1]. cbn [fst] in Hday. subst r.
    destruct (Date.next_day d) as [d'|] eqn:Hnext.
    + pose proof (next_day_rank d d' Hd Hnext) as Hlt.
      pose proof (leb_rank d end_ Hd Hend Hle) as Hr.
      destruct (IH d' (acc ++ day) w1 (next_day_valid d d' Hd Hnext) ltac:(lia))
        as (report & w' & Hrun & Hrep).
      exists (day ++ report), w'. rewrite Hrun, app_assoc. split; [reflexivity|].
      cbn [items flat_map]. apply Forall2_app; [|exact Hrep].
      clear -Hlines. induction Hlines; simpl; constructor; auto.
    + exfalso. apply next_day_none in Hnext; [|assumption]. subst d.
      apply Hnotmax, leb_max; assumption.
  - exists [], w. rewrite app_nil_r. split; [reflexivity | constructor].
Qed.

Lemma run_pipeline_total (fuel : nat) (start : date) (w : world) :
  Date.valid start ->
  (Z.to_nat (Date.rank end_ - Date.rank start + 1) < fuel)%nat ->
  exists report w' before,
    run_pipeline E fuel repo_id start end_ local_root s3_bucket s3_prefix force dryrun w
      = (Ret None, w')
    /\ out w' = before ++ (Str.nl +:+ "=== SUMMARY ===") :: report
    /\ Forall2 line_for (items E repo_id (date_range start end_)) report.
Proof.
  intros Hs Hfuel. unfold run_pipeline.
  assert (Hapi : fault E NewHfApi = None).
  { destruct (fault E NewHfApi) as [e|] eqn:He; [destruct (Hwb _ _ He) | reflexivity]. }
  assert (Hs3 : fault E GetS3Client = None).
  { destruct (fault E GetS3Client) as [e|] eqn:He; [destruct (Hwb _ _ He) | reflexivity]. }
  unfold bind at 1. cbn [print]. unfold bind at 1. rewrite (outside_ok _ _ _ Hapi).
  unfold bind at 1. rewrite (outside_ok _ _ _ Hs3).
  unfold bind at 1. cbn [print]. unfold bind at 1.
  match goal with |- context [pipeline_loop E fuel repo_id start end_ _ _ _ _ _ [] ?w0] =>
    destruct (pipeline_loop_total fuel start [] w0 Hs Hfuel) as (report & w1 & Hrun & Hrep)
  end.
  rewrite Hrun. cbn [app]. unfold bind at 1. cbn [print]. unfold bind at 1.
  rewrite print_all_run. cbn [ret fs s3 calls out].
  eexists report, _, (out w1). split; [reflexivity|]. cbn [out].
  rewrite <- app_assoc. auto.
Qed.

End Range.


(** C3, as amended. Under the same provisos (no exception escapes a
    handler, so every listing can be read; the range ends before
    9999-12-31; the dates are calendar days) [run_pipeline] returns
    [None]; the outcomes are what it prints last, after the line
    [=== SUMMARY ===], one line per listed file: the days in ascending
    calendar order, every day from [start] to [end_] included, and within a
    day the files in listing order. *)
Theorem run_report (E : env) (repo_id local_root s3_bucket s3_prefix : string)
    (force dryrun : bool) (start end_ : date) (fuel : nat) (w : world)
    (Hwb : well_behaved E)
    (Hstart : Date.valid start) (Hend : Date.valid end_) (Hnotmax : end_ <> Date.max)
    (Hfuel : (Z.to_nat (Date.rank end_ - Date.rank start + 1) < fuel)%nat) :
  exists report w' before,
    run_pipeline E fuel repo_id start end_ local_root s3_bucket s3_prefix force dryrun w
      = (Ret None, w')
    /\ out w' = before ++ (Str.nl +:+ "=== SUMMARY ===") :: report
    /\ Forall2 line_for (items E repo_id (date_range start end_)) report
    /\ StronglySorted date_lt (date_range start end_)
    /\ (forall x, In x (date_range start end_) <->
                  Date.valid x /\ Date.leb start x = true /\ Date.leb x end_ = true).
Proof.
  destruct (run_pipeline_total E Hwb repo_id local_root s3_bucket s3_prefix force dryrun end_
              Hend Hnotmax fuel start w Hstart Hfuel) as (report & w' & before & Hrun & Hout & Hrep).
  exists report, w', before. split; [exact Hrun|]. split; [exact Hout|]. split; [exact Hrep|].
  split; [apply date_range_sorted; assumption|].
  intros x. apply date_range_spec; assumption.
Qed.

Lemma well_behaved_calm : well_behaved Sample.calm.
Proof. intros c e H. discriminate H. Qed.


Lemma run_report_witness :
  exists report w' before,
    run_pipeline Sample.calm 5 "repo" Sample.july1 Scenario.july2 "./data" "bucket" "prefix"
      false false Sample.empty_world = (Ret None, w')
    /\ out w' = before ++ (Str.nl +:+ "=== SUMMARY ===") :: report
    /\ Forall2 line_for (items Sample.calm "repo" (date_range Sample.july1 Scenario.july2)) report
    /\ StronglySorted date_lt (date_range Sample.july1 Scenario.july2)
    /\ (forall x, In x (date_range Sample.july1 Scenario.july2) <->
                  Date.valid x /\ Date.leb Sample.july1 x = true
                  /\ Date.leb x Scenario.july2 = true).
Proof.
  refine (run_report Sample.calm "repo" "./data" "bucket" "prefix" false false
            Sample.july1 Scenario.july2 5 Sample.empty_world well_behaved_calm _ _ _ _).
  - apply valid_of_validb. reflexivity.
  - apply valid_of_validb. reflexivity.
  - discriminate.
  - vm_compute. lia.
Defined.

(** C3, counterexample. The run returns [None], not the outcome list; the
    list is printed, and the bucket and the local files have changed. *)
Lemma run_pipeline_returns_none :
  let run := run_pipeline Sample.calm 5 "repo" Sample.july1 Sample.july1 "./data" "bucket"
               "prefix" false false Sample.empty_world in
  run.1 = Ret None
  /\ List.last (out run.2) EmptyString = "OK 2025-07-01 a.zarr.zip"
  /\ s3 run.2 !! ("bucket", "prefix/2025/07/01/a.nc")
     = Some (NetCDF (mkDataset [460 # 10]%Q [11 # 1]%Q))
  /\ fs run.2 !! Pathlib.Path "data/2025/7/1/a.nc"
     = Some (NetCDF (mkDataset [460 # 10]%Q [11 # 1]%Q)).
Proof. vm_compute. repeat split; reflexivity. Qed.


(** ** A listing that fails *)

(** C9, on the failing input: a day whose folder cannot be read.  The
    call of [list_repo_tree] succeeds, for it only builds a generator; the
    error [e] of the Hub comes when the list comprehension reads it, after
    the [try] block.  So [list_hf_files_for_date] raises [e] and prints no
    warning, [process_single_day] raises it after its heading, and a run
    that starts on that day ends in [e] there: files and bucket
    untouched, no later day listed, no summary printed.  [e] is any
    exception, the [Exception]s the handler was written for included. *)
Theorem listing_failure_escapes (E : env) (repo_id : string) (d end_ : date)
    (local_root s3_bucket s3_prefix : string) (force dryrun : bool) (fuel : nat)
    (w : world) (e : exn)
    (Hcall : fault E (ListRepoTree repo_id (folder_path d)) = None)
    (Hread : fault E (ReadRepoTree repo_id (folder_path d)) = Some e)
    (Hapi : fault E NewHfApi = None)
    (Hclient : fault E GetS3Client = None)
    (Hrange : Date.leb d end_ = true) :
  let listing := [ListRepoTree repo_id (folder_path d); ReadRepoTree repo_id (folder_path d)] in
  let banner := if dryrun then ["**** Running in dryrun mode ****"] else [] in
  let heading := Str.nl +:+ "=== " +:+ Date.isoformat d +:+ " ===" in
  list_hf_files_for_date E repo_id d w
  = (Raise e, mkWorld (fs w) (s3 w) (calls w ++ listing) (out w))
  /\ process_single_day E repo_id d local_root s3_bucket s3_prefix force dryrun w
     = (Raise e, mkWorld (fs w) (s3 w) (calls w ++ listing) (out w ++ banner ++ [heading]))
  /\ run_pipeline E (S fuel) repo_id d end_ local_root s3_bucket s3_prefix force dryrun w
     = (Raise e,
        mkWorld (fs w) (s3 w) (calls w ++ [NewHfApi; GetS3Client] ++ listing)
          (out w ++ ["Starting DWD HF Exporter Pipeline";
                     "Dates: " +:+ Date.isoformat d +:+ " to " +:+ Date.isoformat end_;
                     Str.nl +:+ "Processing date: " +:+ Date.isoformat d]
                 ++ banner ++ [heading])).
Proof.
  intros listing banner heading.
  assert (Hlist : forall w0,
            list_hf_files_for_date E repo_id d w0
            = (Raise e, mkWorld (fs w0) (s3 w0) (calls w0 ++ listing) (out w0))).
  { intros w0. rewrite list_hf_files_for_date_run, Hcall, Hread.
    unfold logged. cbn [fs s3 calls out]. rewrite <- app_assoc. reflexivity. }
  assert (Hday : forall w0,
            process_single_day E repo_id d local_root s3_bucket s3_prefix force dryrun w0
            = (Raise e, mkWorld (fs w0) (s3 w0) (calls w0 ++ listing)
                          (out w0 ++ banner ++ [heading]))).
  { intros w0. unfold process_single_day. subst banner.
    destruct dryrun; unfold bind at 1; cbn [print ret]; unfold bind at 1; cbn [print];
      unfold bind at 1; rewrite Hlist; cbn [fs s3 calls out];
      rewrite <- ?app_assoc; reflexivity. }
  split; [apply Hlist|]. split; [apply Hday|].
  unfold run_pipeline.
  unfold bind at 1. cbn [print]. unfold bind at 1. rewrite (outside_ok _ _ _ Hapi).
  unfold bind at 1. rewrite (outside_ok _ _ _ Hclient).
  unfold bind at 1. cbn [print]. unfold bind at 1.
  cbn [pipeline_loop]. rewrite Hrange.
  unfold bind at 1. cbn [print]. unfold bind at 1. rewrite Hday.
  unfold logged. cbn [fs s3 calls out]. rewrite <- !app_assoc. reflexivity.
Qed.

Lemma listing_failure_escapes_witness :
  list_hf_files_for_date Scenario.missing_day "repo" Scenario.july2 Sample.empty_world
  = (Raise (HfHubHTTPError "404 Client Error"),
     mkWorld ∅ ∅ [ListRepoTree "repo" "data/2025/7/2"; ReadRepoTree "repo" "data/2025/7/2"] [])
  /\ process_single_day Scenario.missing_day "repo" Scenario.july2 "./data" "bucket" "prefix"
       false false Sample.empty_world
     = (Raise (HfHubHTTPError "404 Client Error"),
        mkWorld ∅ ∅ [ListRepoTree "repo" "data/2025/7/2"; ReadRepoTree "repo" "data/2025/7/2"]
          [Str.nl +:+ "=== 2025-07-02 ==="])
  /\ run_pipeline Scenario.missing_day 1 "repo" Scenario.july2 Scenario.july3 "./data" "bucket"
       "prefix" false false Sample.empty_world
     = (Raise (HfHubHTTPError "404 Client Error"),
        mkWorld ∅ ∅
          [NewHfApi; GetS3Client;
           ListRepoTree "repo" "data/2025/7/2"; ReadRepoTree "repo" "data/2025/7/2"]
          ["Starting DWD HF Exporter Pipeline"; "Dates: 2025-07-02 to 2025-07-03";
           Str.nl +:+ "Processing date: 2025-07-02"; Str.nl +:+ "=== 2025-07-02 ==="]).
Proof.
  exact (listing_failure_escapes Scenario.missing_day "repo" Scenario.july2 Scenario.july3
           "./data" "bucket" "prefix" false false 0 Sample.empty_world
           (HfHubHTTPError "404 Client Error") eq_refl eq_refl eq_refl eq_refl eq_refl).
Defined.

(** The same repository over three days.  The first day is processed and
    its file stored; the second day ends the run: the third day is never
    listed, and the outcome of the first day is never reported. *)
Example missing_folder_ends_the_run :
  let run := run_pipeline Scenario.missing_day 5 "repo" Sample.july1 Scenario.july3 "./data"
               "bucket" "prefix" false false Sample.empty_world in
  run.1 = Raise (HfHubHTTPError "404 Client Error")
  /\ listed_folders (calls run.2) = [("repo", "data/2025/7/1"); ("repo", "data/2025/7/2")]
  /\ is_Some (s3 run.2 !! ("bucket", "prefix/2025/07/01/a.nc"))
  /\ List.last (out run.2) EmptyString = Str.nl +:+ "=== 2025-07-02 ==="
  /\ existsb (String.eqb (Str.nl +:+ "=== SUMMARY ===")) (out run.2) = false
  /\ existsb (String.eqb "OK 2025-07-01 a.zarr.zip") (out run.2) = false.
Proof. vm_compute. repeat split; eauto. Qed.

(** ** One file fails, the next is processed *)

(** A failed download of the first file does not keep the second from
    being processed. *)
Example failure_isolation :
  (process_single_day Scenario.first_download_fails "repo" Sample.july1 "./data" "bucket"
     "prefix" false false Sample.empty_world).1
  = Ret ["FAILED-DOWNLOAD 2025-07-01 a.zarr.zip"; "OK 2025-07-01 b.zarr.zip"].
Proof. vm_compute. reflexivity. Qed.

(** * Further properties

    What the code shows beyond the specification: the client factory,
    the converter path by path, what a run may touch, what each outcome
    tells, how keys and report lines read back, and the range at its
    edges. *)

(** ** The S3 client factory *)

(** X1. The environment of the client.  An endpoint that is set to the
    empty string counts as not set ([endpoint_url] is then [None], and it
    is never the empty string); the region falls back to [eu-central-1]
    only when [AWS_DEFAULT_REGION] is not set at all, an empty value is
    handed on as it is; and no variable but the five that are read has
    any influence. *)
Theorem get_s3_client_environment (environ : gmap string string) :
  get_s3_client (<["AWS_S3_ENDPOINT" := EmptyString]> environ)
  = get_s3_client (delete "AWS_S3_ENDPOINT" environ)
  /\ endpoint_url (get_s3_client (delete "AWS_S3_ENDPOINT" environ)) = None
  /\ endpoint_url (get_s3_client environ) <> Some EmptyString
  /\ (forall c s, endpoint_url (get_s3_client (<["AWS_S3_ENDPOINT" := String c s]> environ))
                  = Some (String c s))
  /\ region_name (get_s3_client (delete "AWS_DEFAULT_REGION" environ)) = "eu-central-1"
  /\ (forall s, region_name (get_s3_client (<["AWS_DEFAULT_REGION" := s]> environ)) = s)
  /\ (forall name value, ~ In name client_variables ->
        get_s3_client (<[name := value]> environ) = get_s3_client environ).
Proof.
  unfold get_s3_client, Os.getenv, Os.getenv_default. cbv zeta.
  split; [|split; [|split; [|split; [|split; [|split]]]]].
  - rewrite lookup_insert_eq, lookup_delete_eq.
    rewrite !lookup_insert_ne, !lookup_delete_ne by discriminate. reflexivity.
  - cbn [endpoint_url]. rewrite lookup_delete_eq. reflexivity.
  - cbn [endpoint_url]. destruct (environ !! "AWS_S3_ENDPOINT") as [[|c s]|]; discriminate.
  - intros c s. cbn [endpoint_url]. rewrite lookup_insert_eq. reflexivity.
  - cbn [region_name]. rewrite lookup_delete_eq. reflexivity.
  - intros s. cbn [region_name]. rewrite lookup_insert_eq. reflexivity.
  - intros name value Hname. unfold client_variables in Hname. cbn [In] in Hname.
    rewrite !lookup_insert_ne by (intros ->; tauto). reflexivity.
Qed.

(** ** Upload and existence check together *)

(** X2. Storing, then asking.  After [upload_to_s3] has returned, the
    object at the key is the content of the local file, [s3_key_exists]
    answers [True] for that key (provided [head_object] itself does not
    fail), and its answer for every other key is what it was. *)
Theorem upload_then_exists (E : env) (local_path bucket key : string) (w w1 : world)
    (Hup : upload_to_s3 E local_path bucket key w = (Ret tt, w1))
    (Hhead : fault E (HeadObject bucket key) = None) :
  is_Some (fs w !! Pathlib.Path local_path)
  /\ s3 w1 !! (bucket, key) = fs w !! Pathlib.Path local_path
  /\ (s3_key_exists E bucket key w1).1 = Ret true
  /\ (forall b k, (b, k) <> (bucket, key) ->
        (s3_key_exists E b k w1).1 = (s3_key_exists E b k w).1).
Proof.
  unfold upload_to_s3, upload_file, outside in Hup. revert Hup. run.
  destruct (fault E (UploadFile local_path bucket key)); [discriminate|]. run.
  destruct (fs w !! Pathlib.Path local_path) as [c|] eqn:Hc; [|discriminate].
  intros [= <-]. cbn [s3]. rewrite lookup_insert_eq.
  split; [eauto|]. split; [reflexivity|]. split.
  - rewrite s3_key_exists_run. unfold exists_answer. cbn [fst s3].
    rewrite Hhead, lookup_insert_eq. rewrite bool_decide_eq_true_2 by eauto. reflexivity.
  - intros b k Hne. rewrite !s3_key_exists_run. unfold exists_answer. cbn [fst s3].
    rewrite lookup_insert_ne by congruence. reflexivity.
Qed.

Lemma upload_then_exists_witness :
  is_Some (fs (Staged.on_disk "in/a.nc" Sample.grid) !! Pathlib.Path "in/a.nc")
  /\ s3 (upload_to_s3 Sample.calm "in/a.nc" "bucket" "k" (Staged.on_disk "in/a.nc" Sample.grid)).2
     !! ("bucket", "k")
     = fs (Staged.on_disk "in/a.nc" Sample.grid) !! Pathlib.Path "in/a.nc"
  /\ (s3_key_exists Sample.calm "bucket" "k"
        (upload_to_s3 Sample.calm "in/a.nc" "bucket" "k"
           (Staged.on_disk "in/a.nc" Sample.grid)).2).1 = Ret true
  /\ (forall b k, (b, k) <> ("bucket", "k") ->
        (s3_key_exists Sample.calm b k
           (upload_to_s3 Sample.calm "in/a.nc" "bucket" "k"
              (Staged.on_disk "in/a.nc" Sample.grid)).2).1
        = (s3_key_exists Sample.calm b k (Staged.on_disk "in/a.nc" Sample.grid)).1).
Proof.
  apply (upload_then_exists Sample.calm "in/a.nc" "bucket" "k"
           (Staged.on_disk "in/a.nc" Sample.grid)).
  - vm_compute. reflexivity.
  - reflexivity.
Defined.

(** ** The converter, path by path *)

(** A conversion that returns has read an archive, selected a window
    that is empty in neither direction, and written it. *)
Lemma extract_returns_inv (E : env) (filepath : string) (w w1 : world) (p : string) :
  converter.extract E filepath w = (Ret p, w1) ->
  exists ds bbox,
    fs w !! Pathlib.Path filepath = Some (ZarrZip ds)
    /\ converter.select_bbox ds = inr bbox
    /\ latitude bbox <> [] /\ longitude bbox <> []
    /\ p = Pathlib.to_str (converter.output_path filepath)
    /\ w1 = mkWorld (<[converter.output_path filepath := NetCDF bbox]> (fs w)) (s3 w)
              (calls w ++ [MkDtemp filepath; Unzip filepath; OpenZarr filepath; Load filepath;
                           ToNetcdf (Pathlib.to_str (converter.output_path filepath));
                           Rmtree filepath])
              (out w).
Proof.
  unfold converter.extract, converter.open_archive, outside. run.
  destruct (fault E (MkDtemp filepath)); [discriminate|]. run.
  destruct (fault E (Unzip filepath)); [discriminate|]. run.
  destruct (fs w !! Pathlib.Path filepath) as [[ds| |]|]; try discriminate.
  destruct (fault E (OpenZarr filepath)); [discriminate|]. run.
  destruct (converter.select_bbox ds) as [e|bbox] eqn:Hsel; [discriminate|].
  destruct (latitude bbox) as [|la lats] eqn:Hla; [discriminate|].
  destruct (longitude bbox) as [|lo lons] eqn:Hlo; [discriminate|].
  cbn [length Nat.eqb orb].
  destruct (fault E (Load filepath)); [discriminate|]. run.
  destruct (fault E (ToNetcdf _)); [discriminate|]. run.
  intros [= <- <-]. exists ds, bbox.
  rewrite <- !app_assoc.
  split; [reflexivity|]. split; [exact Hsel|].
  split; [congruence|]. split; [congruence|]. split; reflexivity.
Qed.

(** X3. The temporary directory.  [mkdtemp] is called before the [try]:
    when it fails its exception is passed on and nothing else happens.
    Once the directory exists, [rmtree] is the last thing the converter
    does, exactly once, whether it returns or raises (any exception, a
    [KeyboardInterrupt] included). *)
Theorem extract_removes_temp_dir (E : env) (filepath : string) (w : world) :
  match fault E (MkDtemp filepath) with
  | Some e => converter.extract E filepath w = (Raise e, logged (MkDtemp filepath) w)
  | None =>
      exists steps,
        calls (converter.extract E filepath w).2
        = calls w ++ MkDtemp filepath :: steps ++ [Rmtree filepath]
        /\ Forall conversion_step steps
  end.
Proof.
  unfold converter.extract, converter.open_archive, outside. run.
  destruct (fault E (MkDtemp filepath)) as [e|]; [reflexivity|]. run.
  destruct (fault E (Unzip filepath)) as [e|]; run.
  { exists [Unzip filepath]. rewrite <- !app_assoc. split; [reflexivity | repeat constructor]. }
  destruct (fs w !! Pathlib.Path filepath) as [[ds| |]|]; run;
    try (exists [Unzip filepath]; rewrite <- !app_assoc; split; [reflexivity | repeat constructor]).
  destruct (fault E (OpenZarr filepath)) as [e|]; run.
  { exists [Unzip filepath; OpenZarr filepath]. rewrite <- !app_assoc.
    split; [reflexivity | repeat constructor]. }
  destruct (converter.select_bbox ds) as [e|bbox]; run.
  { exists [Unzip filepath; OpenZarr filepath]. rewrite <- !app_assoc.
    split; [reflexivity | repeat constructor]. }
  destruct ((length (latitude bbox) =? 0)%nat || (length (longitude bbox) =? 0)%nat); run.
  { exists [Unzip filepath; OpenZarr filepath]. rewrite <- !app_assoc.
    split; [reflexivity | repeat constructor]. }
  destruct (fault E (Load filepath)) as [e|]; run.
  { exists [Unzip filepath; OpenZarr filepath; Load filepath]. rewrite <- !app_assoc.
    split; [reflexivity | repeat constructor]. }
  destruct (fault E (ToNetcdf _)) as [e|]; run;
    (eexists [Unzip filepath; OpenZarr filepath; Load filepath; ToNetcdf _];
     rewrite <- !app_assoc; split; [reflexivity | repeat constructor]).
Qed.

(** A conversion that finds no window raises and writes nothing, whatever
    else fails: the selection raised, or it is empty. *)
Lemma extract_without_window (E : env) (filepath : string) (ds : dataset) (w : world) :
  fs w !! Pathlib.Path filepath = Some (ZarrZip ds) ->
  (forall bbox, converter.select_bbox ds = inr bbox -> empty_window bbox) ->
  exists e new,
    converter.extract E filepath w =
      (Raise e, mkWorld (fs w) (s3 w) (calls w ++ new) (out w))
    /\ Forall before_write new
    /\ ((forall c, extract_calls filepath c -> fault E c = None) ->
        e = match converter.select_bbox ds with
            | inl e0 => e0
            | inr _ => ValueError ("Empty subset for " +:+ filepath)
            end
        /\ new = [MkDtemp filepath; Unzip filepath; OpenZarr filepath; Rmtree filepath]).
Proof.
  intros Hfile Hnone.
  destruct (converter.select_bbox ds) as [e0|bbox] eqn:Hsel.
  - unfold converter.extract, converter.open_archive, outside. run.
    destruct (fault E (MkDtemp filepath)) as [e|] eqn:F1.
    { exists e, [MkDtemp filepath]. split; [reflexivity|]. split; [repeat constructor|].
      intros H. rewrite H in F1 by reflexivity. discriminate F1. }
    run. destruct (fault E (Unzip filepath)) as [e|] eqn:F2.
    { exists e, [MkDtemp filepath; Unzip filepath; Rmtree filepath].
      run. rewrite <- !app_assoc. split; [reflexivity|]. split; [repeat constructor|].
      intros H. rewrite H in F2 by reflexivity. discriminate F2. }
    run. rewrite Hfile. destruct (fault E (OpenZarr filepath)) as [e|] eqn:F3.
    { exists e, [MkDtemp filepath; Unzip filepath; OpenZarr filepath; Rmtree filepath].
      run. rewrite <- !app_assoc. split; [reflexivity|]. split; [repeat constructor|].
      intros H. rewrite H in F3 by reflexivity. discriminate F3. }
    run. rewrite Hsel. run.
    exists e0, [MkDtemp filepath; Unzip filepath; OpenZarr filepath; Rmtree filepath].
    rewrite <- !app_assoc. split; [reflexivity|]. split; [repeat constructor|].
    intros _. split; reflexivity.
  - destruct (extract_empty_window E filepath ds bbox w Hfile Hsel (Hnone bbox eq_refl))
      as (e & new & Hrun & Hnew & _ & Hval).
    exists e, new. split; [exact Hrun|]. split; [exact Hnew | exact Hval].
Qed.

(** *** Degenerate axes *)

Lemma Qle_bool_refl (x : Q) : Qle_bool x x = true.
Proof. apply Qle_bool_iff, Qle_refl. Qed.

Lemma Qltb_irrefl (x : Q) : Index.Qltb x x = false.
Proof. unfold Index.Qltb. rewrite Qle_bool_refl. reflexivity. Qed.

Lemma leading_le (p q : Q -> bool) (l : list Q) :
  (forall x, q x = true -> p x = true) -> (Index.leading q l <= Index.leading p l)%nat.
Proof.
  intros Hqp. induction l as [|x l IH]; simpl; [lia|].
  destruct (q x) eqn:Hq; [rewrite (Hqp x Hq); lia | lia].
Qed.

Lemma slice_backwards (l : list Q) (start stop : nat) :
  (stop <= start)%nat -> Index.slice l start stop = [].
Proof. intros H. unfold Index.slice. replace (stop - start)%nat with O by lia. reflexivity. Qed.

Lemma lat_bounds_strict : (converter.lat_min < converter.lat_max)%Q.
Proof. reflexivity. Qed.

Lemma lon_bounds_strict : (converter.lon_min < converter.lon_max)%Q.
Proof. reflexivity. Qed.

(** The swapped slice on an axis that is ascending in the sense of
    pandas (a constant axis and an axis of one entry included) is empty. *)
Lemma sel_slice_swapped (lo hi : Q) (l : list Q) :
  (lo < hi)%Q -> Index.is_monotonic_increasing l = true -> Index.sel_slice hi lo l = inr [].
Proof.
  intros Hlt Hinc. unfold Index.sel_slice, Index.slice_locs. rewrite Hinc. f_equal.
  apply slice_backwards, leading_le. intros x Hx.
  apply Qle_bool_iff in Hx. apply Qltb_lt. eapply Qle_lt_trans; eassumption.
Qed.

(** The unswapped slice on a descending axis is empty. *)
Lemma sel_slice_unswapped (lo hi : Q) (l : list Q) :
  (lo < hi)%Q -> Index.is_monotonic_increasing l = false ->
  Index.is_monotonic_decreasing l = true -> Index.sel_slice lo hi l = inr [].
Proof.
  intros Hlt Hinc Hdec. unfold Index.sel_slice, Index.slice_locs. rewrite Hinc, Hdec. f_equal.
  apply slice_backwards, leading_le. intros x Hx.
  apply Qle_bool_iff in Hx. apply Qltb_lt. eapply Qlt_le_trans; eassumption.
Qed.

(** X4. One row of latitude.  The orientation test [first < last] fails on
    an axis of one entry, so the swapped slice is applied to an index that
    pandas takes as ascending: the selection is empty wherever the row
    lies, inside the box included, and the conversion raises without
    writing anything. *)
Theorem single_latitude_row_selects_nothing (E : env) (filepath : string) (w : world)
    (v : Q) (lons : list Q)
    (Hfile : fs w !! Pathlib.Path filepath = Some (ZarrZip (mkDataset [v] lons))) :
  (forall bbox, converter.select_bbox (mkDataset [v] lons) = inr bbox -> latitude bbox = [])
  /\ exists e new,
       converter.extract E filepath w =
         (Raise e, mkWorld (fs w) (s3 w) (calls w ++ new) (out w))
       /\ Forall before_write new.
Proof.
  assert (Hsel : forall bbox, converter.select_bbox (mkDataset [v] lons) = inr bbox ->
                              latitude bbox = []).
  { intros bbox. rewrite select_bbox_cons. cbn [List.last]. rewrite Qltb_irrefl.
    rewrite (sel_slice_swapped _ _ [v] lat_bounds_strict eq_refl).
    destruct (Index.sel_slice converter.lon_min converter.lon_max lons); [discriminate|].
    intros [= <-]. reflexivity. }
  split; [exact Hsel|].
  destruct (extract_without_window E filepath _ w Hfile) as (e & new & Hrun & Hnew & _).
  { intros bbox Hb. left. apply Hsel, Hb. }
  exists e, new. auto.
Qed.

Lemma single_latitude_row_selects_nothing_witness :
  exists e new,
    converter.extract Sample.calm "in/a.zarr.zip" (Staged.on_disk "in/a.zarr.zip" Staged.one_row)
    = (Raise e,
       mkWorld (fs (Staged.on_disk "in/a.zarr.zip" Staged.one_row))
         (s3 (Staged.on_disk "in/a.zarr.zip" Staged.one_row))
         (calls (Staged.on_disk "in/a.zarr.zip" Staged.one_row) ++ new)
         (out (Staged.on_disk "in/a.zarr.zip" Staged.one_row)))
    /\ Forall before_write new.
Proof.
  refine (proj2 (single_latitude_row_selects_nothing Sample.calm "in/a.zarr.zip"
                   (Staged.on_disk "in/a.zarr.zip" Staged.one_row) (460 # 10)%Q
                   [10 # 1; 11 # 1; 12 # 1]%Q _)).
  vm_compute. reflexivity.
Defined.

(** X5. Longitudes stored from east to west.  Only the latitude bounds are
    swapped for a descending axis; on a descending longitude axis
    [slice(lon_min, lon_max)] selects nothing, and the conversion raises
    without writing anything. *)
Theorem descending_longitude_selects_nothing (E : env) (filepath : string) (w : world)
    (ds : dataset)
    (Hfile : fs w !! Pathlib.Path filepath = Some (ZarrZip ds))
    (Hinc : Index.is_monotonic_increasing (longitude ds) = false)
    (Hdec : Index.is_monotonic_decreasing (longitude ds) = true) :
  Index.sel_slice converter.lon_min converter.lon_max (longitude ds) = inr []
  /\ (forall bbox, converter.select_bbox ds = inr bbox -> longitude bbox = [])
  /\ exists e new,
       converter.extract E filepath w =
         (Raise e, mkWorld (fs w) (s3 w) (calls w ++ new) (out w))
       /\ Forall before_write new.
Proof.
  pose proof (sel_slice_unswapped _ _ _ lon_bounds_strict Hinc Hdec) as Hlon.
  assert (Hsel : forall bbox, converter.select_bbox ds = inr bbox -> longitude bbox = []).
  { intros bbox. unfold converter.select_bbox.
    destruct (latitude ds) as [|first rest]; [discriminate|].
    rewrite Hlon.
    destruct (if Index.Qltb first _ then _ else _); [discriminate|].
    intros [= <-]. reflexivity. }
  split; [exact Hlon|]. split; [exact Hsel|].
  destruct (extract_without_window E filepath ds w Hfile) as (e & new & Hrun & Hnew & _).
  { intros bbox Hb. right. apply Hsel, Hb. }
  exists e, new. auto.
Qed.

Lemma descending_longitude_selects_nothing_witness :
  Index.sel_slice converter.lon_min converter.lon_max (longitude Staged.east_to_west) = inr [].
Proof.
  refine (proj1 (descending_longitude_selects_nothing Sample.calm "in/a.zarr.zip"
                   (Staged.on_disk "in/a.zarr.zip" Staged.east_to_west) Staged.east_to_west
                   _ eq_refl eq_refl)).
  vm_compute. reflexivity.
Defined.

(** X6. No latitude at all.  [ds.latitude.values[0]] is evaluated before
    the emptiness check: an archive whose latitude axis is empty fails
    with [IndexError], not with [ValueError("Empty subset ...")]. *)
Theorem empty_latitude_axis_raises_IndexError (E : env) (filepath : string) (w : world)
    (lons : list Q)
    (Hfile : fs w !! Pathlib.Path filepath = Some (ZarrZip (mkDataset [] lons)))
    (Hcalm : forall c, extract_calls filepath c -> fault E c = None) :
  converter.extract E filepath w =
    (Raise IndexError,
     mkWorld (fs w) (s3 w)
       (calls w ++ [MkDtemp filepath; Unzip filepath; OpenZarr filepath; Rmtree filepath])
       (out w)).
Proof.
  destruct (extract_without_window E filepath _ w Hfile) as (e & new & Hrun & _ & Hval).
  { intros bbox Hb. discriminate Hb. }
  destruct (Hval Hcalm) as [-> ->]. exact Hrun.
Qed.

Lemma empty_latitude_axis_raises_IndexError_witness :
  converter.extract Sample.calm "in/a.zarr.zip" (Staged.on_disk "in/a.zarr.zip" Staged.no_rows)
  = (Raise IndexError,
     mkWorld (fs (Staged.on_disk "in/a.zarr.zip" Staged.no_rows))
       (s3 (Staged.on_disk "in/a.zarr.zip" Staged.no_rows))
       (calls (Staged.on_disk "in/a.zarr.zip" Staged.no_rows)
        ++ [MkDtemp "in/a.zarr.zip"; Unzip "in/a.zarr.zip"; OpenZarr "in/a.zarr.zip";
            Rmtree "in/a.zarr.zip"])
       (out (Staged.on_disk "in/a.zarr.zip" Staged.no_rows))).
Proof.
  apply (empty_latitude_axis_raises_IndexError Sample.calm "in/a.zarr.zip"
           (Staged.on_disk "in/a.zarr.zip" Staged.no_rows) [10 # 1; 11 # 1; 12 # 1]%Q).
  - vm_compute. reflexivity.
  - intros c _. reflexivity.
Defined.

(** *** What a conversion writes *)

(** X7. The file a conversion returns.  When [converter.extract] returns
    a path, the input was a zarr archive whose window is empty in neither
    direction, the file that the returned string names holds that window
    as NetCDF, and no other local file, no object and no printed line has
    changed. *)
Theorem extract_writes_what_it_returns (E : env) (filepath : string) (w w' : world)
    (p : string)
    (Hrun : converter.extract E filepath w = (Ret p, w')) :
  exists ds bbox,
    fs w !! Pathlib.Path filepath = Some (ZarrZip ds)
    /\ converter.select_bbox ds = inr bbox
    /\ latitude bbox <> [] /\ longitude bbox <> []
    /\ fs w' = <[Pathlib.Path p := NetCDF bbox]> (fs w)
    /\ s3 w' = s3 w /\ out w' = out w.
Proof.
  apply extract_returns_inv in Hrun as (ds & bbox & Hfile & Hsel & Hlat & Hlon & -> & ->).
  exists ds, bbox. rewrite Path_output_path. cbn [fs s3 out]. auto 10.
Qed.

Lemma extract_writes_what_it_returns_witness :
  exists ds bbox,
    fs (Staged.on_disk "in/a.zarr.zip" Sample.grid) !! Pathlib.Path "in/a.zarr.zip"
    = Some (ZarrZip ds)
    /\ converter.select_bbox ds = inr bbox
    /\ latitude bbox <> [] /\ longitude bbox <> []
    /\ fs (converter.extract Sample.calm "in/a.zarr.zip"
             (Staged.on_disk "in/a.zarr.zip" Sample.grid)).2
       = <[Pathlib.Path "in/a.nc" := NetCDF bbox]> (fs (Staged.on_disk "in/a.zarr.zip" Sample.grid))
    /\ s3 (converter.extract Sample.calm "in/a.zarr.zip"
             (Staged.on_disk "in/a.zarr.zip" Sample.grid)).2
       = s3 (Staged.on_disk "in/a.zarr.zip" Sample.grid)
    /\ out (converter.extract Sample.calm "in/a.zarr.zip"
              (Staged.on_disk "in/a.zarr.zip" Sample.grid)).2
       = out (Staged.on_disk "in/a.zarr.zip" Sample.grid).
Proof.
  apply (extract_writes_what_it_returns Sample.calm "in/a.zarr.zip"
           (Staged.on_disk "in/a.zarr.zip" Sample.grid) _ "in/a.nc").
  vm_compute. reflexivity.
Defined.

Lemma replace_absent (old new s : string) :
  Str.find old s = None -> Str.replace old new s = s.
Proof.
  unfold Str.replace. induction s as [|c s IH]; [reflexivity|].
  cbn [Str.find Str.replace_from].
  destruct (String.prefix old (String c s)); [discriminate|].
  destruct (Str.find old s) as [n|]; [discriminate|].
  intros _. rewrite IH; reflexivity.
Qed.

(** A parsed path is its parent joined with its name. *)
Lemma joinpath_parent_name (p : path) :
  Forall good_part p.2 -> Pathlib.joinpath (Pathlib.parent p) (Pathlib.name p) = p.
Proof.
  destruct p as [abs ps]. cbn [snd]. intros Hg.
  unfold Pathlib.joinpath, Pathlib.parent, Pathlib.name. cbn [fst snd].
  induction ps as [|x l _] using rev_ind; [reflexivity|].
  assert (Hx : good_part x).
  { rewrite List.Forall_forall in Hg. apply Hg. apply in_or_app. right. left. reflexivity. }
  rewrite last_snoc, (startswith_no_slash x (proj1 Hx)), (Path_single x Hx).
  cbn [snd]. rewrite List.removelast_last. reflexivity.
Qed.

(** X8. An input that is not named [*.zarr.zip].  When the file name
    holds no [.zarr.zip], [replace] leaves it as it is, the output path
    is the input path, and a conversion that returns has overwritten the
    archive with its NetCDF window. *)
Theorem extract_overwrites_other_names (E : env) (filepath : string) (w w' : world)
    (p : string)
    (Hname : Str.find ".zarr.zip" (Pathlib.name (Pathlib.Path filepath)) = None)
    (Hrun : converter.extract E filepath w = (Ret p, w')) :
  converter.output_path filepath = Pathlib.Path filepath
  /\ Pathlib.Path p = Pathlib.Path filepath
  /\ exists ds bbox,
       fs w !! Pathlib.Path filepath = Some (ZarrZip ds)
       /\ fs w' !! Pathlib.Path filepath = Some (NetCDF bbox)
       /\ fs w' = <[Pathlib.Path filepath := NetCDF bbox]> (fs w).
Proof.
  assert (Hout : converter.output_path filepath = Pathlib.Path filepath).
  { unfold converter.output_path. rewrite (replace_absent _ _ _ Hname).
    apply joinpath_parent_name, Path_parts_good. }
  apply extract_returns_inv in Hrun as (ds & bbox & Hfile & _ & _ & _ & -> & ->).
  rewrite Path_output_path, Hout. split; [reflexivity|]. split; [reflexivity|].
  exists ds, bbox. cbn [fs]. rewrite lookup_insert_eq. auto.
Qed.

Lemma extract_overwrites_other_names_witness :
  converter.output_path "in/a.zip" = Pathlib.Path "in/a.zip"
  /\ Pathlib.Path "in/a.zip" = Pathlib.Path "in/a.zip"
  /\ exists ds bbox,
       fs (Staged.on_disk "in/a.zip" Sample.grid) !! Pathlib.Path "in/a.zip" = Some (ZarrZip ds)
       /\ fs (converter.extract Sample.calm "in/a.zip" (Staged.on_disk "in/a.zip" Sample.grid)).2
          !! Pathlib.Path "in/a.zip" = Some (NetCDF bbox)
       /\ fs (converter.extract Sample.calm "in/a.zip" (Staged.on_disk "in/a.zip" Sample.grid)).2
          = <[Pathlib.Path "in/a.zip" := NetCDF bbox]> (fs (Staged.on_disk "in/a.zip" Sample.grid)).
Proof.
  apply (extract_overwrites_other_names Sample.calm "in/a.zip"
           (Staged.on_disk "in/a.zip" Sample.grid) _ "in/a.zip").
  - reflexivity.
  - vm_compute. reflexivity.
Defined.

(** ** Relating the world before and after

    [preserves R m] for a preorder [R]: the rules for the statements of
    the monad, and a tactic that walks through a computation and leaves
    one goal [R w w'] for each primitive step. *)

Section Preserves.

Context {A B : Type} (R : relation world) `{!PreOrder R}.

Lemma preserves_ret (a : A) : preserves R (ret a).
Proof. intros w. simpl. reflexivity. Qed.

Lemma preserves_raise (e : exn) : preserves R (@raise A e).
Proof. intros w. simpl. reflexivity. Qed.

Lemma preserves_get_world : preserves R get_world.
Proof. intros w. simpl. reflexivity. Qed.

Lemma preserves_bind (m : M A) (k : A -> M B) :
  preserves R m -> (forall a, preserves R (k a)) -> preserves R (bind m k).
Proof.
  intros Hm Hk w. unfold bind. specialize (Hm w).
  destruct (m w) as [[a|e|] w1]; simpl in *; auto.
  transitivity w1; [exact Hm | apply Hk].
Qed.

Lemma preserves_try_except (m : M A) (catches : exn -> bool) (h : exn -> M A) :
  preserves R m -> (forall e, preserves R (h e)) -> preserves R (try_except m catches h).
Proof.
  intros Hm Hh w. unfold try_except. specialize (Hm w).
  destruct (m w) as [[a|e|] w1]; simpl in *; auto.
  destruct (catches e); simpl; auto.
  transitivity w1; [exact Hm | apply Hh].
Qed.

Lemma preserves_try_finally (m : M A) (fin : M unit) :
  preserves R m -> preserves R fin -> preserves R (try_finally m fin).
Proof.
  intros Hm Hf w. unfold try_finally. specialize (Hm w).
  destruct (m w) as [r w1]; simpl in *. specialize (Hf w1).
  destruct (fin w1) as [[u|e|] w2]; simpl in *; (transitivity w1; [exact Hm | exact Hf]).
Qed.

Lemma preserves_outside (E : env) (c : call) :
  (forall w, R w (logged c w)) -> preserves R (outside E c).
Proof. intros H w. unfold outside. destruct (fault E c); apply H. Qed.

End Preserves.

Lemma preserves_attempt {A} (R : relation world) `{!PreOrder R} (m : M A) :
  preserves R m -> preserves R (attempt m).
Proof.
  intros Hm. unfold attempt. apply preserves_try_except; [exact _| |].
  - apply preserves_bind; [exact _ | exact Hm | intros a; apply preserves_ret; exact _].
  - intros e; apply preserves_ret; exact _.
Qed.

Ltac preserves_step :=
  lazymatch goal with
  | |- preserves _ (bind _ _) => apply preserves_bind; [exact _ | | intros ?]
  | |- preserves _ (ret _) => apply preserves_ret; exact _
  | |- preserves _ (raise _) => apply preserves_raise; exact _
  | |- preserves _ get_world => apply preserves_get_world; exact _
  | |- preserves _ (outside _ _) => apply preserves_outside; intros ?
  | |- preserves _ (try_except _ _ _) => apply preserves_try_except; [exact _ | | intros ?]
  | |- preserves _ (try_finally _ _) => apply preserves_try_finally; [exact _ | | intros ?]
  | |- preserves _ (attempt _) => apply preserves_attempt; [exact _ |]
  | |- preserves _ (match ?x with _ => _ end) => destruct x
  | |- preserves _ (let _ := _ in _) => cbv zeta
  | |- preserves _ (print _) => intros ?
  | |- preserves _ (write_file _ _) => intros ?
  | |- preserves _ (delete_file _) => intros ?
  | |- preserves _ (put_object _ _ _) => intros ?
  end.

#[local] Instance bucket_same_preorder : PreOrder bucket_same.
Proof.
  split; [intros w; reflexivity|].
  intros w1 w2 w3 H1 H2. unfold bucket_same in *. congruence.
Qed.

#[local] Instance bucket_grows_preorder (K : string * string -> Prop) :
  PreOrder (bucket_grows_within K).
Proof.
  split; [intros w bk; left; reflexivity|].
  intros w1 w2 w3 H1 H2 bk.
  destruct (H2 bk) as [E2|H]; [|right; exact H].
  rewrite E2. apply H1.
Qed.

#[local] Instance harmless_preorder : PreOrder harmless.
Proof.
  split.
  - intros w. split; [reflexivity|]. split; [auto|]. exists []. rewrite app_nil_r. auto.
  - intros w1 w2 w3 (S1 & F1 & n1 & C1 & N1) (S2 & F2 & n2 & C2 & N2).
    split; [congruence|]. split; [auto|]. exists (n1 ++ n2).
    rewrite C2, C1, app_assoc. split; [reflexivity | apply Forall_app; auto].
Qed.

(** ** The file loop, stage by stage *)

Section Stages.

Variables (E : env) (repo_id : string) (d : date).
Variables (local_root s3_bucket s3_prefix : string) (force dryrun : bool).
Variable remote_path : string.

Let filename := OsPath.basename remote_path.
Let key := converted_s3_key d s3_prefix filename.

(** What a download that returns has done. *)
Lemma download_inv (w w1 : world) (p : string) :
  download E repo_id d local_root force dryrun remote_path filename w = (Ret p, w1) ->
  s3 w1 = s3 w
  /\ if dryrun
     then p = local_original d local_root filename
          /\ fs w1 = <[Pathlib.Path p := Raw EmptyString]> (fs w)
     else p = OsPath.join "./" remote_path
          /\ fs w1 = <[Pathlib.Path p := repo_file E repo_id remote_path]> (fs w).
Proof.
  unfold download, hf_hub_download, open_write_empty, time_sleep, outside.
  destruct dryrun; run.
  - destruct (fault E (OpenWrite _)); [discriminate|]. run.
    destruct (fault E (Sleep 1)); [discriminate|]. run.
    intros [= <- <-]. auto.
  - destruct (fault E (HfHubDownload _ _ _ _)); [discriminate|]. run.
    intros [= <- <-]. auto.
Qed.

(** What an upload that returns has done. *)
Lemma upload_inv (converted_path : string) (w w1 : world) :
  upload E d s3_bucket s3_prefix dryrun converted_path filename w = (Ret tt, w1) ->
  fs w1 = fs w
  /\ if dryrun then s3 w1 = s3 w
     else exists c, fs w !! Pathlib.Path converted_path = Some c
                    /\ s3 w1 = <[(s3_bucket, key) := c]> (s3 w).
Proof.
  unfold upload, upload_to_s3, upload_file, outside. fold key.
  destruct dryrun; run.
  - intros [= <-]. auto.
  - destruct (fault E (UploadFile _ _ _)); [discriminate|]. run.
    destruct (fs w !! Pathlib.Path converted_path) as [c|] eqn:Hc; [|discriminate].
    intros [= <-]. cbn [fs s3]. eauto.
Qed.

(** An upload that raises has stored nothing. *)
Lemma upload_raise_inv (converted_path : string) (w w1 : world) (e : exn) :
  upload E d s3_bucket s3_prefix dryrun converted_path filename w = (Raise e, w1) ->
  w1 = logged (UploadFile converted_path s3_bucket key) w.
Proof.
  unfold upload, upload_to_s3, upload_file, outside. fold key.
  destruct dryrun; run; [discriminate|].
  destruct (fault E (UploadFile _ _ _)); [intros [= _ <-]; reflexivity|]. run.
  destruct (fs w !! Pathlib.Path converted_path) as [c|] eqn:Hc; [discriminate|].
  intros [= _ <-]. reflexivity.
Qed.

(** Reading the stages backwards, from the line to the stage that
    wrote it. *)
Lemma run_stages_inv (w w' : world) (line : string) :
  run_stages E repo_id d local_root s3_bucket s3_prefix force dryrun remote_path w = (Ret line, w') ->
  let w1 := printed ("   Downloading HF file: " +:+ remote_path) w in
  (exists e w2,
      download E repo_id d local_root force dryrun remote_path filename w1 = (Raise e, w2)
      /\ line = outcome_line FAILED_DOWNLOAD d filename
      /\ w' = printed ("    Download failed: " +:+ str_exn e) w2)
  \/ exists p w2,
       download E repo_id d local_root force dryrun remote_path filename w1 = (Ret p, w2)
       /\ let w3 := printed "   Converting..." w2 in
          (exists e w4,
              converter.extract E p w3 = (Raise e, w4)
              /\ line = outcome_line FAILED_CONVERT d filename
              /\ w' = printed ("    Conversion failed: " +:+ str_exn e) w4)
          \/ exists q w4,
               converter.extract E p w3 = (Ret q, w4)
               /\ let w5 := printed ("   Uploading to S3 → " +:+ key) w4 in
                  (exists e w6,
                      upload E d s3_bucket s3_prefix dryrun q filename w5 = (Raise e, w6)
                      /\ line = outcome_line FAILED_UPLOAD d filename
                      /\ w' = printed ("    Upload failed: " +:+ str_exn e) w6)
                  \/ exists w6 w7,
                       upload E d s3_bucket s3_prefix dryrun q filename w5 = (Ret tt, w6)
                       /\ cleanup E d local_root filename w6 = (Ret tt, w7)
                       /\ line = outcome_line OK d filename
                       /\ w' = printed (" ✓ Completed " +:+ filename) w7.
Proof.
  intros Hrun w1. unfold run_stages in Hrun. cbv zeta in Hrun. fold filename key in Hrun.
  apply bind_ret_inv in Hrun as ([] & w1' & [= <-] & Hrun). fold w1 in Hrun.
  apply bind_ret_inv in Hrun as (dl & w2 & Hdl & Hrun).
  apply attempt_inv in Hdl. destruct dl as [e|p].
  { left. destruct Hdl as [Hdl _].
    apply bind_ret_inv in Hrun as ([] & w3 & [= <-] & [= <- <-]). eauto 10. }
  right. exists p, w2. split; [exact Hdl|]. intros w3.
  apply bind_ret_inv in Hrun as ([] & w3' & [= <-] & Hrun). fold w3 in Hrun.
  apply bind_ret_inv in Hrun as (cv & w4 & Hcv & Hrun).
  apply attempt_inv in Hcv. destruct cv as [e|q].
  { left. destruct Hcv as [Hcv _].
    apply bind_ret_inv in Hrun as ([] & w5 & [= <-] & [= <- <-]). eauto 10. }
  right. exists q, w4. split; [exact Hcv|]. intros w5.
  apply bind_ret_inv in Hrun as ([] & w5' & [= <-] & Hrun). fold w5 in Hrun.
  apply bind_ret_inv in Hrun as (up & w6 & Hup & Hrun).
  apply attempt_inv in Hup. destruct up as [e|[]].
  { left. destruct Hup as [Hup _].
    apply bind_ret_inv in Hrun as ([] & w7 & [= <-] & [= <- <-]). eauto 10. }
  right. exists w6.
  apply bind_ret_inv in Hrun as ([] & w7 & Hcl & Hrun).
  apply bind_ret_inv in Hrun as ([] & w8 & [= <-] & [= <- <-]).
  exists w7. auto.
Qed.

(** Reading one iteration backwards: the gate was closed, or the stages
    ran from the world the gate leaves. *)
Lemma process_file_inv (w w' : world) (line : string) :
  process_file E repo_id d local_root s3_bucket s3_prefix force dryrun remote_path w = (Ret line, w') ->
  let w0 := gate_world d local_root s3_bucket s3_prefix force remote_path w in
  fault E (MakeDirs (local_dir d local_root)) = None
  /\ ((force = false
       /\ exists_answer E w s3_bucket key = Ret true
       /\ line = outcome_line SKIPPED d filename
       /\ w' = printed (" ✓ Already in S3, skipping → " +:+ key) w0)
      \/ (gate_open E d s3_bucket s3_prefix force remote_path w
          /\ run_stages E repo_id d local_root s3_bucket s3_prefix force dryrun remote_path w0
             = (Ret line, w'))).
Proof.
  intros Hrun w0. rewrite process_file_unfold in Hrun. cbv zeta in Hrun.
  unfold os_makedirs, outside in Hrun. fold filename key in Hrun.
  apply bind_ret_inv in Hrun as ([] & w1 & Hmk & Hrun).
  destruct (fault E (MakeDirs (local_dir d local_root))) eqn:Fmk; [discriminate|].
  injection Hmk as <-. split; [reflexivity|].
  apply bind_ret_inv in Hrun as ([] & w2 & [= <-] & Hrun).
  apply bind_ret_inv in Hrun as (skip & w3 & Hskip & Hrun).
  subst w0. unfold gate_world, gate_open, processing_line. fold filename key.
  destruct force; cbn [negb] in Hskip.
  - injection Hskip as <- <-. right. split; [left; reflexivity | exact Hrun].
  - rewrite s3_key_exists_run in Hskip. injection Hskip as Hans <-.
    cbn [s3 printed logged] in Hans.
    destruct skip.
    + left. apply bind_ret_inv in Hrun as ([] & w4 & [= <-] & [= <- <-]).
      split; [reflexivity|]. split; [exact Hans|]. split; reflexivity.
    + right. split; [right; exact Hans | exact Hrun].
Qed.

End Stages.

(** *** Steps that lose nothing *)

Lemma harmless_printed (line : string) (w : world) : harmless w (printed line w).
Proof.
  split; [reflexivity|]. split; [auto|]. exists []. cbn [printed calls].
  rewrite app_nil_r. auto.
Qed.

Lemma harmless_logged (c : call) (w : world) :
  match c with Remove _ => False | _ => True end -> harmless w (logged c w).
Proof.
  intros Hc. split; [reflexivity|]. split; [auto|]. exists [c]. cbn [logged calls]. auto.
Qed.

Lemma harmless_written (p : path) (c : content) (w : world) :
  harmless w (mkWorld (<[p := c]> (fs w)) (s3 w) (calls w) (out w)).
Proof.
  split; [reflexivity|]. split.
  - intros q Hq. cbn [fs]. destruct (decide (p = q)) as [->|Hne];
      [rewrite lookup_insert_eq; eauto | rewrite lookup_insert_ne; assumption].
  - exists []. cbn [calls]. rewrite app_nil_r. auto.
Qed.

Ltac harmless_prim :=
  first [ apply harmless_printed
        | apply harmless_written
        | apply harmless_logged; exact I
        | reflexivity ].

(** Peels the last step off the world on the right. *)
Ltac harmless_peel :=
  lazymatch goal with
  | |- harmless ?a ?a => reflexivity
  | |- harmless _ (printed _ ?b) => transitivity b; [|apply harmless_printed]
  | |- harmless _ (logged _ ?b) => transitivity b; [|apply harmless_logged; exact I]
  end.

Lemma download_harmless (E : env) (repo_id : string) (d : date) (local_root : string)
    (force dryrun : bool) (remote_path filename : string) :
  preserves harmless (download E repo_id d local_root force dryrun remote_path filename).
Proof.
  unfold download, hf_hub_download, open_write_empty, time_sleep.
  repeat preserves_step; harmless_prim.
Qed.

Lemma extract_harmless (E : env) (filepath : string) :
  preserves harmless (converter.extract E filepath).
Proof.
  unfold converter.extract, converter.open_archive.
  repeat preserves_step; harmless_prim.
Qed.

Lemma gate_world_harmless (d : date) (local_root s3_bucket s3_prefix : string) (force : bool)
    (remote_path : string) (w : world) :
  harmless w (gate_world d local_root s3_bucket s3_prefix force remote_path w).
Proof.
  unfold gate_world.
  assert (H1 : harmless w (printed (processing_line remote_path)
                             (logged (MakeDirs (local_dir d local_root)) w))).
  { etransitivity; [apply (harmless_logged (MakeDirs (local_dir d local_root))); exact I|].
    apply harmless_printed. }
  destruct force; [exact H1|].
  etransitivity; [exact H1|]. apply harmless_logged. exact I.
Qed.

Section Outcomes.

Variables (E : env) (repo_id : string) (d : date).
Variables (local_root s3_bucket s3_prefix : string).
Variable remote_path : string.

Let filename := OsPath.basename remote_path.
Let key := converted_s3_key d s3_prefix filename.

(** X9. Outcomes other than [OK].  An iteration that reports anything
    but [OK] (skipped, or failed in download, conversion or upload) has
    left the bucket as it was, has removed no local file, and has not
    called [os.remove]. *)
Theorem only_ok_stores_and_removes (force dryrun : bool) (w w' : world) (line : string)
    (Hrun : process_file E repo_id d local_root s3_bucket s3_prefix force dryrun remote_path w
            = (Ret line, w'))
    (Hline : line <> outcome_line OK d filename) :
  s3 w' = s3 w
  /\ (forall p, is_Some (fs w !! p) -> is_Some (fs w' !! p))
  /\ exists new, calls w' = calls w ++ new
                 /\ Forall (fun c => match c with Remove _ => False | _ => True end) new.
Proof.
  change (harmless w w').
  apply process_file_inv in Hrun as (_ & Hrun). cbv zeta in Hrun.
  pose proof (gate_world_harmless d local_root s3_bucket s3_prefix force remote_path w) as H0.
  destruct Hrun as [(_ & _ & _ & ->) | (_ & Hrun)].
  { etransitivity; [exact H0 | apply harmless_printed]. }
  etransitivity; [exact H0|]. clear H0.
  apply run_stages_inv in Hrun. cbv zeta in Hrun.
  match type of Hrun with context [download _ _ _ _ _ _ _ _ ?w1] =>
    pose proof (download_harmless E repo_id d local_root force dryrun remote_path
                  (OsPath.basename remote_path) w1) as Hd;
    assert (H1 : harmless (gate_world d local_root s3_bucket s3_prefix force remote_path w) w1)
      by apply harmless_printed
  end.
  destruct Hrun as [(e & w2 & Hdl & _ & ->) | (p & w2 & Hdl & Hrun)];
    rewrite Hdl in Hd; cbn [snd] in Hd.
  { etransitivity; [exact H1|]. etransitivity; [exact Hd | apply harmless_printed]. }
  etransitivity; [exact H1|]. etransitivity; [exact Hd|]. clear H1 Hd Hdl.
  match type of Hrun with context [converter.extract E p ?w3] =>
    pose proof (extract_harmless E p w3) as Hc;
    assert (H3 : harmless w2 w3) by apply harmless_printed
  end.
  destruct Hrun as [(e & w4 & Hcv & _ & ->) | (q & w4 & Hcv & Hrun)];
    rewrite Hcv in Hc; cbn [snd] in Hc.
  { etransitivity; [exact H3|]. etransitivity; [exact Hc | apply harmless_printed]. }
  etransitivity; [exact H3|]. etransitivity; [exact Hc|]. clear H3 Hc Hcv.
  destruct Hrun as [(e & w6 & Hup & _ & ->) | (w6 & w7 & _ & _ & Hok & _)];
    [|contradiction].
  apply upload_raise_inv in Hup as ->.
  repeat harmless_peel.
Qed.

(** An [OK] outside dry-run: the repository file is a zarr archive, its
    window is empty in neither direction, and the bucket now holds that
    window at the destination key. *)
Lemma ok_stored (force : bool) (w w' : world) :
  process_file E repo_id d local_root s3_bucket s3_prefix force false remote_path w
    = (Ret (outcome_line OK d filename), w') ->
  exists ds bbox,
    repo_file E repo_id remote_path = ZarrZip ds
    /\ converter.select_bbox ds = inr bbox
    /\ latitude bbox <> [] /\ longitude bbox <> []
    /\ s3 w' = <[(s3_bucket, key) := NetCDF bbox]> (s3 w).
Proof.
  intros Hrun.
  apply process_file_inv in Hrun as (_ & Hrun). cbv zeta in Hrun.
  destruct Hrun as [(_ & _ & Hl & _) | (_ & Hrun)];
    [apply outcome_line_inj in Hl; discriminate|].
  assert (Hs0 : s3 (gate_world d local_root s3_bucket s3_prefix force remote_path w) = s3 w)
    by (unfold gate_world; destruct force; reflexivity).
  apply run_stages_inv in Hrun. cbv zeta in Hrun.
  destruct Hrun as [(e & w2 & _ & Hl & _) | (p & w2 & Hdl & Hrun)];
    [apply outcome_line_inj in Hl; discriminate|].
  apply download_inv in Hdl as (Hs2 & -> & Hf2). cbn [s3 printed] in Hs2.
  destruct Hrun as [(e & w4 & _ & Hl & _) | (q & w4 & Hcv & Hrun)];
    [apply outcome_line_inj in Hl; discriminate|].
  apply extract_returns_inv in Hcv as (ds & bbox & Hfile & Hsel & Hlat & Hlon & -> & ->).
  cbn [fs s3 printed] in *. rewrite Hf2, lookup_insert_eq in Hfile.
  destruct Hrun as [(e & w6 & _ & Hl & _) | (w6 & w7 & Hup & Hcl & _ & ->)];
    [apply outcome_line_inj in Hl; discriminate|].
  apply upload_inv in Hup as (_ & c & Hc & Hs6). cbn [fs s3 printed] in *.
  rewrite Path_output_path, lookup_insert_eq in Hc. injection Hc as <-.
  rewrite cleanup_run in Hcl. cbv zeta in Hcl.
  assert (Hs7 : s3 w7 = s3 w6).
  { apply (f_equal snd) in Hcl. cbn [snd] in Hcl. rewrite <- Hcl.
    destruct (fault E (Remove _)) as [e|]; [destruct (is_OSError e)|]; reflexivity. }
  exists ds, bbox. cbn [s3 printed]. rewrite Hs7, Hs6, Hs2, Hs0.
  injection Hfile as Hfile. auto.
Qed.

End Outcomes.

Lemma only_ok_stores_and_removes_witness :
  s3 (process_file Witness.south_env "repo" Sample.july1 "./data" "bucket" "prefix" false false
        "data/2025/7/1/a.zarr.zip" Sample.empty_world).2 = s3 Sample.empty_world
  /\ (forall p, is_Some (fs Sample.empty_world !! p) ->
        is_Some (fs (process_file Witness.south_env "repo" Sample.july1 "./data" "bucket" "prefix"
                       false false "data/2025/7/1/a.zarr.zip" Sample.empty_world).2 !! p))
  /\ exists new,
       calls (process_file Witness.south_env "repo" Sample.july1 "./data" "bucket" "prefix"
                false false "data/2025/7/1/a.zarr.zip" Sample.empty_world).2
       = calls Sample.empty_world ++ new
       /\ Forall (fun c => match c with Remove _ => False | _ => True end) new.
Proof.
  apply (only_ok_stores_and_removes Witness.south_env "repo" Sample.july1 "./data" "bucket"
           "prefix" "data/2025/7/1/a.zarr.zip" false false Sample.empty_world _
           "FAILED-CONVERT 2025-07-01 a.zarr.zip").
  - vm_compute. reflexivity.
  - discriminate.
Defined.

(** ** From one file to the run *)

Section RunPreserves.

Context (R : relation world) `{!PreOrder R}.
Variables (E : env) (repo_id local_root s3_bucket s3_prefix : string) (force dryrun : bool).

Hypothesis R_printed : forall line w, R w (printed line w).
Hypothesis R_logged : forall c w, R w (logged c w).
Hypothesis R_file : forall d remote_path,
  preserves R (process_file E repo_id d local_root s3_bucket s3_prefix force dryrun remote_path).

Lemma process_files_preserves (d : date) (hf_files : list string) :
  preserves R (process_files E repo_id d local_root s3_bucket s3_prefix force dryrun hf_files).
Proof.
  induction hf_files as [|f rest IH]; cbn [process_files]; repeat preserves_step; auto.
Qed.

Lemma list_hf_files_preserves (d : date) :
  preserves R (list_hf_files_for_date E repo_id d).
Proof.
  unfold list_hf_files_for_date, list_repo_tree, node_paths.
  repeat preserves_step; first [apply R_printed | apply R_logged].
Qed.

Lemma process_single_day_preserves (d : date) :
  preserves R (process_single_day E repo_id d local_root s3_bucket s3_prefix force dryrun).
Proof.
  unfold process_single_day.
  apply preserves_bind;
    [exact _ | destruct dryrun; repeat preserves_step; apply R_printed | intros _].
  apply preserves_bind; [exact _ | intros w; apply R_printed | intros _].
  apply preserves_bind; [exact _ | apply list_hf_files_preserves | intros hf_files].
  destruct hf_files as [|f rest]; [repeat preserves_step; apply R_printed|].
  apply process_files_preserves.
Qed.

Lemma pipeline_loop_preserves (fuel : nat) :
  forall (d end_ : date) (acc : list string),
    preserves R (pipeline_loop E fuel repo_id d end_ local_root s3_bucket s3_prefix force dryrun acc).
Proof.
  induction fuel as [|fuel IH]; intros d end_ acc; cbn [pipeline_loop].
  - intros w. reflexivity.
  - destruct (Date.leb d end_); [|apply preserves_ret; exact _].
    apply preserves_bind; [exact _ | intros w; apply R_printed | intros _].
    apply preserves_bind; [exact _ | apply process_single_day_preserves | intros day_results].
    destruct (Date.next_day d) as [d'|]; [apply IH | apply preserves_raise; exact _].
Qed.

Lemma print_all_preserves (lines : list string) : preserves R (print_all lines).
Proof.
  induction lines as [|l lines IH]; cbn [print_all]; repeat preserves_step;
    [apply R_printed | exact IH].
Qed.

Lemma run_pipeline_preserves (fuel : nat) (start end_ : date) :
  preserves R (run_pipeline E fuel repo_id start end_ local_root s3_bucket s3_prefix force dryrun).
Proof.
  unfold run_pipeline.
  repeat (apply preserves_bind; [exact _ | | intros ?]);
    try (intros w; apply R_printed);
    try (apply preserves_outside; intros w; apply R_logged).
  - apply pipeline_loop_preserves.
  - apply print_all_preserves.
  - apply preserves_ret; exact _.
Qed.

End RunPreserves.

Section RunEmits.

Variable P : call -> Prop.
Variables (E : env) (repo_id local_root s3_bucket s3_prefix : string) (force dryrun : bool).

Hypothesis P_api : P NewHfApi.
Hypothesis P_client : P GetS3Client.
Hypothesis P_list : forall d, P (ListRepoTree repo_id (folder_path d)).
Hypothesis P_read : forall d, P (ReadRepoTree repo_id (folder_path d)).
Hypothesis P_file : forall d remote_path,
  emits P (process_file E repo_id d local_root s3_bucket s3_prefix force dryrun remote_path).

Lemma process_files_emits (d : date) (hf_files : list string) :
  emits P (process_files E repo_id d local_root s3_bucket s3_prefix force dryrun hf_files).
Proof.
  induction hf_files as [|f rest IH]; cbn [process_files]; emits_auto; auto.
Qed.

Lemma list_hf_files_emits (d : date) : emits P (list_hf_files_for_date E repo_id d).
Proof.
  intros w. rewrite list_hf_files_for_date_run.
  destruct (fault E (ListRepoTree repo_id (folder_path d))) as [e|].
  - exists [ListRepoTree repo_id (folder_path d)].
    split; [destruct (is_Exception e); reflexivity | repeat constructor; apply P_list].
  - exists [ListRepoTree repo_id (folder_path d); ReadRepoTree repo_id (folder_path d)].
    split.
    + destruct (fault E (ReadRepoTree repo_id (folder_path d)));
        cbn [snd logged calls]; rewrite <- app_assoc; reflexivity.
    + repeat constructor; [apply P_list | apply P_read].
Qed.

Lemma process_single_day_emits (d : date) :
  emits P (process_single_day E repo_id d local_root s3_bucket s3_prefix force dryrun).
Proof.
  unfold process_single_day.
  apply emits_bind; [destruct dryrun; emits_auto | intros _].
  apply emits_bind; [apply emits_print | intros _].
  apply emits_bind; [apply list_hf_files_emits | intros hf_files].
  destruct hf_files as [|f rest]; [emits_auto|]. apply process_files_emits.
Qed.

Lemma pipeline_loop_emits (fuel : nat) :
  forall (d end_ : date) (acc : list string),
    emits P (pipeline_loop E fuel repo_id d end_ local_root s3_bucket s3_prefix force dryrun acc).
Proof.
  induction fuel as [|fuel IH]; intros d end_ acc; cbn [pipeline_loop].
  - intros w. exists []. simpl. rewrite app_nil_r. auto.
  - destruct (Date.leb d end_); [|apply emits_ret].
    apply emits_bind; [apply emits_print | intros _].
    apply emits_bind; [apply process_single_day_emits | intros day_results].
    destruct (Date.next_day d) as [d'|]; [apply IH | apply emits_raise].
Qed.

Lemma print_all_emits (lines : list string) : emits P (print_all lines).
Proof. induction lines as [|l lines IH]; cbn [print_all]; emits_auto; auto. Qed.

Lemma run_pipeline_emits (fuel : nat) (start end_ : date) :
  emits P (run_pipeline E fuel repo_id start end_ local_root s3_bucket s3_prefix force dryrun).
Proof.
  unfold run_pipeline.
  repeat (apply emits_bind; [| intros ?]);
    try apply emits_print; try (apply emits_outside; assumption).
  - apply pipeline_loop_emits.
  - apply print_all_emits.
  - apply emits_ret.
Qed.

End RunEmits.

(** ** What a run touches *)

Lemma key_under_prefix (d : date) (s3_bucket s3_prefix filename : string) :
  run_keys s3_bucket s3_prefix (s3_bucket, converted_s3_key d s3_prefix filename).
Proof.
  split; [reflexivity|]. cbn [snd]. unfold converted_s3_key.
  rewrite <- append_assoc. apply prefix_append.
Qed.

(** X10. The calls of a run.  Whatever the environment, the fuel and the
    range, [run_pipeline] lists, and reads, only folders
    [data/<y>/<m>/<d>] of [repo_id]; names no bucket but [s3_bucket] and no key outside
    [s3_prefix/]; makes no existence check under [force]; downloads only
    from [repo_id] into ["./"], handing [force] on as [force_download];
    and in a dry run neither downloads nor uploads, while outside a dry
    run it never creates a file with [open] and never sleeps. *)
Theorem run_stays_within_configuration (E : env) (fuel : nat)
    (repo_id : string) (start end_ : date) (local_root s3_bucket s3_prefix : string)
    (force dryrun : bool) :
  emits (run_calls repo_id s3_bucket s3_prefix force dryrun)
    (run_pipeline E fuel repo_id start end_ local_root s3_bucket s3_prefix force dryrun).
Proof.
  apply run_pipeline_emits; try exact I.
  - intros d. split; [reflexivity | eauto].
  - intros d. split; [reflexivity | eauto].
  - intros d remote_path. eapply emits_weaken; [|apply process_file_emits].
    intros c Hc. destruct c; cbn [file_calls run_calls] in *; try tauto.
    + destruct Hc as (Hf & -> & ->). split; [exact Hf | apply key_under_prefix].
    + destruct Hc as (Hd & _ & -> & ->). split; [exact Hd | apply key_under_prefix].
Qed.

Lemma grows_put (K : string * string -> Prop) (bucket key : string) (c : content) (w : world) :
  K (bucket, key) -> bucket_grows_within K w (put_object bucket key c w).2.
Proof.
  intros HK bk. cbn [put_object snd s3]. destruct (decide (bk = (bucket, key))) as [->|Hne].
  - right. split; [exact HK|]. rewrite lookup_insert_eq. eauto.
  - left. apply lookup_insert_ne. congruence.
Qed.

Lemma process_file_grows (E : env) (repo_id : string) (d : date)
    (local_root s3_bucket s3_prefix : string) (force dryrun : bool) (remote_path : string) :
  preserves (bucket_grows_within (run_keys s3_bucket s3_prefix))
    (process_file E repo_id d local_root s3_bucket s3_prefix force dryrun remote_path).
Proof.
  unfold process_file, s3_key_exists, head_object, download, hf_hub_download, open_write_empty,
    time_sleep, upload, upload_to_s3, upload_file, cleanup, os_remove, os_makedirs,
    converter.extract, converter.open_archive.
  repeat preserves_step;
    first [apply grows_put, key_under_prefix | intros bk; left; reflexivity].
Qed.

Lemma process_file_dry (E : env) (repo_id : string) (d : date)
    (local_root s3_bucket s3_prefix : string) (force : bool) (remote_path : string) :
  preserves bucket_same
    (process_file E repo_id d local_root s3_bucket s3_prefix force true remote_path).
Proof.
  unfold process_file, s3_key_exists, head_object, download, hf_hub_download, open_write_empty,
    time_sleep, upload, upload_to_s3, upload_file, cleanup, os_remove, os_makedirs,
    converter.extract, converter.open_archive.
  cbn [negb]. repeat preserves_step; reflexivity.
Qed.

(** X11. The bucket over a run.  Whatever the environment, the fuel and
    the range, and whether the run returns or raises: no object is ever
    deleted; an object that has changed lies in [s3_bucket] under
    [s3_prefix/]; and a dry run leaves the whole bucket as it was. *)
Theorem run_only_adds_objects (E : env) (fuel : nat)
    (repo_id : string) (start end_ : date) (local_root s3_bucket s3_prefix : string)
    (force dryrun : bool) (w : world) :
  let w' := (run_pipeline E fuel repo_id start end_ local_root s3_bucket s3_prefix
               force dryrun w).2 in
  (forall bucket key, is_Some (s3 w !! (bucket, key)) -> is_Some (s3 w' !! (bucket, key)))
  /\ (forall bucket key,
        s3 w' !! (bucket, key) <> s3 w !! (bucket, key) ->
        bucket = s3_bucket /\ String.prefix (s3_prefix +:+ "/") key = true)
  /\ (dryrun = true -> s3 w' = s3 w).
Proof.
  intros w'.
  assert (Hg : bucket_grows_within (run_keys s3_bucket s3_prefix) w w').
  { apply (run_pipeline_preserves _ E repo_id local_root s3_bucket s3_prefix force dryrun).
    - intros line w0 bk. left. reflexivity.
    - intros c w0 bk. left. reflexivity.
    - intros d remote_path. apply process_file_grows. }
  split; [|split].
  - intros bucket key Hk. destruct (Hg (bucket, key)) as [->|[_ H]]; assumption.
  - intros bucket key Hne. destruct (Hg (bucket, key)) as [H|[H _]]; [contradiction | exact H].
  - intros ->.
    apply (run_pipeline_preserves bucket_same E repo_id local_root s3_bucket s3_prefix force true).
    + intros line w0. reflexivity.
    + intros c w0. reflexivity.
    + intros d remote_path. apply process_file_dry.
Qed.

(** ** Outcomes and what they tell *)

(** X12. What [OK] means.  Outside a dry run, an iteration that reports
    [OK] has stored at the destination key the NetCDF window of the file
    the repository holds at [remote_path]: that file is a zarr archive,
    its window is empty in neither direction, and nothing else in the
    bucket has changed.  This holds whatever else the environment does. *)
Theorem ok_means_stored (E : env) (repo_id : string) (d : date)
    (local_root s3_bucket s3_prefix : string) (force : bool) (remote_path : string)
    (w w' : world)
    (Hrun : process_file E repo_id d local_root s3_bucket s3_prefix force false remote_path w
            = (Ret (outcome_line OK d (OsPath.basename remote_path)), w')) :
  exists ds bbox,
    repo_file E repo_id remote_path = ZarrZip ds
    /\ converter.select_bbox ds = inr bbox
    /\ latitude bbox <> [] /\ longitude bbox <> []
    /\ s3 w' = <[(s3_bucket, converted_s3_key d s3_prefix (OsPath.basename remote_path))
                 := NetCDF bbox]> (s3 w).
Proof. eapply ok_stored; exact Hrun. Qed.

(** X13. Running twice.  After an iteration that reported [OK] outside a
    dry run, the same file processed again without [force] is skipped,
    provided [head_object] answers for the key: the second iteration
    reports [SKIPPED] and changes neither the local files nor the
    bucket. *)
Theorem rerun_is_skipped (E : env) (repo_id : string) (d : date)
    (local_root s3_bucket s3_prefix : string) (force dryrun : bool) (remote_path : string)
    (w w' : world)
    (Hrun : process_file E repo_id d local_root s3_bucket s3_prefix force false remote_path w
            = (Ret (outcome_line OK d (OsPath.basename remote_path)), w'))
    (Hhead : fault E (HeadObject s3_bucket
                        (converted_s3_key d s3_prefix (OsPath.basename remote_path))) = None) :
  exists w'',
    process_file E repo_id d local_root s3_bucket s3_prefix false dryrun remote_path w'
      = (Ret (outcome_line SKIPPED d (OsPath.basename remote_path)), w'')
    /\ fs w'' = fs w' /\ s3 w'' = s3 w'.
Proof.
  pose proof Hrun as Hinv. apply process_file_inv in Hinv as (Hmk & _).
  apply ok_stored in Hrun as (ds & bbox & _ & _ & _ & _ & Hs3).
  eexists. split; [|split].
  - apply gate_closed; [exact Hmk|].
    unfold exists_answer. rewrite Hhead, Hs3, lookup_insert_eq.
    rewrite bool_decide_eq_true_2 by eauto. reflexivity.
  - reflexivity.
  - reflexivity.
Qed.

Lemma rerun_is_skipped_witness :
  exists w'',
    process_file Sample.calm "repo" Sample.july1 "./data" "bucket" "prefix" false false
      "data/2025/7/1/a.zarr.zip"
      (process_file Sample.calm "repo" Sample.july1 "./data" "bucket" "prefix" false false
         "data/2025/7/1/a.zarr.zip" Sample.empty_world).2
    = (Ret (outcome_line SKIPPED Sample.july1 (OsPath.basename "data/2025/7/1/a.zarr.zip")), w'')
    /\ fs w'' = fs (process_file Sample.calm "repo" Sample.july1 "./data" "bucket" "prefix"
                      false false "data/2025/7/1/a.zarr.zip" Sample.empty_world).2
    /\ s3 w'' = s3 (process_file Sample.calm "repo" Sample.july1 "./data" "bucket" "prefix"
                      false false "data/2025/7/1/a.zarr.zip" Sample.empty_world).2.
Proof.
  apply (rerun_is_skipped Sample.calm "repo" Sample.july1 "./data" "bucket" "prefix" false false
           "data/2025/7/1/a.zarr.zip" Sample.empty_world).
  - vm_compute. reflexivity.
  - reflexivity.
Defined.

Lemma ok_means_stored_witness :
  exists ds bbox,
    repo_file Sample.calm "repo" "data/2025/7/1/a.zarr.zip" = ZarrZip ds
    /\ converter.select_bbox ds = inr bbox
    /\ latitude bbox <> [] /\ longitude bbox <> []
    /\ s3 (process_file Sample.calm "repo" Sample.july1 "./data" "bucket" "prefix" false false
             "data/2025/7/1/a.zarr.zip" Sample.empty_world).2
       = <[("bucket", converted_s3_key Sample.july1 "prefix"
                        (OsPath.basename "data/2025/7/1/a.zarr.zip")) := NetCDF bbox]>
           (s3 Sample.empty_world).
Proof.
  apply (ok_means_stored Sample.calm "repo" Sample.july1 "./data" "bucket" "prefix" false
           "data/2025/7/1/a.zarr.zip" Sample.empty_world).
  vm_compute. reflexivity.
Defined.

(** X14. Dry runs.  In a dry run the "downloaded" file is an empty file
    created on the spot, which is no zip archive: provided no exception
    escapes a handler, every iteration returns, and what it reports is
    [SKIPPED], [FAILED-DOWNLOAD] or [FAILED-CONVERT], never [OK] and
    never [FAILED-UPLOAD]; the bucket is as it was. *)
Theorem dry_run_never_reports_ok (E : env) (repo_id : string) (d : date)
    (local_root s3_bucket s3_prefix : string) (force : bool) (remote_path : string)
    (w : world)
    (Hwb : well_behaved E) :
  exists st w',
    process_file E repo_id d local_root s3_bucket s3_prefix force true remote_path w
      = (Ret (outcome_line st d (OsPath.basename remote_path)), w')
    /\ (st = SKIPPED \/ st = FAILED_DOWNLOAD \/ st = FAILED_CONVERT)
    /\ s3 w' = s3 w.
Proof.
  destruct (process_file_total E Hwb repo_id d local_root s3_bucket s3_prefix force true
              remote_path w) as (line & Hret & _).
  pose proof (process_file_dry E repo_id d local_root s3_bucket s3_prefix force remote_path w)
    as Hs.
  destruct (process_file E repo_id d local_root s3_bucket s3_prefix force true remote_path w)
    as [r w'] eqn:Hrun.
  cbn [fst snd] in Hret, Hs. subst r.
  apply process_file_inv in Hrun as (_ & Hrun). cbv zeta in Hrun.
  destruct Hrun as [(_ & _ & -> & _) | (_ & Hrun)]; [exists SKIPPED, w'; auto|].
  apply run_stages_inv in Hrun. cbv zeta in Hrun.
  destruct Hrun as [(e & w2 & _ & -> & _) | (p & w2 & Hdl & Hrun)];
    [exists FAILED_DOWNLOAD, w'; auto|].
  destruct Hrun as [(e & w4 & _ & -> & _) | (q & w4 & Hcv & _)];
    [exists FAILED_CONVERT, w'; auto 6|].
  exfalso.
  apply download_inv in Hdl as (_ & _ & Hf2).
  apply extract_returns_inv in Hcv as (ds & bbox & Hfile & _).
  cbn [fs printed] in Hfile. rewrite Hf2, lookup_insert_eq in Hfile. discriminate Hfile.
Qed.

Lemma dry_run_never_reports_ok_witness :
  exists st w',
    process_file Sample.calm "repo" Sample.july1 "./data" "bucket" "prefix" false true
      "data/2025/7/1/a.zarr.zip" Sample.empty_world
    = (Ret (outcome_line st Sample.july1 (OsPath.basename "data/2025/7/1/a.zarr.zip")), w')
    /\ (st = SKIPPED \/ st = FAILED_DOWNLOAD \/ st = FAILED_CONVERT)
    /\ s3 w' = s3 Sample.empty_world.
Proof.
  exact (dry_run_never_reports_ok Sample.calm "repo" Sample.july1 "./data" "bucket" "prefix"
           false "data/2025/7/1/a.zarr.zip" Sample.empty_world well_behaved_calm).
Defined.

(** ** A dry run on disk *)

(** A conversion of a file that is no zarr archive raises and writes
    nothing. *)
Lemma extract_not_an_archive (E : env) (filepath bytes : string) (w : world) :
  fs w !! Pathlib.Path filepath = Some (Raw bytes) ->
  exists e new,
    converter.extract E filepath w =
      (Raise e, mkWorld (fs w) (s3 w) (calls w ++ new) (out w))
    /\ Forall before_write new
    /\ (e = BadZipFile \/ exists c, extract_calls filepath c /\ fault E c = Some e).
Proof.
  intros Hfile. unfold converter.extract, converter.open_archive, outside. run.
  destruct (fault E (MkDtemp filepath)) as [e|] eqn:F1.
  { exists e, [MkDtemp filepath]. split; [reflexivity|]. split; [repeat constructor|].
    right. exists (MkDtemp filepath). split; [reflexivity | exact F1]. }
  run. destruct (fault E (Unzip filepath)) as [e|] eqn:F2.
  { exists e, [MkDtemp filepath; Unzip filepath; Rmtree filepath].
    run. rewrite <- !app_assoc. split; [reflexivity|]. split; [repeat constructor|].
    right. exists (Unzip filepath). split; [reflexivity | exact F2]. }
  run. rewrite Hfile. run.
  exists BadZipFile, [MkDtemp filepath; Unzip filepath; Rmtree filepath].
  rewrite <- !app_assoc. split; [reflexivity|]. split; [repeat constructor|]. left. reflexivity.
Qed.

(** X15. What a dry run leaves on disk.  A dry run does not download; it
    creates an empty file where the archive would be, and the converter
    then fails on it.  When the gate is open and [open] and [sleep] do not
    fail, the iteration reports [FAILED-CONVERT], and the path of the
    archive now holds an empty file, whatever it held before: the file is
    not cleaned up, and an archive that was there is lost.  The bucket is
    as it was. *)
Theorem dry_run_leaves_an_empty_file (E : env) (repo_id : string) (d : date)
    (local_root s3_bucket s3_prefix : string) (force : bool) (remote_path : string)
    (w : world)
    (Hmk : fault E (MakeDirs (local_dir d local_root)) = None)
    (Hgate : gate_open E d s3_bucket s3_prefix force remote_path w)
    (Hopen : fault E (OpenWrite (local_original d local_root (OsPath.basename remote_path)))
             = None)
    (Hsleep : fault E (Sleep 1) = None)
    (Hexc : forall c e,
        extract_calls (local_original d local_root (OsPath.basename remote_path)) c ->
        fault E c = Some e -> is_Exception e = true) :
  exists w',
    process_file E repo_id d local_root s3_bucket s3_prefix force true remote_path w
      = (Ret (outcome_line FAILED_CONVERT d (OsPath.basename remote_path)), w')
    /\ fs w' = <[Pathlib.Path (local_original d local_root (OsPath.basename remote_path))
                 := Raw EmptyString]> (fs w)
    /\ s3 w' = s3 w.
Proof.
  rewrite (gate_open_run E repo_id d local_root s3_bucket s3_prefix force true remote_path w
             Hmk Hgate).
  assert (Hfs0 : fs (gate_world d local_root s3_bucket s3_prefix force remote_path w) = fs w)
    by (unfold gate_world; destruct force; reflexivity).
  assert (Hs0 : s3 (gate_world d local_root s3_bucket s3_prefix force remote_path w) = s3 w)
    by (unfold gate_world; destruct force; reflexivity).
  revert Hfs0 Hs0. generalize (gate_world d local_root s3_bucket s3_prefix force remote_path w).
  intros w0 Hfs0 Hs0.
  unfold run_stages, download, open_write_empty, time_sleep. cbv zeta. run.
  rewrite (outside_ok _ _ _ Hopen). run. rewrite (outside_ok _ _ _ Hsleep). run.
  match goal with |- context [converter.extract E ?f ?w1] =>
    destruct (extract_not_an_archive E f EmptyString w1) as (e & new & Hrun & _ & He);
      [cbn [fs]; apply lookup_insert_eq|]
  end.
  rewrite Hrun. run.
  assert (Hexn : is_Exception e = true).
  { destruct He as [->|(c & Hc & Hf)]; [reflexivity | eapply Hexc; eassumption]. }
  rewrite Hexn. run. eexists. split; [reflexivity|]. cbn [fs s3]. rewrite Hfs0, Hs0. auto.
Qed.

Lemma dry_run_leaves_an_empty_file_witness :
  exists w',
    process_file Sample.calm "repo" Sample.july1 "./data" "bucket" "prefix" false true
      "data/2025/7/1/a.zarr.zip" (Staged.on_disk "data/2025/7/1/a.zarr.zip" Sample.grid)
    = (Ret (outcome_line FAILED_CONVERT Sample.july1
              (OsPath.basename "data/2025/7/1/a.zarr.zip")), w')
    /\ fs w' = <[Pathlib.Path (local_original Sample.july1 "./data"
                                 (OsPath.basename "data/2025/7/1/a.zarr.zip"))
                 := Raw EmptyString]>
                 (fs (Staged.on_disk "data/2025/7/1/a.zarr.zip" Sample.grid))
    /\ s3 w' = s3 (Staged.on_disk "data/2025/7/1/a.zarr.zip" Sample.grid).
Proof.
  apply (dry_run_leaves_an_empty_file Sample.calm "repo" Sample.july1 "./data" "bucket" "prefix"
           false "data/2025/7/1/a.zarr.zip"
           (Staged.on_disk "data/2025/7/1/a.zarr.zip" Sample.grid)).
  - reflexivity.
  - right. reflexivity.
  - reflexivity.
  - reflexivity.
  - intros c e _ H. discriminate H.
Defined.

(** ** Reading keys and report lines back *)

Lemma append_inj_l (a b c : string) : a +:+ b = a +:+ c -> b = c.
Proof.
  induction a as [|x a IH]; [rewrite !append_nil_l; auto|].
  rewrite !append_cons. intros [= H]. auto.
Qed.

Lemma append_inj_r (a b c : string) : a +:+ c = b +:+ c -> a = b.
Proof.
  revert b. induction a as [|x a IH]; intros [|y b] H.
  - reflexivity.
  - apply (f_equal String.length) in H. rewrite append_nil_l, append_cons in H.
    cbn [String.length] in H. rewrite length_append in H. lia.
  - apply (f_equal String.length) in H. rewrite append_nil_l, append_cons in H.
    cbn [String.length] in H. rewrite length_append in H. lia.
  - rewrite !append_cons in H. injection H as -> H. f_equal. auto.
Qed.

Lemma has_char_append (c : ascii) (a b : string) :
  has_char c (a +:+ b) = has_char c a || has_char c b.
Proof.
  induction a as [|x a IH]; [reflexivity|].
  rewrite append_cons. cbn [has_char]. rewrite IH, orb_assoc. reflexivity.
Qed.

(** Two strings cut at the first [c] agree on both sides of the cut. *)
Lemma split_at_char (c : ascii) (a b s t : string) :
  has_char c a = false -> has_char c b = false ->
  a +:+ String c s = b +:+ String c t -> a = b /\ s = t.
Proof.
  revert b. induction a as [|x a IH]; intros [|y b] Ha Hb H.
  - rewrite !append_nil_l in H. injection H as ->. auto.
  - rewrite append_nil_l, append_cons in H. injection H as <- _.
    cbn [has_char] in Hb. rewrite Ascii.eqb_refl in Hb. discriminate.
  - rewrite append_nil_l, append_cons in H. injection H as -> _.
    cbn [has_char] in Ha. rewrite Ascii.eqb_refl in Ha. discriminate.
  - rewrite !append_cons in H. injection H as -> H.
    cbn [has_char] in Ha, Hb.
    apply orb_false_elim in Ha as [_ Ha]. apply orb_false_elim in Hb as [_ Hb].
    destruct (IH b Ha Hb H) as [-> ->]. auto.
Qed.

(** *** Numbers in decimal *)

Lemma string_of_uint_digits (c : ascii) (u : Decimal.uint) :
  is_digit c = false -> has_char c (NilEmpty.string_of_uint u) = false.
Proof.
  unfold is_digit. cbn [has_char]. intros H.
  repeat (apply orb_false_elim in H as [? H]).
  induction u as [|u IH|u IH|u IH|u IH|u IH|u IH|u IH|u IH|u IH|u IH];
    cbn [NilEmpty.string_of_uint has_char]; [reflexivity|..];
    rewrite IH, orb_false_r; assumption.
Qed.

Lemma to_uint_nonnil (n : N) : N.to_uint n <> Decimal.Nil.
Proof.
  destruct n as [|p]; [discriminate|]. apply DecimalPos.Unsigned.to_uint_nonnil.
Qed.

Lemma of_int_unfold (n : Z) :
  Str.of_int n = NilEmpty.string_of_uint (N.to_uint (Z.to_N n)).
Proof.
  unfold Str.of_int. pose proof (to_uint_nonnil (Z.to_N n)) as H.
  destruct (N.to_uint (Z.to_N n)); [contradiction|..]; reflexivity.
Qed.

Lemma zeros_succ (k : nat) :
  String.concat EmptyString (repeat "0" (S k))
  = String "0"%char (String.concat EmptyString (repeat "0" k)).
Proof. destruct k; reflexivity. Qed.

(** A zero-padded number holds digits only. *)
Lemma zfill_digits (c : ascii) (width : nat) (n : Z) :
  is_digit c = false -> has_char c (Str.zfill width (Str.of_int n)) = false.
Proof.
  intros Hc. unfold Str.zfill. rewrite has_char_append.
  rewrite of_int_unfold at 2. rewrite (string_of_uint_digits c _ Hc), orb_false_r.
  generalize (width - String.length (Str.of_int n))%nat. intros k.
  induction k as [|k IH]; [reflexivity|].
  rewrite zeros_succ. cbn [has_char]. rewrite IH, orb_false_r.
  unfold is_digit in Hc. cbn [has_char] in Hc. apply orb_false_elim in Hc as [Hc _]. exact Hc.
Qed.

Lemma of_int_digits (c : ascii) (n : Z) :
  is_digit c = false -> has_char c (Str.of_int n) = false.
Proof. intros Hc. rewrite of_int_unfold. apply string_of_uint_digits, Hc. Qed.

Lemma digits_value_of_int (n : Z) : 0 <= n -> digits_value (Str.of_int n) = Some n.
Proof.
  intros Hn. unfold digits_value. rewrite of_int_unfold, NilEmpty.usu. cbn [fmap option_fmap option_map].
  rewrite DecimalN.Unsigned.of_to, Z2N.id by exact Hn. reflexivity.
Qed.

Lemma digits_value_zero (s : string) :
  digits_value (String "0"%char s) = digits_value s.
Proof.
  unfold digits_value. cbn [NilEmpty.uint_of_string].
  destruct (NilEmpty.uint_of_string s); reflexivity.
Qed.

(** Reading a zero-padded number gives the number back. *)
Lemma digits_value_zfill (width : nat) (n : Z) :
  0 <= n -> digits_value (Str.zfill width (Str.of_int n)) = Some n.
Proof.
  intros Hn. unfold Str.zfill.
  generalize (width - String.length (Str.of_int n))%nat. intros k.
  induction k as [|k IH]; [rewrite append_nil_l; apply digits_value_of_int, Hn|].
  rewrite zeros_succ, append_cons, digits_value_zero. exact IH.
Qed.

Lemma of_int_inj (n m : Z) : 0 <= n -> 0 <= m -> Str.of_int n = Str.of_int m -> n = m.
Proof.
  intros Hn Hm H. apply (f_equal digits_value) in H.
  rewrite !digits_value_of_int in H by assumption. congruence.
Qed.

Lemma zfill_inj (width : nat) (n m : Z) :
  0 <= n -> 0 <= m ->
  Str.zfill width (Str.of_int n) = Str.zfill width (Str.of_int m) -> n = m.
Proof.
  intros Hn Hm H. apply (f_equal digits_value) in H.
  rewrite !digits_value_zfill in H by assumption. congruence.
Qed.

(** *** Dates and keys *)

Lemma isoformat_inj (d1 d2 : date) :
  Date.valid d1 -> Date.valid d2 -> Date.isoformat d1 = Date.isoformat d2 -> d1 = d2.
Proof.
  intros (Hy1 & Hm1 & Hd1) (Hy2 & Hm2 & Hd2) H. unfold Date.isoformat in H.
  change ("-" +:+ ?x) with (String "-"%char x) in H.
  apply split_at_char in H as [Hy H]; try (apply zfill_digits; reflexivity).
  apply split_at_char in H as [Hm Hd]; try (apply zfill_digits; reflexivity).
  apply zfill_inj in Hy; [|lia..]. apply zfill_inj in Hm; [|lia..].
  apply zfill_inj in Hd; [|lia..].
  destruct d1, d2; simpl in *. congruence.
Qed.

Lemma isoformat_no_space (d : date) : has_char " "%char (Date.isoformat d) = false.
Proof.
  unfold Date.isoformat, Str.fmt_04d, Str.fmt_02d.
  rewrite !has_char_append, !zfill_digits by reflexivity. reflexivity.
Qed.

(** X16. Keys of different files.  For one prefix, the destination key
    determines the day and the file: two archives whose names hold
    [.zarr.zip] only as their suffix get the same key only if they are
    the same file of the same day. *)
Theorem destination_keys_do_not_collide (s3_prefix : string) (d1 d2 : date)
    (stem1 stem2 : string)
    (Hd1 : Date.valid d1) (Hd2 : Date.valid d2)
    (Hstem1 : Str.find ".zarr.zip" (stem1 +:+ ".zarr.zip") = Some (String.length stem1))
    (Hstem2 : Str.find ".zarr.zip" (stem2 +:+ ".zarr.zip") = Some (String.length stem2))
    (Hkey : converted_s3_key d1 s3_prefix (stem1 +:+ ".zarr.zip")
            = converted_s3_key d2 s3_prefix (stem2 +:+ ".zarr.zip")) :
  d1 = d2 /\ stem1 = stem2.
Proof.
  destruct Hd1 as (Hy1 & Hm1 & Hday1), Hd2 as (Hy2 & Hm2 & Hday2).
  unfold converted_s3_key, converted_filename in Hkey.
  rewrite (replace_only_suffix "."%char "zarr.zip" ".nc" stem1 Hstem1) in Hkey.
  rewrite (replace_only_suffix "."%char "zarr.zip" ".nc" stem2 Hstem2) in Hkey.
  apply append_inj_l in Hkey.
  change ("/" +:+ ?x) with (String "/"%char x) in Hkey. injection Hkey as Hkey.
  apply split_at_char in Hkey as [Hy Hkey]; try (apply of_int_digits; reflexivity).
  apply split_at_char in Hkey as [Hm Hkey]; try (apply zfill_digits; reflexivity).
  apply split_at_char in Hkey as [Hd Hkey]; try (apply zfill_digits; reflexivity).
  apply of_int_inj in Hy; [|lia..]. apply zfill_inj in Hm; [|lia..].
  apply zfill_inj in Hd; [|lia..]. apply append_inj_r in Hkey.
  split; [|exact Hkey]. destruct d1, d2; simpl in *. congruence.
Qed.

Lemma destination_keys_do_not_collide_witness :
  Sample.july1 = Sample.july1 /\ "a" = "a".
Proof.
  apply (destination_keys_do_not_collide "prefix" Sample.july1 Sample.july1 "a" "a").
  - apply valid_of_validb. reflexivity.
  - apply valid_of_validb. reflexivity.
  - reflexivity.
  - reflexivity.
  - reflexivity.
Defined.

(** Names that hold [.zarr.zip] twice can collide. *)
Example destination_keys_collide :
  converted_s3_key (mkDate 2025 7 1) "prefix" "a.nc.zarr.zip"
  = converted_s3_key (mkDate 2025 7 1) "prefix" "a.zarr.zip.zarr.zip".
Proof. reflexivity. Qed.

(** X17. Reading the report.  A line of the summary determines the
    outcome it reports: its status, its day and its file name. *)
Theorem report_line_determines_outcome (st1 st2 : status) (d1 d2 : date) (f1 f2 : string)
    (Hd1 : Date.valid d1) (Hd2 : Date.valid d2)
    (Hline : outcome_line st1 d1 f1 = outcome_line st2 d2 f2) :
  st1 = st2 /\ d1 = d2 /\ f1 = f2.
Proof.
  pose proof (outcome_line_inj _ _ _ _ _ _ Hline) as <-.
  split; [reflexivity|]. unfold outcome_line in Hline.
  apply append_inj_l in Hline.
  change (" " +:+ ?x) with (String " "%char x) in Hline. injection Hline as Hline.
  apply split_at_char in Hline as [Hd Hf].
  - split; [apply isoformat_inj; assumption | exact Hf].
  - apply isoformat_no_space.
  - apply isoformat_no_space.
Qed.

Lemma report_line_determines_outcome_witness :
  OK = OK /\ Sample.july1 = Sample.july1 /\ "a.zarr.zip" = "a.zarr.zip".
Proof.
  apply (report_line_determines_outcome OK OK Sample.july1 Sample.july1 "a.zarr.zip" "a.zarr.zip").
  - apply valid_of_validb. reflexivity.
  - apply valid_of_validb. reflexivity.
  - reflexivity.
Defined.

(** ** Where the archive is, and where cleanup looks *)

Lemma startswith_append_nonempty (a b : string) :
  a <> EmptyString -> Str.startswith (a +:+ b) "/" = Str.startswith a "/".
Proof.
  destruct a as [|c a]; [congruence|]. intros _.
  rewrite append_cons. unfold Str.startswith. rewrite !prefix_cons.
  destruct (ascii_dec "/"%char c); [|reflexivity].
  destruct (a +:+ b), a; reflexivity.
Qed.

Lemma split_slash_trailing (a : string) :
  List.filter Pathlib.proper_part (Str.split_slash (a +:+ "/"))
  = List.filter Pathlib.proper_part (Str.split_slash a).
Proof.
  change (a +:+ "/") with (a +:+ String "/"%char EmptyString).
  rewrite split_slash_append, List.filter_app. cbn. apply app_nil_r.
Qed.

(** [os.path.join] on strings is [/] on parsed paths. *)
Lemma Path_join (a b : string) :
  Pathlib.Path (OsPath.join a b) = Pathlib.joinpath (Pathlib.Path a) b.
Proof.
  unfold OsPath.join, Pathlib.joinpath.
  destruct (Str.startswith b "/") eqn:Hb; [reflexivity|].
  destruct (String.eqb_spec a EmptyString) as [->|Hne]; cbn [orb].
  - rewrite append_nil_l. unfold Pathlib.Path at 1. rewrite Hb. reflexivity.
  - destruct (Str.endswith a "/") eqn:He.
    + apply endswith_inv in He as [pre ->].
      unfold Pathlib.Path. cbn [fst snd].
      rewrite (startswith_append_nonempty _ b Hne). f_equal.
      rewrite split_slash_trailing, append_assoc.
      change ("/" +:+ b) with (String "/"%char b).
      rewrite split_slash_append, List.filter_app. reflexivity.
    + unfold Pathlib.Path. cbn [fst snd].
      rewrite (startswith_append_nonempty _ _ Hne). f_equal.
      change ("/" +:+ b) with (String "/"%char b).
      rewrite split_slash_append, List.filter_app. reflexivity.
Qed.

Lemma has_slash_char (s : string) : has_slash s = has_char "/"%char s.
Proof. induction s as [|c s IH]; [reflexivity|]. cbn [has_slash has_char]. rewrite IH. reflexivity. Qed.

Lemma of_int_good (n : Z) : good_part (Str.of_int n).
Proof.
  split.
  - rewrite has_slash_char. apply of_int_digits. reflexivity.
  - pose proof (of_int_digits "."%char n eq_refl) as Hdot.
    rewrite of_int_unfold in *. pose proof (to_uint_nonnil (Z.to_N n)) as Hnil.
    destruct (N.to_uint (Z.to_N n)) as [|u|u|u|u|u|u|u|u|u|u]; [contradiction|..];
      cbn [NilEmpty.string_of_uint] in *; unfold Pathlib.proper_part;
      destruct (NilEmpty.string_of_uint u); reflexivity.
Qed.

Lemma day_dir_relative (d : date) : Str.startswith (day_dir d) "/" = false.
Proof. unfold day_dir. apply startswith_good, of_int_good. Qed.

Lemma Path_slash (a b : string) :
  Pathlib.Path (a +:+ String "/"%char b)
  = (Str.startswith (a +:+ String "/"%char b) "/", (Pathlib.Path a).2 ++ (Pathlib.Path b).2).
Proof.
  unfold Pathlib.Path. cbn [snd]. rewrite split_slash_append, List.filter_app. reflexivity.
Qed.

(** The path of a listed file, and the path cleanup removes. *)
Lemma fetched_is_original (d : date) (local_root filename : string) :
  Pathlib.Path local_root = Pathlib.Path "data" ->
  good_part filename ->
  Pathlib.Path (OsPath.join "./" (folder_path d +:+ "/" +:+ filename))
  = Pathlib.Path (local_original d local_root filename).
Proof.
  intros Hroot Hname. pose proof Hname as [Hs Hp].
  unfold local_original, local_dir.
  rewrite Path_dot_slash, !Path_join, Hroot.
  unfold Pathlib.joinpath. rewrite (day_dir_relative d), (startswith_no_slash _ Hs).
  cbn [fst snd].
  change (folder_path d +:+ "/" +:+ filename)
    with (("data" +:+ String "/"%char (day_dir d)) +:+ String "/"%char filename).
  rewrite !Path_slash. cbn [snd]. reflexivity.
Qed.

(** X18. When cleanup finds the archive.  With a [local_root] that names
    the directory [data] ([./data], the entry point's choice, or [data])
    a file listed as [data/<y>/<m>/<d>/<filename>] is downloaded to the
    very path that cleanup removes: after an iteration that reports [OK]
    (and whose [os.remove] did not fail) the archive is gone from the
    disk. *)
Theorem matching_root_removes_the_archive (E : env) (repo_id : string) (d : date)
    (local_root s3_bucket s3_prefix : string) (force : bool) (filename : string)
    (w w' : world)
    (Hroot : Pathlib.Path local_root = Pathlib.Path "data")
    (Hname : good_part filename)
    (Hrun : process_file E repo_id d local_root s3_bucket s3_prefix force false
              (folder_path d +:+ "/" +:+ filename) w
            = (Ret (outcome_line OK d filename), w'))
    (Hrm : fault E (Remove (local_original d local_root filename)) = None) :
  Pathlib.Path (OsPath.join "./" (folder_path d +:+ "/" +:+ filename))
  = Pathlib.Path (local_original d local_root filename)
  /\ fs w' !! Pathlib.Path (OsPath.join "./" (folder_path d +:+ "/" +:+ filename)) = None.
Proof.
  pose proof (fetched_is_original d local_root filename Hroot Hname) as Hpath.
  split; [exact Hpath|]. rewrite Hpath.
  assert (Hbase : OsPath.basename (folder_path d +:+ "/" +:+ filename) = filename).
  { change ("/" +:+ filename) with (String "/"%char filename).
    apply basename_after_slash, Hname. }
  apply process_file_inv in Hrun as (_ & Hrun). cbv zeta in Hrun. rewrite Hbase in Hrun.
  destruct Hrun as [(_ & _ & Hl & _) | (_ & Hrun)];
    [apply outcome_line_inj in Hl; discriminate|].
  apply run_stages_inv in Hrun. cbv zeta in Hrun. rewrite Hbase in Hrun.
  destruct Hrun as [(e & w2 & _ & Hl & _) | (p & w2 & _ & Hrun)];
    [apply outcome_line_inj in Hl; discriminate|].
  destruct Hrun as [(e & w4 & _ & Hl & _) | (q & w4 & _ & Hrun)];
    [apply outcome_line_inj in Hl; discriminate|].
  destruct Hrun as [(e & w6 & _ & Hl & _) | (w6 & w7 & _ & Hcl & _ & ->)];
    [apply outcome_line_inj in Hl; discriminate|].
  rewrite cleanup_run in Hcl. cbv zeta in Hcl. rewrite Hrm in Hcl.
  apply (f_equal snd) in Hcl. cbn [snd] in Hcl. subst w7.
  cbn [fs printed]. apply lookup_delete_eq.
Qed.

Lemma matching_root_removes_the_archive_witness :
  Pathlib.Path (OsPath.join "./" (folder_path Sample.july1 +:+ "/" +:+ "a.zarr.zip"))
  = Pathlib.Path (local_original Sample.july1 "./data" "a.zarr.zip")
  /\ fs (process_file Sample.calm "repo" Sample.july1 "./data" "bucket" "prefix" false false
           (folder_path Sample.july1 +:+ "/" +:+ "a.zarr.zip") Sample.empty_world).2
     !! Pathlib.Path (OsPath.join "./" (folder_path Sample.july1 +:+ "/" +:+ "a.zarr.zip"))
     = None.
Proof.
  apply (matching_root_removes_the_archive Sample.calm "repo" Sample.july1 "./data" "bucket"
           "prefix" false "a.zarr.zip" Sample.empty_world).
  - reflexivity.
  - split; reflexivity.
  - vm_compute. reflexivity.
  - reflexivity.
Defined.

(** ** Exceptions that escape *)

Section Raises.

Context {A B : Type}.

Lemma raises_ret (Q : exn -> Prop) (a : A) : raises Q (ret a).
Proof. intros w. exact I. Qed.

Lemma raises_raise (Q : exn -> Prop) (e : exn) : Q e -> raises Q (@raise A e).
Proof. intros H w. exact H. Qed.

Lemma raises_get_world (Q : exn -> Prop) : raises Q get_world.
Proof. intros w. exact I. Qed.

Lemma raises_print (Q : exn -> Prop) (line : string) : raises Q (print line).
Proof. intros w. exact I. Qed.

Lemma raises_write_file (Q : exn -> Prop) (p : path) (c : content) : raises Q (write_file p c).
Proof. intros w. exact I. Qed.

Lemma raises_delete_file (Q : exn -> Prop) (p : path) : raises Q (delete_file p).
Proof. intros w. exact I. Qed.

Lemma raises_put_object (Q : exn -> Prop) (bucket key : string) (c : content) :
  raises Q (put_object bucket key c).
Proof. intros w. exact I. Qed.

Lemma raises_outside (Q : exn -> Prop) (E : env) (c : call) :
  (forall e, fault E c = Some e -> Q e) -> raises Q (outside E c).
Proof. intros H w. unfold outside. destruct (fault E c) as [e|]; simpl; auto. Qed.

Lemma raises_bind (Q : exn -> Prop) (m : M A) (k : A -> M B) :
  raises Q m -> (forall a, raises Q (k a)) -> raises Q (bind m k).
Proof.
  intros Hm Hk w. unfold bind. specialize (Hm w).
  destruct (m w) as [[a|e|] w1]; simpl in *; auto. apply Hk.
Qed.

Lemma raises_try_except (Q' Q : exn -> Prop) (m : M A) (catches : exn -> bool)
    (h : exn -> M A) :
  raises Q' m -> (forall e, Q' e -> catches e = false -> Q e) ->
  (forall e, raises Q (h e)) -> raises Q (try_except m catches h).
Proof.
  intros Hm Hq Hh w. unfold try_except. specialize (Hm w).
  destruct (m w) as [[a|e|] w1]; simpl in *; auto.
  destruct (catches e) eqn:Hc; simpl; [apply Hh | auto].
Qed.

Lemma raises_try_finally_rmtree (Q : exn -> Prop) (m : M A) (filepath : string) :
  raises Q m ->
  raises Q (try_finally m
              (fun w => (Ret tt, mkWorld (fs w) (s3 w) (calls w ++ [Rmtree filepath]) (out w)))).
Proof.
  intros Hm w. unfold try_finally. specialize (Hm w).
  destruct (m w) as [r w1]; simpl in *. exact Hm.
Qed.

Lemma raises_weaken (Q' Q : exn -> Prop) (m : M A) :
  (forall e, Q' e -> Q e) -> raises Q' m -> raises Q m.
Proof.
  intros H Hm w. specialize (Hm w). destruct ((m w).1); auto.
Qed.

End Raises.

Lemma raises_attempt {A} (Q' Q : exn -> Prop) (m : M A) :
  raises Q' m -> (forall e, Q' e -> is_Exception e = false -> Q e) -> raises Q (attempt m).
Proof.
  intros Hm Hq. unfold attempt.
  eapply raises_try_except; [| exact Hq | intros e; apply raises_ret].
  apply raises_bind; [exact Hm | intros a; apply raises_ret].
Qed.

Ltac raises_step :=
  lazymatch goal with
  | |- raises _ (bind _ _) => apply raises_bind; [| intros ?]
  | |- raises _ (ret _) => apply raises_ret
  | |- raises _ (raise _) => apply raises_raise
  | |- raises _ get_world => apply raises_get_world
  | |- raises _ (print _) => apply raises_print
  | |- raises _ (write_file _ _) => apply raises_write_file
  | |- raises _ (delete_file _) => apply raises_delete_file
  | |- raises _ (put_object _ _ _) => apply raises_put_object
  | |- raises _ (outside _ _) => apply raises_outside; intros ? ?
  | |- raises _ (try_finally _ _) => apply raises_try_finally_rmtree
  | |- raises _ (match ?x with _ => _ end) => destruct x eqn:?
  | |- raises _ (let _ := _ in _) => cbv zeta
  end.

Section Escapes.

Variable E : env.

Lemma guarded_fault (c : call) (e : exn) :
  fault E c = Some e ->
  match c with
  | MakeDirs _ | NewHfApi | GetS3Client | ReadRepoTree _ _ | HeadObject _ _ | Remove _ => False
  | _ => True
  end ->
  guarded E e.
Proof. intros Hf Hc. right. exists c. auto. Qed.

(** What an [except Exception] clause lets through is an unhandled
    fault. *)
Lemma guarded_unhandled (e : exn) : guarded E e -> is_Exception e = false -> unhandled E e.
Proof.
  intros [He|(c & Hf & Hc)] Hne; [congruence|].
  exists c. split; [exact Hf|]. destruct c; try contradiction; simpl; congruence.
Qed.

Lemma extract_guarded (filepath : string) : raises (guarded E) (converter.extract E filepath).
Proof.
  unfold converter.extract, converter.open_archive.
  repeat raises_step;
    try (eapply guarded_fault; [eassumption | exact I]);
    try (left; reflexivity).
  left. eapply select_bbox_exception; eassumption.
Qed.

Lemma download_guarded (repo_id : string) (d : date) (local_root : string) (force dryrun : bool)
    (remote_path filename : string) :
  raises (guarded E) (download E repo_id d local_root force dryrun remote_path filename).
Proof.
  unfold download, hf_hub_download, open_write_empty, time_sleep.
  repeat raises_step; (eapply guarded_fault; [eassumption | exact I]).
Qed.

Lemma upload_guarded (d : date) (s3_bucket s3_prefix : string) (dryrun : bool)
    (converted_path filename : string) :
  raises (guarded E) (upload E d s3_bucket s3_prefix dryrun converted_path filename).
Proof.
  unfold upload, upload_to_s3, upload_file.
  repeat raises_step;
    first [eapply guarded_fault; [eassumption | exact I] | left; reflexivity].
Qed.

Lemma s3_key_exists_raises (bucket key : string) :
  raises (unhandled E) (s3_key_exists E bucket key).
Proof.
  intros w. rewrite s3_key_exists_run. unfold exists_answer. cbn [fst].
  destruct (fault E (HeadObject bucket key)) as [e|] eqn:Hf; [|exact I].
  destruct (is_ClientError e) eqn:Hc; [exact I|].
  exists (HeadObject bucket key). split; [exact Hf|]. simpl. congruence.
Qed.

Lemma cleanup_raises (d : date) (local_root filename : string) :
  raises (unhandled E) (cleanup E d local_root filename).
Proof.
  intros w. rewrite cleanup_run. cbv zeta.
  destruct (fault E (Remove _)) as [e|] eqn:Hf; [|exact I].
  destruct (is_OSError e) eqn:Hc; [exact I|]. cbn [fst].
  eexists. split; [exact Hf|]. simpl. congruence.
Qed.

Lemma process_file_raises (repo_id : string) (d : date)
    (local_root s3_bucket s3_prefix : string) (force dryrun : bool) (remote_path : string) :
  raises (unhandled E)
    (process_file E repo_id d local_root s3_bucket s3_prefix force dryrun remote_path).
Proof.
  unfold process_file. cbv zeta.
  apply raises_bind.
  { apply raises_outside. intros e He. exists (MakeDirs (local_dir d local_root)).
    split; [exact He | simpl; tauto]. }
  intros _. apply raises_bind; [apply raises_print | intros _].
  apply raises_bind.
  { destruct (negb force); [apply s3_key_exists_raises | apply raises_ret]. }
  intros [|]; [repeat raises_step|].
  apply raises_bind; [apply raises_print | intros _].
  apply raises_bind;
    [eapply raises_attempt; [apply download_guarded | apply guarded_unhandled]|].
  intros [e|fetched]; [repeat raises_step|].
  apply raises_bind; [apply raises_print | intros _].
  apply raises_bind;
    [eapply raises_attempt; [apply extract_guarded | apply guarded_unhandled]|].
  intros [e|converted]; [repeat raises_step|].
  apply raises_bind; [apply raises_print | intros _].
  apply raises_bind;
    [eapply raises_attempt; [apply upload_guarded | apply guarded_unhandled]|].
  intros [e|u]; [repeat raises_step|].
  apply raises_bind; [apply cleanup_raises | intros _].
  repeat raises_step.
Qed.

(** X19. What can end a day.  [process_single_day] always returns or
    raises; and an exception that it raises is a fault of the
    environment that no handler of the source catches: any exception of
    [os.makedirs], any exception raised while a listing is read (the
    list comprehension stands after the [try] block), an exception of
    [head_object] that is no [ClientError], an exception of [os.remove]
    that is no [OSError], or, from any other call, an exception that is
    no [Exception].  Errors of
    the conversion itself (no zip archive, an empty subset, a bad slice)
    and a missing file at upload never escape. *)
Theorem only_unhandled_faults_escape (repo_id : string) (d : date)
    (local_root s3_bucket s3_prefix : string) (force dryrun : bool) (w : world) :
  match (process_single_day E repo_id d local_root s3_bucket s3_prefix force dryrun w).1 with
  | Ret _ => True
  | Raise e => exists c, fault E c = Some e /\ ~ handled c e
  | OutOfFuel => False
  end.
Proof.
  revert w. change (raises (unhandled E)
                      (process_single_day E repo_id d local_root s3_bucket s3_prefix force dryrun)).
  unfold process_single_day.
  apply raises_bind; [destruct dryrun; repeat raises_step | intros _].
  apply raises_bind; [apply raises_print | intros _].
  apply raises_bind.
  { intros w. rewrite list_hf_files_for_date_run.
    destruct (fault E (ListRepoTree repo_id (folder_path d))) as [e|] eqn:Hf.
    - destruct (is_Exception e) eqn:He; [exact I|]. cbn [fst].
      eexists. split; [exact Hf|]. simpl. congruence.
    - destruct (fault E (ReadRepoTree repo_id (folder_path d))) as [e|] eqn:Hr; [|exact I].
      cbn [fst]. eexists. split; [exact Hr|]. simpl. tauto. }
  intros hf_files. destruct hf_files as [|f rest]; [repeat raises_step|].
  generalize (f :: rest). intros files.
  induction files as [|g files IH]; cbn [process_files]; [apply raises_ret|].
  apply raises_bind; [apply process_file_raises | intros line].
  apply raises_bind; [exact IH | intros results]. apply raises_ret.
Qed.

End Escapes.

(** ** The range controller at its edges *)

(** X20. A range that ends before it starts.  When [start] is after
    [end_] the loop body never runs: provided the two clients can be
    made, [run_pipeline] lists nothing, touches neither files nor bucket,
    prints its two opening lines and an empty summary, and returns
    [None]; no error is raised. *)
Theorem reversed_range_does_nothing (E : env) (fuel : nat)
    (repo_id : string) (start end_ : date) (local_root s3_bucket s3_prefix : string)
    (force dryrun : bool) (w : world)
    (Hrev : Date.leb start end_ = false)
    (Hapi : fault E NewHfApi = None)
    (Hclient : fault E GetS3Client = None) :
  run_pipeline E (S fuel) repo_id start end_ local_root s3_bucket s3_prefix force dryrun w =
  (Ret None,
   mkWorld (fs w) (s3 w) (calls w ++ [NewHfApi; GetS3Client])
     (out w ++ ["Starting DWD HF Exporter Pipeline";
                "Dates: " +:+ Date.isoformat start +:+ " to " +:+ Date.isoformat end_;
                Str.nl +:+ "=== SUMMARY ==="])).
Proof.
  unfold run_pipeline. run.
  rewrite (outside_ok _ _ _ Hapi). run. rewrite (outside_ok _ _ _ Hclient). run.
  cbn [pipeline_loop]. rewrite Hrev. run. cbn [print_all]. run.
  rewrite <- !app_assoc. reflexivity.
Qed.

Lemma reversed_range_does_nothing_witness :
  run_pipeline Sample.calm 1 "repo" Scenario.july2 Sample.july1 "./data" "bucket" "prefix"
    false false Sample.empty_world
  = (Ret None,
     mkWorld (fs Sample.empty_world) (s3 Sample.empty_world)
       (calls Sample.empty_world ++ [NewHfApi; GetS3Client])
       (out Sample.empty_world ++
          ["Starting DWD HF Exporter Pipeline";
           "Dates: " +:+ Date.isoformat Scenario.july2 +:+ " to " +:+ Date.isoformat Sample.july1;
           Str.nl +:+ "=== SUMMARY ==="])).
Proof.
  exact (reversed_range_does_nothing Sample.calm 0 "repo" Scenario.july2 Sample.july1 "./data"
           "bucket" "prefix" false false Sample.empty_world eq_refl eq_refl eq_refl).
Defined.

Lemma listed_folders_app (a b : list call) :
  listed_folders (a ++ b) = listed_folders a ++ listed_folders b.
Proof. apply omap_app. Qed.

Lemma listed_folders_none (cs : list call) :
  Forall not_listing cs -> listed_folders cs = [].
Proof.
  induction 1 as [|c cs Hc _ IH]; [reflexivity|].
  unfold listed_folders in *. cbn [omap list_omap]. destruct c; try contradiction; exact IH.
Qed.

Lemma leb_le_max (d : date) : Date.valid d -> Date.leb d Date.max = true.
Proof.
  unfold Date.valid. intros (Hy & Hm & Hd). apply leb_spec. cbn [year month day Date.max].
  pose proof (days_in_month_bound (year d) (month d)). lia.
Qed.

Lemma date_eq_dec (a b : date) : {a = b} + {a <> b}.
Proof. decide equality; apply Z.eq_dec. Qed.

Section Listing.

Variable E : env.
Hypothesis Hwb : well_behaved E.
Variables (repo_id local_root s3_bucket s3_prefix : string) (force dryrun : bool).

Let folder (d : date) : string * string := (repo_id, folder_path d).

(** A day lists its folder once, before anything else it calls. *)
Lemma process_single_day_lists (d : date) (w : world) :
  exists results w',
    process_single_day E repo_id d local_root s3_bucket s3_prefix force dryrun w
      = (Ret results, w')
    /\ listed_folders (calls w') = listed_folders (calls w) ++ [folder d].
Proof.
  destruct (process_single_day_total E Hwb repo_id d local_root s3_bucket s3_prefix force dryrun w)
    as (results & Hret & _).
  assert (Hcalls : exists rest,
             calls (process_single_day E repo_id d local_root s3_bucket s3_prefix force dryrun w).2
             = calls w ++ ListRepoTree repo_id (folder_path d) :: rest
             /\ Forall not_listing rest).
  { unfold process_single_day.
    set (banner := if dryrun then print "**** Running in dryrun mode ****" else ret tt).
    assert (Hb : forall w0, exists w1, banner w0 = (Ret tt, w1) /\ calls w1 = calls w0).
    { intros w0. subst banner. destruct dryrun; eexists; split; reflexivity. }
    destruct (Hb w) as (w1 & Hw1 & Hc1).
    unfold bind at 1. rewrite Hw1. unfold bind at 1. cbn [print].
    unfold bind at 1. rewrite list_hf_files_for_date_run.
    assert (Hrest : forall files,
              emits not_listing
                (match files with
                 | [] => print " No files found for this date on HF" ;; ret []
                 | _ :: _ =>
                     process_files E repo_id d local_root s3_bucket s3_prefix force dryrun files
                 end)).
    { intros files. destruct files as [|f rest]; [emits_auto|].
      apply process_files_emits. intros d0 rp.
      eapply emits_weaken; [|apply process_file_emits].
      intros c Hc. destruct c; simpl in *; auto. }
    destruct (fault E (ListRepoTree repo_id (folder_path d))) as [e|] eqn:Hf.
    - pose proof (Hwb _ _ Hf) as He. cbn [handled] in He. rewrite He.
      exists []. run. rewrite Hc1. split; [reflexivity | constructor].
    - assert (Hr : fault E (ReadRepoTree repo_id (folder_path d)) = None).
      { destruct (fault E (ReadRepoTree repo_id (folder_path d))) as [e|] eqn:He;
          [destruct (Hwb _ _ He) | reflexivity]. }
      rewrite Hr.
      match goal with |- context [calls (?m ?w2).2] =>
        destruct (Hrest (listed E repo_id d) w2) as (new & Hnew & Hall)
      end.
      exists (ReadRepoTree repo_id (folder_path d) :: new).
      cbn [calls printed logged] in Hnew. rewrite Hnew, Hc1, <- !app_assoc.
      split; [reflexivity | constructor; [exact I | exact Hall]]. }
  destruct (process_single_day E repo_id d local_root s3_bucket s3_prefix force dryrun w)
    as [r w'] eqn:Hrun. cbn [fst snd] in *. subst r.
  destruct Hcalls as (rest & Hc & Hrest).
  exists results, w'. split; [reflexivity|].
  rewrite Hc, listed_folders_app. f_equal.
  change (ListRepoTree repo_id (folder_path d) :: rest)
    with ([ListRepoTree repo_id (folder_path d)] ++ rest).
  rewrite listed_folders_app, (listed_folders_none rest Hrest). reflexivity.
Qed.

Variable end_ : date.
Hypothesis Hend : Date.valid end_.

(** The loop lists every day of the range once, in calendar order; it
    returns, unless the range ends on the last day there is. *)
Lemma pipeline_loop_lists (fuel : nat) :
  forall (d : date) (acc : list string) (w : world),
    Date.valid d ->
    (Z.to_nat (Date.rank end_ - Date.rank d + 1) < fuel)%nat ->
    exists r w',
      pipeline_loop E fuel repo_id d end_ local_root s3_bucket s3_prefix force dryrun acc w
        = (r, w')
      /\ listed_folders (calls w')
         = listed_folders (calls w) ++ List.map folder (date_range d end_)
      /\ (end_ <> Date.max -> exists report, r = Ret (acc ++ report))
      /\ (end_ = Date.max -> r = Raise OverflowError).
Proof.
  induction fuel as [|fuel IH]; intros d acc w Hd Hfuel; [lia|].
  cbn [pipeline_loop]. rewrite (date_range_unfold d end_ Hd Hend).
  destruct (Date.leb d end_) eqn:Hle.
  - unfold bind at 1. cbn [print].
    set (w0 := mkWorld _ _ _ _).
    destruct (process_single_day_lists d w0) as (day & w1 & Hday & Hl1).
    unfold bind at 1. rewrite Hday.
    destruct (Date.next_day d) as [d'|] eqn:Hnext.
    + pose proof (next_day_rank d d' Hd Hnext) as Hlt.
      pose proof (leb_rank d end_ Hd Hend Hle) as Hr.
      destruct (IH d' (acc ++ day) w1 (next_day_valid d d' Hd Hnext) ltac:(lia))
        as (r & w' & Hrun & Hl & Hret & Hovf).
      exists r, w'. split; [exact Hrun|]. split.
      { rewrite Hl, Hl1. cbn [List.map]. rewrite <- app_assoc. reflexivity. }
      split; [|exact Hovf].
      intros Hne. destruct (Hret Hne) as (report & ->). exists (day ++ report).
      rewrite app_assoc. reflexivity.
    + apply next_day_none in Hnext; [|assumption]. subst d.
      pose proof (leb_max end_ Hend Hle) as Hmax.
      exists (Raise OverflowError), w1. split; [reflexivity|]. split; [exact Hl1|].
      split; [intros Hne; contradiction | reflexivity].
  - exists (Ret acc), w. split; [reflexivity|]. split; [cbn [List.map]; rewrite app_nil_r; reflexivity|].
    split; [intros _; exists []; rewrite app_nil_r; reflexivity|].
    intros ->. rewrite (leb_le_max d Hd) in Hle. discriminate.
Qed.

Lemma run_pipeline_lists (fuel : nat) (start : date) (w : world) :
  Date.valid start ->
  (Z.to_nat (Date.rank end_ - Date.rank start + 1) < fuel)%nat ->
  exists r w',
    run_pipeline E fuel repo_id start end_ local_root s3_bucket s3_prefix force dryrun w = (r, w')
    /\ listed_folders (calls w')
       = listed_folders (calls w) ++ List.map folder (date_range start end_)
    /\ (end_ <> Date.max -> r = Ret None)
    /\ (end_ = Date.max -> r = Raise OverflowError).
Proof.
  intros Hs Hfuel. unfold run_pipeline.
  assert (Hapi : fault E NewHfApi = None).
  { destruct (fault E NewHfApi) as [e|] eqn:He; [destruct (Hwb _ _ He) | reflexivity]. }
  assert (Hs3 : fault E GetS3Client = None).
  { destruct (fault E GetS3Client) as [e|] eqn:He; [destruct (Hwb _ _ He) | reflexivity]. }
  unfold bind at 1. cbn [print]. unfold bind at 1. rewrite (outside_ok _ _ _ Hapi).
  unfold bind at 1. rewrite (outside_ok _ _ _ Hs3).
  unfold bind at 1. cbn [print]. unfold bind at 1.
  match goal with |- context [pipeline_loop E fuel repo_id start end_ _ _ _ _ _ [] ?w0] =>
    destruct (pipeline_loop_lists fuel start [] w0 Hs Hfuel) as (r & w1 & Hrun & Hl & Hret & Hovf)
  end.
  rewrite Hrun.
  assert (Hl' : listed_folders (calls w1)
                = listed_folders (calls w) ++ List.map folder (date_range start end_)).
  { rewrite Hl. cbn [calls logged]. rewrite <- app_assoc, listed_folders_app.
    change (listed_folders ([NewHfApi] ++ [GetS3Client])) with (@nil (string * string)).
    rewrite app_nil_r. reflexivity. }
  destruct (date_eq_dec end_ Date.max) as [Hmax|Hne].
  - rewrite (Hovf Hmax). exists (Raise OverflowError), w1.
    split; [reflexivity|]. split; [exact Hl'|]. split; [intros H; contradiction | reflexivity].
  - destruct (Hret Hne) as (report & ->). cbn [app].
    unfold bind at 1. cbn [print]. unfold bind at 1. rewrite print_all_run. cbn [ret].
    eexists _, _. split; [reflexivity|]. cbn [calls]. split; [exact Hl'|].
    split; [reflexivity | intros H; contradiction].
Qed.

End Listing.

(** ** The catalog over a range *)

(** X21. One listing per day.  Provided no exception escapes a handler
    (so every listing can be read: an error there would end the run) and
    the range ends before 9999-12-31, a run returns and has listed the
    folder [data/<year>/<month>/<day>] (numbers without padding) of
    [repo_id] once for every day from [start] to [end_], in calendar
    order, and no other folder. *)
Theorem catalog_is_listed_once_per_day (E : env) (fuel : nat)
    (repo_id : string) (start end_ : date) (local_root s3_bucket s3_prefix : string)
    (force dryrun : bool) (w : world)
    (Hwb : well_behaved E)
    (Hstart : Date.valid start) (Hend : Date.valid end_) (Hnotmax : end_ <> Date.max)
    (Hfuel : (Z.to_nat (Date.rank end_ - Date.rank start + 1) < fuel)%nat) :
  exists w',
    run_pipeline E fuel repo_id start end_ local_root s3_bucket s3_prefix force dryrun w
      = (Ret None, w')
    /\ listed_folders (calls w')
       = listed_folders (calls w)
         ++ List.map (fun d => (repo_id, folder_path d)) (date_range start end_)
    /\ StronglySorted date_lt (date_range start end_)
    /\ (forall x, In x (date_range start end_) <->
                  Date.valid x /\ Date.leb start x = true /\ Date.leb x end_ = true).
Proof.
  destruct (run_pipeline_lists E Hwb repo_id local_root s3_bucket s3_prefix force dryrun end_
              Hend fuel start w Hstart Hfuel) as (r & w' & Hrun & Hl & Hret & _).
  rewrite (Hret Hnotmax) in Hrun. exists w'.
  split; [exact Hrun|]. split; [exact Hl|].
  split; [apply date_range_sorted; assumption|].
  intros x. apply date_range_spec; assumption.
Qed.

Lemma catalog_is_listed_once_per_day_witness :
  exists w',
    run_pipeline Sample.calm 5 "repo" Sample.july1 Scenario.july2 "./data" "bucket" "prefix"
      false false Sample.empty_world = (Ret None, w')
    /\ listed_folders (calls w')
       = listed_folders (calls Sample.empty_world)
         ++ List.map (fun d => ("repo", folder_path d)) (date_range Sample.july1 Scenario.july2)
    /\ StronglySorted date_lt (date_range Sample.july1 Scenario.july2)
    /\ (forall x, In x (date_range Sample.july1 Scenario.july2) <->
                  Date.valid x /\ Date.leb Sample.july1 x = true
                  /\ Date.leb x Scenario.july2 = true).
Proof.
  refine (catalog_is_listed_once_per_day Sample.calm 5 "repo" Sample.july1 Scenario.july2
            "./data" "bucket" "prefix" false false Sample.empty_world well_behaved_calm _ _ _ _).
  - apply valid_of_validb. reflexivity.
  - apply valid_of_validb. reflexivity.
  - discriminate.
  - vm_compute. lia.
Defined.

(** X22. The last day there is.  Provided no exception escapes a handler
    (so every listing can be read), a range that ends on 9999-12-31 is
    processed to its last day, every day listed once and in order; then
    [date += timedelta(days=1)] overflows and the run ends with
    [OverflowError] instead of returning. *)
Theorem range_to_last_day_overflows (E : env) (fuel : nat)
    (repo_id : string) (start : date) (local_root s3_bucket s3_prefix : string)
    (force dryrun : bool) (w : world)
    (Hwb : well_behaved E)
    (Hstart : Date.valid start)
    (Hfuel : (Z.to_nat (Date.rank Date.max - Date.rank start + 1) < fuel)%nat) :
  exists w',
    run_pipeline E fuel repo_id start Date.max local_root s3_bucket s3_prefix force dryrun w
      = (Raise OverflowError, w')
    /\ listed_folders (calls w')
       = listed_folders (calls w)
         ++ List.map (fun d => (repo_id, folder_path d)) (date_range start Date.max)
    /\ In Date.max (date_range start Date.max).
Proof.
  assert (Hmax : Date.valid Date.max) by (apply valid_of_validb; reflexivity).
  destruct (run_pipeline_lists E Hwb repo_id local_root s3_bucket s3_prefix force dryrun Date.max
              Hmax fuel start w Hstart Hfuel) as (r & w' & Hrun & Hl & _ & Hovf).
  rewrite (Hovf eq_refl) in Hrun. exists w'.
  split; [exact Hrun|]. split; [exact Hl|].
  apply date_range_spec; [assumption..|].
  split; [exact Hmax|]. split; [apply leb_le_max, Hstart | apply leb_refl].
Qed.

Lemma range_to_last_day_overflows_witness :
  exists w',
    run_pipeline Sample.calm 3 "repo" (mkDate 9999 12 30) Date.max "./data" "bucket" "prefix"
      false false Sample.empty_world = (Raise OverflowError, w')
    /\ listed_folders (calls w')
       = listed_folders (calls Sample.empty_world)
         ++ List.map (fun d => ("repo", folder_path d)) (date_range (mkDate 9999 12 30) Date.max)
    /\ In Date.max (date_range (mkDate 9999 12 30) Date.max).
Proof.
  refine (range_to_last_day_overflows Sample.calm 3 "repo" (mkDate 9999 12 30) "./data" "bucket"
            "prefix" false false Sample.empty_world well_behaved_calm _ _).
  - apply valid_of_validb. reflexivity.
  - vm_compute. lia.
Defined.

(** ** The entry point *)

(** X23. The entry point.  Provided no exception escapes a handler (so
    the folder of the day can be read), running the module as a script returns [None] after listing one
    folder, [data/2025/7/1] of [openclimatefix/dwd-icon-eu]; it deletes
    nothing from the bucket and changes it only in [celine-pipelines-dwd]
    under [openclimatefix--dwd-icon-eu/]. *)
Theorem main_processes_one_day (E : env) (fuel : nat) (w : world)
    (Hwb : well_behaved E)
    (Hfuel : (2 <= fuel)%nat) :
  exists w',
    main E fuel w = (Ret None, w')
    /\ listed_folders (calls w')
       = listed_folders (calls w) ++ [("openclimatefix/dwd-icon-eu", "data/2025/7/1")]
    /\ (forall bucket key,
          s3 w' !! (bucket, key) <> s3 w !! (bucket, key) ->
          bucket = "celine-pipelines-dwd"
          /\ String.prefix "openclimatefix--dwd-icon-eu/" key = true)
    /\ (forall bucket key, is_Some (s3 w !! (bucket, key)) -> is_Some (s3 w' !! (bucket, key))).
Proof.
  unfold main. unfold bind at 1. cbn [print].
  set (w0 := mkWorld _ _ _ _).
  assert (Hv : Date.valid (mkDate 2025 7 1)) by (apply valid_of_validb; reflexivity).
  destruct (run_pipeline_lists E Hwb "openclimatefix/dwd-icon-eu" "./data" "celine-pipelines-dwd"
              "openclimatefix--dwd-icon-eu" false false (mkDate 2025 7 1) Hv fuel
              (mkDate 2025 7 1) w0 Hv) as (r & w' & Hrun & Hl & Hret & _).
  { change (Z.to_nat (Date.rank (mkDate 2025 7 1) - Date.rank (mkDate 2025 7 1) + 1)) with 1%nat.
    lia. }
  rewrite Hret in Hrun by discriminate.
  pose proof (run_pipeline_preserves
                (bucket_grows_within (run_keys "celine-pipelines-dwd" "openclimatefix--dwd-icon-eu"))
                E "openclimatefix/dwd-icon-eu" "./data" "celine-pipelines-dwd"
                "openclimatefix--dwd-icon-eu" false false
                (fun line w1 bk => or_introl eq_refl)
                (fun c w1 bk => or_introl eq_refl)
                (fun d rp => process_file_grows E _ d _ _ _ _ _ rp)
                fuel (mkDate 2025 7 1) (mkDate 2025 7 1) w0) as Hg.
  rewrite Hrun in *. cbn [snd] in Hg. exists w'.
  split; [reflexivity|]. split; [exact Hl|]. split.
  - intros bucket key Hne. destruct (Hg (bucket, key)) as [H|[H _]]; [contradiction | exact H].
  - intros bucket key Hk. destruct (Hg (bucket, key)) as [->|[_ H]]; assumption.
Qed.

Lemma main_processes_one_day_witness :
  exists w',
    main Sample.calm 2 Sample.empty_world = (Ret None, w')
    /\ listed_folders (calls w')
       = listed_folders (calls Sample.empty_world)
         ++ [("openclimatefix/dwd-icon-eu", "data/2025/7/1")]
    /\ (forall bucket key,
          s3 w' !! (bucket, key) <> s3 Sample.empty_world !! (bucket, key) ->
          bucket = "celine-pipelines-dwd"
          /\ String.prefix "openclimatefix--dwd-icon-eu/" key = true)
    /\ (forall bucket key, is_Some (s3 Sample.empty_world !! (bucket, key)) ->
                           is_Some (s3 w' !! (bucket, key))).
Proof.
  apply (main_processes_one_day Sample.calm 2 Sample.empty_world well_behaved_calm). lia.
Defined.
